(** * Pig2.py: a shallow embedding of the two-player dice game "Pig"

    The program under study is [src/Pig2.py]: a die, two kinds of players
    built by a factory, the untimed game loop [PigGame.play], the timed loop
    [TimedGameProxy.play] and the entry point [main].

    Modelling choices.
    - Python integers are unbounded: scores, rolls and turn totals are [Z].
    - A string is a [string] whose characters are the code points
      U+0000..U+00FF; [lower], [isspace] and [strip] follow Python's [str]
      methods on that range.
    - [time.time()] returns a binary64 float: clock readings are primitive
      floats and the deadline test is the float comparison the source writes.
    - The module-level generator of [random] is a piece of global state; its
      seeding function and [randint(1, 6)] are taken as an interface
      ([RandomModule]), since they are library code and not part of the
      repository.
    - Standard input is the list of lines still to be read; standard output
      is the list of messages printed so far, one constructor of [output]
      per [print] statement of the source.
    - The two nested [while True] loops are unfolded into a transition
      function over the program points at which the loops are re-entered;
      [run] iterates it. *)

From Stdlib Require Import ZArith List String Ascii Bool Lia.
From Stdlib Require Import Floats.PrimFloat.
Import ListNotations.

Local Open Scope string_scope.
Local Open Scope list_scope.
Local Open Scope Z_scope.

#[local] Arguments Z.add : simpl never.
#[local] Arguments Z.sub : simpl never.
#[local] Arguments Z.min : simpl never.
#[local] Arguments Z.geb : simpl never.
#[local] Arguments Z.gtb : simpl never.
#[local] Arguments Z.ltb : simpl never.
#[local] Arguments Z.eqb : simpl never.
#[local] Arguments String.eqb : simpl never.

(** ** Python strings *)

(** [str.lower] on one code point of U+0000..U+00FF: the ASCII capitals and
    the Latin-1 capitals U+00C0..U+00DE (the multiplication sign U+00D7 is not
    a letter) move up by 32; everything else is unchanged. *)
Definition chr_lower (c : ascii) : ascii :=
  let n := N_of_ascii c in
  if ((65 <=? n) && (n <=? 90) || (192 <=? n) && (n <=? 222) && negb (n =? 215))%N
  then ascii_of_N (n + 32) else c.

Fixpoint lower (s : string) : string :=
  match s with
  | EmptyString => EmptyString
  | String c s' => String (chr_lower c) (lower s')
  end.

(** [str.isspace] on one code point of U+0000..U+00FF. *)
Definition isspace (c : ascii) : bool :=
  let n := N_of_ascii c in
  ((9 <=? n) && (n <=? 13) || (28 <=? n) && (n <=? 32) || (n =? 133) || (n =? 160))%N.

Fixpoint lstrip (s : string) : string :=
  match s with
  | EmptyString => EmptyString
  | String c s' => if isspace c then lstrip s' else s
  end.

Fixpoint rstrip (s : string) : string :=
  match s with
  | EmptyString => EmptyString
  | String c s' =>
      match rstrip s' with
      | EmptyString => if isspace c then EmptyString else String c EmptyString
      | r => String c r
      end
  end.

(** [str.strip()] with no argument. *)
Definition strip (s : string) : string := rstrip (lstrip s).

(** Python's [list[i]]: a negative index counts from the end. *)
Definition list_get {A : Type} (l : list A) (i : Z) : option A :=
  let j := if i <? 0 then Z.of_nat (List.length l) + i else i in
  if j <? 0 then None else nth_error l (Z.to_nat j).

Fixpoint set_nth {A : Type} (l : list A) (n : nat) (v : A) : list A :=
  match l, n with
  | [], _ => []
  | _ :: t, O => v :: t
  | h :: t, S n' => h :: set_nth t n' v
  end.

(** Replacing the object stored at [l[i]]; used for the in-place mutation of
    a player that the list refers to. Out of range nothing is stored (the
    callers have read [l[i]] before). *)
Definition list_set {A : Type} (l : list A) (i : Z) (v : A) : list A :=
  let j := if i <? 0 then Z.of_nat (List.length l) + i else i in
  if j <? 0 then l else set_nth l (Z.to_nat j) v.

(** ** Exceptions and results *)

Inductive exn : Type :=
| ValueError (msg : string)
| EOFError
| IndexError.

Inductive result (A : Type) : Type :=
| Ok (a : A)
| Raise (e : exn).
Arguments Ok {A} a.
Arguments Raise {A} e.

(** ** The [random] module and the clock *)

(** The interface of Python's [random] module that the program uses:
    [random.seed(a)] replaces the state of the module-level generator, and
    [random.randint(1, 6)] draws from it. *)
Class RandomModule : Type := {
  rng_state : Type;
  random_seed : Z -> rng_state;
  random_randint_1_6 : rng_state -> Z * rng_state
}.

(** The documented range of [random.randint(1, 6)]. *)
Class RandintInRange (R : RandomModule) : Prop :=
  randint_in_range : forall s : rng_state, 1 <= fst (random_randint_1_6 s) <= 6.

(** A small generator used to run the model on concrete games: a linear
    congruential generator whose high bits pick the face. *)
Definition lcg_next (s : Z) : Z := (s * 1103515245 + 12345) mod 2147483648.

#[export] Instance lcg_random : RandomModule := {|
  rng_state := Z;
  random_seed := fun a => a;
  random_randint_1_6 := fun s => (1 + (lcg_next s / 65536) mod 6, lcg_next s)
|}.

(** A generator that replays a fixed list of faces and then keeps rolling
    its last argument; [random_seed] rewinds it. *)
Definition scripted_random (faces : list Z) (rest : Z) : RandomModule := {|
  rng_state := list Z;
  random_seed := fun _ => faces;
  random_randint_1_6 := fun s =>
    match s with
    | [] => (rest, [])
    | r :: s' => (r, s')
    end
|}.

(** ** Players *)

Inductive player_class : Type := HumanPlayer | ComputerPlayer.

(** [Player.__init__]: a name, and a score that starts at 0. The class of the
    object selects the [decide] method. The program builds players through
    the factory only, which instantiates one of the two subclasses; the base
    class, whose [decide] raises [NotImplementedError], is never
    instantiated, and [reset_turn] does nothing and is never called. *)
Record Player : Type := {
  cls : player_class;
  name : string;
  score : Z
}.

Definition Player_init (k : player_class) (nm : string) : Player :=
  {| cls := k; name := nm; score := 0 |}.

(** [Player.add_score]: [self.score += points]. *)
Definition add_score (p : Player) (points : Z) : Player :=
  {| cls := cls p; name := name p; score := score p + points |}.

(** [ComputerPlayer.decide]. *)
Definition ComputerPlayer_decide (p : Player) (turn_total : Z) : string :=
  if turn_total >=? Z.min 25 (100 - score p) then "h" else "r".

(** [PlayerFactory.create_player]. *)
Definition create_player (player_type nm : string) : result Player :=
  if String.eqb (lower player_type) "human" then Ok (Player_init HumanPlayer nm)
  else if String.eqb (lower player_type) "computer" then Ok (Player_init ComputerPlayer nm)
  else Raise (ValueError "Invalid player type. Choose 'human' or 'computer'.").

(** ** Output, objects and the world *)

(** One constructor per [print] statement (and one for the prompt that
    [input] writes). *)
Inductive output : Type :=
| Prompt (text : string)
| InvalidInput
| Welcome
| TimedStart
| TurnAnnounce (nm : string) (sc : Z)
| Rolled (nm : string) (roll : Z)
| Bust
| TurnTotal (turn_total : Z) (if_held : Z)
| Holds (nm : string) (added : Z) (new_score : Z)
| Wins (nm : string) (sc : Z)
| TimeUp
| TimeUpDuringTurn
| WinsWithPoints (nm : string) (sc : Z)
| Tie.

Inductive Die : Type := DieObject.

Record PigGame : Type := {
  die : Die;
  players : list Player;
  current_player : Z
}.

Record TimedGameProxy : Type := {
  game : PigGame;
  start_time : float
}.

(** The objects whose constructor has returned. *)
Inductive object : Type :=
| ADie
| APlayer (p : Player)
| APigGame (g : PigGame)
| ATimedGameProxy (t : TimedGameProxy).

Section Model.

Context {R : RandomModule}.

(** Everything outside the game objects that the program reads or changes. *)
Record world : Type := {
  stdin : list string;
  stdout : list output;
  random_state : rng_state;
  clock : nat -> float;
  clock_reads : nat;
  constructed : list object
}.

Definition set_stdin (l : list string) (w : world) : world :=
  {| stdin := l; stdout := stdout w; random_state := random_state w;
     clock := clock w; clock_reads := clock_reads w; constructed := constructed w |}.

Definition print (o : output) (w : world) : world :=
  {| stdin := stdin w; stdout := stdout w ++ [o]; random_state := random_state w;
     clock := clock w; clock_reads := clock_reads w; constructed := constructed w |}.

Definition set_random_state (s : rng_state) (w : world) : world :=
  {| stdin := stdin w; stdout := stdout w; random_state := s;
     clock := clock w; clock_reads := clock_reads w; constructed := constructed w |}.

Definition construct (o : object) (w : world) : world :=
  {| stdin := stdin w; stdout := stdout w; random_state := random_state w;
     clock := clock w; clock_reads := clock_reads w; constructed := constructed w ++ [o] |}.

(** [time.time()]: the next reading of the wall clock. *)
Definition time_time (w : world) : float * world :=
  (clock w (clock_reads w),
   {| stdin := stdin w; stdout := stdout w; random_state := random_state w;
      clock := clock w; clock_reads := S (clock_reads w); constructed := constructed w |}).

(** [now - start >= 60], on floats. *)
Definition time_is_up (start now : float) : bool :=
  PrimFloat.leb 60%float (PrimFloat.sub now start).

(** [input(prompt)]: writes the prompt and reads one line, without its
    newline; at end of input Python raises [EOFError]. *)
Definition input (prompt : string) (w : world) : result string * world :=
  match stdin w with
  | [] => (Raise EOFError, print (Prompt prompt) w)
  | l :: rest => (Ok l, set_stdin rest (print (Prompt prompt) w))
  end.

(** [Die.__init__(seed)]: [random.seed(seed)]. *)
Definition Die_init (seed : Z) (w : world) : Die * world :=
  (DieObject, construct ADie (set_random_state (random_seed seed) w)).

(** [Die.roll]: [random.randint(1, 6)] on the module-level generator. *)
Definition Die_roll (w : world) : Z * world :=
  let '(r, s) := random_randint_1_6 (random_state w) in
  (r, set_random_state s w).

(** [HumanPlayer.decide]: the prompt loop over the lines of standard input.
    Returns the choice (or [EOFError]), the lines left and what was printed. *)
Fixpoint HumanPlayer_decide_loop (lines : list string) (out : list output)
  : result string * list string * list output :=
  let out1 := out ++ [Prompt "Enter 'r' to roll or 'h' to hold: "] in
  match lines with
  | [] => (Raise EOFError, [], out1)
  | l :: rest =>
      let choice := lower (strip l) in
      if String.eqb choice "r" || String.eqb choice "h" then (Ok choice, rest, out1)
      else HumanPlayer_decide_loop rest (out1 ++ [InvalidInput])
  end.

Definition HumanPlayer_decide (w : world) : result string * world :=
  let '(r, rest, out) := HumanPlayer_decide_loop (stdin w) (stdout w) in
  (r, {| stdin := rest; stdout := out; random_state := random_state w;
         clock := clock w; clock_reads := clock_reads w; constructed := constructed w |}).

(** [player.decide(turn_total)], dispatched on the class of the object. *)
Definition decide (p : Player) (turn_total : Z) (w : world) : result string * world :=
  match cls p with
  | HumanPlayer => HumanPlayer_decide w
  | ComputerPlayer => (Ok (ComputerPlayer_decide p turn_total), w)
  end.

(** ** Construction of the game *)

(** [PigGame.__init__]: the die first, then the two players in order, then
    the index of the player to move. *)
Definition PigGame_init (player1_type player2_type : string) (w : world)
  : result PigGame * world :=
  let '(d, w1) := Die_init 0 w in
  match create_player player1_type "Player 1" with
  | Raise e => (Raise e, w1)
  | Ok p1 =>
      let w2 := construct (APlayer p1) w1 in
      match create_player player2_type "Player 2" with
      | Raise e => (Raise e, w2)
      | Ok p2 =>
          let w3 := construct (APlayer p2) w2 in
          let g := {| die := d; players := [p1; p2]; current_player := 0 |} in
          (Ok g, construct (APigGame g) w3)
      end
  end.

(** [TimedGameProxy.__init__]. *)
Definition TimedGameProxy_init (player1_type player2_type : string) (w : world)
  : result TimedGameProxy * world :=
  match PigGame_init player1_type player2_type w with
  | (Raise e, w1) => (Raise e, w1)
  | (Ok g, w1) =>
      let '(t, w2) := time_time w1 in
      let p := {| game := g; start_time := t |} in
      (Ok p, construct (ATimedGameProxy p) w2)
  end.

(** [PigGame.switch_turn]. *)
Definition switch_turn (g : PigGame) : PigGame :=
  {| die := die g; players := players g; current_player := 1 - current_player g |}.

(** ** The game loops *)

(** Program points: the head of the outer loop (lines 76 and 118), the head
    of the inner loop with the value of [turn_total] (lines 82 and 130), the
    test after the inner loop with the value [turn_total] has there (lines
    101 and 154), the return of [play], and an exception leaving [play]. *)
Inductive point : Type :=
| TurnStart
| Rolling (turn_total : Z)
| WinCheck (turn_total : Z)
| Returned
| Raised (e : exn).

Record config : Type := {
  at_point : point;
  the_game : PigGame;
  the_world : world
}.

(** The local variable [player] is a reference to the object
    [players[current_player]]; [current_player] does not change during a
    turn, so the model reads and writes the object through the list. *)
Definition current (g : PigGame) : option Player :=
  list_get (players g) (current_player g).

(** The game after [player.add_score(points)], where [player] is the object
    [players[current_player]] and [p] its state before the call. *)
Definition after_add_score (g : PigGame) (p : Player) (points : Z) : PigGame :=
  {| die := die g;
     players := list_set (players g) (current_player g) (add_score p points);
     current_player := current_player g |}.

(** Lines 76-79 and 124-127: bind [player], reset [turn_total], announce. *)
Definition turn_start (g : PigGame) (w : world) : config :=
  match current g with
  | None => {| at_point := Raised IndexError; the_game := g; the_world := w |}
  | Some player =>
      {| at_point := Rolling 0; the_game := g;
         the_world := print (TurnAnnounce (name player) (score player)) w |}
  end.

(** Lines 82-99 and 135-152: one pass through the body of the inner loop. *)
Definition roll_or_hold (g : PigGame) (w : world) (turn_total : Z) : config :=
  match current g with
  | None => {| at_point := Raised IndexError; the_game := g; the_world := w |}
  | Some player =>
      match decide player turn_total w with
      | (Raise e, w1) => {| at_point := Raised e; the_game := g; the_world := w1 |}
      | (Ok choice, w1) =>
          if String.eqb choice "r" then
            let '(roll, w2) := Die_roll w1 in
            let w3 := print (Rolled (name player) roll) w2 in
            if roll =? 1 then
              {| at_point := WinCheck 0; the_game := g; the_world := print Bust w3 |}
            else
              let turn_total' := turn_total + roll in
              {| at_point := Rolling turn_total'; the_game := g;
                 the_world := print (TurnTotal turn_total' (score player + turn_total')) w3 |}
          else if String.eqb choice "h" then
            let player' := add_score player turn_total in
            {| at_point := WinCheck turn_total;
               the_game := after_add_score g player turn_total;
               the_world := print (Holds (name player') turn_total (score player')) w1 |}
          else
            {| at_point := Rolling turn_total; the_game := g; the_world := w1 |}
      end
  end.

(** Lines 101-105 and 154-158: the winner test and the change of turn. *)
Definition win_check (g : PigGame) (w : world) : config :=
  match current g with
  | None => {| at_point := Raised IndexError; the_game := g; the_world := w |}
  | Some player =>
      if score player >=? 100 then
        {| at_point := Returned; the_game := g;
           the_world := print (Wins (name player) (score player)) w |}
      else
        {| at_point := TurnStart; the_game := switch_turn g; the_world := w |}
  end.

(** One transition of [PigGame.play]. *)
Definition PigGame_step (c : config) : config :=
  match at_point c with
  | TurnStart => turn_start (the_game c) (the_world c)
  | Rolling turn_total => roll_or_hold (the_game c) (the_world c) turn_total
  | WinCheck _ => win_check (the_game c) (the_world c)
  | Returned => c
  | Raised _ => c
  end.

(** [TimedGameProxy.determine_winner]. The unpacking [p1, p2 = players]
    raises [ValueError] unless the list has exactly two elements. *)
Definition determine_winner (g : PigGame) (w : world) : config :=
  match players g with
  | [p1; p2] =>
      {| at_point := Returned; the_game := g;
         the_world :=
           if score p1 >? score p2 then print (WinsWithPoints (name p1) (score p1)) w
           else if score p2 >? score p1 then print (WinsWithPoints (name p2) (score p2)) w
           else print Tie w |}
  | _ =>
      {| at_point := Raised (ValueError "unpack"); the_game := g; the_world := w |}
  end.

(** One transition of [TimedGameProxy.play]; [start] is [self.start_time]. *)
Definition TimedGameProxy_step (start : float) (c : config) : config :=
  match at_point c with
  | TurnStart =>
      let '(now, w1) := time_time (the_world c) in
      if time_is_up start now then determine_winner (the_game c) (print TimeUp w1)
      else turn_start (the_game c) w1
  | Rolling turn_total =>
      let '(now, w1) := time_time (the_world c) in
      if time_is_up start now then determine_winner (the_game c) (print TimeUpDuringTurn w1)
      else roll_or_hold (the_game c) w1 turn_total
  | WinCheck _ => win_check (the_game c) (the_world c)
  | Returned => c
  | Raised _ => c
  end.

Fixpoint run (step : config -> config) (n : nat) (c : config) : config :=
  match n with
  | O => c
  | S n' => run step n' (step c)
  end.

(** [PigGame.play], for [n] transitions after the welcome line. *)
Definition PigGame_play (n : nat) (g : PigGame) (w : world) : config :=
  run PigGame_step n
      {| at_point := TurnStart; the_game := g; the_world := print Welcome w |}.

(** [TimedGameProxy.play], for [n] transitions after its first line. *)
Definition TimedGameProxy_play (n : nat) (p : TimedGameProxy) (w : world) : config :=
  run (TimedGameProxy_step (start_time p)) n
      {| at_point := TurnStart; the_game := game p; the_world := print TimedStart w |}.

(** ** The entry point *)

Inductive game_object : Type :=
| Untimed (g : PigGame)
| Timed (p : TimedGameProxy).

(** Lines 172-180 of [main]: the three prompts, then the constructor chosen
    by the answer to the third. *)
Definition main_setup (w : world) : result game_object * world :=
  match input "Enter Player 1 type (human/computer): " w with
  | (Raise e, w1) => (Raise e, w1)
  | (Ok a1, w1) =>
      let player1_type := lower (strip a1) in
      match input "Enter Player 2 type (human/computer): " w1 with
      | (Raise e, w2) => (Raise e, w2)
      | (Ok a2, w2) =>
          let player2_type := lower (strip a2) in
          match input "Do you want to play in timed mode? (yes/no): " w2 with
          | (Raise e, w3) => (Raise e, w3)
          | (Ok a3, w3) =>
              let timed_mode := lower (strip a3) in
              if String.eqb timed_mode "yes" then
                match TimedGameProxy_init player1_type player2_type w3 with
                | (Raise e, w4) => (Raise e, w4)
                | (Ok p, w4) => (Ok (Timed p), w4)
                end
              else
                match PigGame_init player1_type player2_type w3 with
                | (Raise e, w4) => (Raise e, w4)
                | (Ok g, w4) => (Ok (Untimed g), w4)
                end
          end
      end
  end.

(** What [main] has done after [n] transitions of [game.play()]: either the
    setup raised and [play] was never entered, or the game is in some
    configuration. *)
Inductive main_result : Type :=
| SetupRaised (e : exn) (w : world)
| Playing (c : config).

Definition main (n : nat) (w : world) : main_result :=
  match main_setup w with
  | (Raise e, w1) => SetupRaised e w1
  | (Ok (Untimed g), w1) => Playing (PigGame_play n g w1)
  | (Ok (Timed p), w1) => Playing (TimedGameProxy_play n p w1)
  end.

End Model.

(** ** Vocabulary of the statements *)

(** [c] is the letter [p] in either case, for a small ASCII letter [p]. *)
Definition same_letter (p c : ascii) : bool :=
  Ascii.eqb c p
  || ((65 <=? N_of_ascii c) && (N_of_ascii c <=? 90)
      && (N_of_ascii c + 32 =? N_of_ascii p))%N.

(** [s] is a casing of [pattern]: the same letters, each in either case. *)
Fixpoint is_casing (pattern s : string) : bool :=
  match pattern, s with
  | EmptyString, EmptyString => true
  | String p pattern', String c s' => same_letter p c && is_casing pattern' s'
  | _, _ => false
  end.

Fixpoint small_letters (p : string) : bool :=
  match p with
  | EmptyString => true
  | String c p' => ((97 <=? N_of_ascii c) && (N_of_ascii c <=? 122))%N && small_letters p'
  end.

Fixpoint all_space (s : string) : bool :=
  match s with
  | EmptyString => true
  | String c s' => isspace c && all_space s'
  end.

(** An answer that reads "yes" once surrounding whitespace and the case of
    the letters are ignored. *)
Definition says_yes (a : string) : Prop :=
  exists ws1 y ws2 : string,
    a = String.append ws1 (String.append y ws2)
    /\ all_space ws1 = true /\ all_space ws2 = true /\ is_casing "yes" y = true.

(** The names announced as winners by the line-102 message. *)
Fixpoint winners (out : list output) : list string :=
  match out with
  | [] => []
  | Wins nm _ :: out' => nm :: winners out'
  | _ :: out' => winners out'
  end.

(** The faces announced by the "rolled a" messages. *)
Fixpoint rolls (out : list output) : list Z :=
  match out with
  | [] => []
  | Rolled _ r :: out' => r :: rolls out'
  | _ :: out' => rolls out'
  end.

(** [players] holds exactly two players and [current_player] is 0 or 1. *)
Definition two_players (g : PigGame) : Prop :=
  (exists p q, players g = [p; q]) /\ (current_player g = 0 \/ current_player g = 1).

(** The player who is not to move. *)
Definition opponent (g : PigGame) : option Player := current (switch_turn g).

(** Pointwise comparison of two states of the list of players: the same
    objects (class and name), no score lower than before. *)
Definition scores_le (ps qs : list Player) : Prop :=
  Forall2 (fun p q => cls q = cls p /\ name q = name p /\ score p <= score q) ps qs.

(** The message printed by [determine_winner] for two players. *)
Definition verdict (p1 p2 : Player) : output :=
  if score p1 >? score p2 then WinsWithPoints (name p1) (score p1)
  else if score p2 >? score p1 then WinsWithPoints (name p2) (score p2)
  else Tie.

(** The invariant of [PigGame.play]: [declared] are the winners announced
    before [play] was entered. Away from the winner test both scores are
    below 100 and nobody has been declared; at the winner test the opponent
    is below 100; after the return the player to move has at least 100, the
    opponent has less, and that player alone has been declared. *)
Definition play_invariant {R : RandomModule} (declared : list string) (c : config) : Prop :=
  two_players (the_game c)
  /\ (exists a b, players (the_game c) = [a; b]
                  /\ name a = "Player 1" /\ name b = "Player 2")
  /\ exists p q,
       current (the_game c) = Some p /\ opponent (the_game c) = Some q
       /\ score q < 100
       /\ match at_point c with
          | WinCheck _ => winners (stdout (the_world c)) = declared
          | Returned =>
              100 <= score p /\ winners (stdout (the_world c)) = declared ++ [name p]
          | Raised e =>
              e = EOFError /\ score p < 100 /\ winners (stdout (the_world c)) = declared
          | _ => score p < 100 /\ winners (stdout (the_world c)) = declared
          end.

(** The invariant behind the non-negative scores: two players, no negative
    score, no negative turn total. *)
Definition scores_invariant {R : RandomModule} (c : config) : Prop :=
  two_players (the_game c)
  /\ Forall (fun p => 0 <= score p) (players (the_game c))
  /\ match at_point c with
     | Rolling turn_total | WinCheck turn_total => 0 <= turn_total
     | _ => True
     end.

(** A transition changes the list of players only by a hold: it leaves the
    inner loop from [Rolling turn_total] with the player to move credited
    with [turn_total], and prints the "holds" line. *)
Definition only_by_hold {R : RandomModule} (c c' : config) : Prop :=
  players (the_game c') = players (the_game c)
  \/ exists turn_total p,
       at_point c = Rolling turn_total /\ at_point c' = WinCheck turn_total
       /\ current (the_game c) = Some p
       /\ the_game c' = after_add_score (the_game c) p turn_total
       /\ exists out, stdout (the_world c')
                      = out ++ [Holds (name p) turn_total (score p + turn_total)].

(** What a game [play] (its configuration after each number of transitions)
    does to the scores: they are never negative, they never decrease from an
    earlier moment to a later one, and between two consecutive moments they
    change only by a hold. *)
Definition score_discipline {R : RandomModule} (play : nat -> config) : Prop :=
  forall n m : nat, (n <= m)%nat ->
    Forall (fun p => 0 <= score p) (players (the_game (play n)))
    /\ scores_le (players (the_game (play n))) (players (the_game (play m)))
    /\ only_by_hold (play n) (play (S n)).

(** Two worlds [w1] and [w2] of two runs that started in [W1] and [W2]
    agree: the generator is in the same state and the same lines have been
    printed since the start; for timed games ([timed = true]) the clocks
    agree as well. Nothing is asked of the input still to be read. *)
Definition world_agree {R : RandomModule} (timed : bool) (W1 W2 w1 w2 : world) : Prop :=
  random_state w1 = random_state w2
  /\ (exists out, stdout w1 = stdout W1 ++ out /\ stdout w2 = stdout W2 ++ out)
  /\ (timed = true -> clock w1 = clock w2 /\ clock_reads w1 = clock_reads w2).

(** Two runs are at the same point, with the same game objects, in worlds
    that agree. *)
Definition same_game {R : RandomModule} (timed : bool) (W1 W2 : world) (c1 c2 : config)
  : Prop :=
  at_point c1 = at_point c2 /\ the_game c1 = the_game c2
  /\ world_agree timed W1 W2 (the_world c1) (the_world c2).

Definition all_computers (g : PigGame) : Prop :=
  Forall (fun p => cls p = ComputerPlayer) (players g).

(** A label that is "human" or "computer" in some casing. *)
Definition recognised (label : string) : bool :=
  is_casing "human" label || is_casing "computer" label.

(** The three prompts of [main], in the order they are printed. *)
Definition setup_prompts : list output :=
  [Prompt "Enter Player 1 type (human/computer): ";
   Prompt "Enter Player 2 type (human/computer): ";
   Prompt "Do you want to play in timed mode? (yes/no): "].

(** The error raised for a label that is not recognised. *)
Definition invalid_player_type : exn :=
  ValueError "Invalid player type. Choose 'human' or 'computer'.".

(** ** Concrete worlds used to run the model *)

Definition world_of (R : RandomModule) (lines : list string) (s : rng_state)
  (times : nat -> float) : world :=
  {| stdin := lines; stdout := []; random_state := s;
     clock := times; clock_reads := 0%nat; constructed := [] |}.

(** A clock that reads [t0] for its first [k] readings and [t1] from then
    on. *)
Definition jump_clock (t0 t1 : float) (k : nat) (n : nat) : float :=
  if Nat.ltb n k then t0 else t1.

(** A world with nothing to read, an arbitrary earlier state of the
    generator, and a clock that reads 1000 s once and 1070 s afterwards. *)
Definition demo_world : @world lcg_random :=
  world_of lcg_random [] 42 (jump_clock 1000 1070 1).

(** The game between two computers, as [PigGame] builds it. *)
Definition computers : PigGame :=
  {| die := DieObject;
     players := [Player_init ComputerPlayer "Player 1";
                 Player_init ComputerPlayer "Player 2"];
     current_player := 0 |}.

(** A world whose die will show 3 and then 1. *)
Definition three_then_one : @world (scripted_random [3; 1] 1) :=
  world_of (scripted_random [3; 1] 1) [] [3; 1] (jump_clock 0 0 0).

(** A player sits down as "human", the other as "alien". *)
Definition alien_world : @world lcg_random :=
  world_of lcg_random ["human"; "alien"; "no"] 42 (jump_clock 1000 1070 1).

(** Two computers, and a spaced, capitalised "yes" or a "maybe". *)
Definition yes_world : @world lcg_random :=
  world_of lcg_random ["computer"; "Computer "; "  YeS "] 42 (jump_clock 1000 1070 1).

Definition maybe_world : @world lcg_random :=
  world_of lcg_random ["computer"; "Computer "; "maybe"] 42 (jump_clock 1000 1070 1).

(** ** Vocabulary of the further properties *)

(** An answer that reads [pattern] once surrounding whitespace and the
    case of the letters are ignored. *)
Definition reads_as (pattern a : string) : Prop :=
  exists ws1 y ws2 : string,
    a = String.append ws1 (String.append y ws2)
    /\ all_space ws1 = true /\ all_space ws2 = true /\ is_casing pattern y = true.

Fixpoint no_space (s : string) : bool :=
  match s with
  | EmptyString => true
  | String c s' => negb (isspace c) && no_space s'
  end.

(** What [HumanPlayer.decide] prints while it reads the lines [bad], none of
    which is a choice: the prompt and the complaint, once per line. *)
Fixpoint reprompts (bad : list string) : list output :=
  match bad with
  | [] => []
  | _ :: bad' =>
      Prompt "Enter 'r' to roll or 'h' to hold: " :: InvalidInput :: reprompts bad'
  end.

(** The label of a class of players, as the prompts of [main] spell it. *)
Definition class_label (k : player_class) : string :=
  match k with
  | HumanPlayer => "human"
  | ComputerPlayer => "computer"
  end.

(** The game that [main] has built. *)
Definition game_of (obj : game_object) : PigGame :=
  match obj with
  | Untimed g => g
  | Timed t => game t
  end.

(** The lines of the dialogue with a human: the prompt and the complaint. *)
Definition is_dialogue (o : output) : bool :=
  match o with
  | Prompt _ | InvalidInput => true
  | _ => false
  end.

(** The names announced by the turn lines (lines 79 and 127). *)
Fixpoint announced (out : list output) : list string :=
  match out with
  | [] => []
  | TurnAnnounce nm _ :: out' => nm :: announced out'
  | _ :: out' => announced out'
  end.

(** The player of the [i]-th turn when turns alternate from Player 1. *)
Definition turn_name (i : nat) : string :=
  if Nat.even i then "Player 1" else "Player 2".

(** The names of the first [k] turns. *)
Definition turn_names (k : nat) : list string := map turn_name (seq 0 k).

(** The index in [players] of the player of the [i]-th turn. *)
Definition turn_index (i : nat) : Z := if Nat.even i then 0 else 1.

(** The points that the "holds" lines report as added for the player [nm]. *)
Fixpoint banked (nm : string) (out : list output) : Z :=
  match out with
  | [] => 0
  | Holds nm' added _ :: out' =>
      (if String.eqb nm' nm then added else 0) + banked nm out'
  | _ :: out' => banked nm out'
  end.

(** The first [k] faces drawn from the generator in state [s], and the state
    it is left in. *)
Fixpoint draws {R : RandomModule} (s : rng_state) (k : nat) : list Z * rng_state :=
  match k with
  | O => ([], s)
  | S k' =>
      let '(l, s1) := draws s k' in
      let '(r, s2) := random_randint_1_6 s1 in
      (l ++ [r], s2)
  end.

(** The books of a game kept against its output. [base] is what had been
    printed and [input] what was left to read when [play] was entered; [k1]
    and [k2] are the classes of the two players. Since then: the scores are
    the points banked by the "holds" lines, the rolls announced are the
    first draws of the generator seeded with 0, the turns announced
    alternate from Player 1 and the last one announced belongs to the player
    to move, and an exception can only be the end of a human's input. *)
Definition ledger {R : RandomModule} (base : list output) (input : list string)
  (k1 k2 : player_class) (c : config) : Prop :=
  exists (out : list output) (k j : nat) (a b : Player),
    stdout (the_world c) = base ++ out
    /\ players (the_game c) = [a; b]
    /\ a = {| cls := k1; name := "Player 1"; score := banked "Player 1" out |}
    /\ b = {| cls := k2; name := "Player 2"; score := banked "Player 2" out |}
    /\ rolls out = fst (draws (random_seed 0) j)
    /\ random_state (the_world c) = snd (draws (random_seed 0) j)
    /\ announced out = turn_names k
    /\ (k1 = ComputerPlayer -> k2 = ComputerPlayer -> stdin (the_world c) = input)
    /\ match at_point c with
       | TurnStart => current_player (the_game c) = turn_index k
       | Rolling _ | WinCheck _ =>
           exists k', k = S k' /\ current_player (the_game c) = turn_index k'
       | Raised e =>
           e = EOFError /\ stdin (the_world c) = []
           /\ exists k' p, k = S k' /\ current_player (the_game c) = turn_index k'
                           /\ current (the_game c) = Some p /\ cls p = HumanPlayer
       | Returned => current_player (the_game c) = 0 \/ current_player (the_game c) = 1
       end.

(** [game.play()] in [main]: the method of the object that was built, for
    [n] transitions. *)
Definition game_after {R : RandomModule} (obj : game_object) (n : nat) (w : world)
  : config :=
  match obj with
  | Untimed g => PigGame_play n g w
  | Timed t => TimedGameProxy_play n t w
  end.

(** The object [obj] is what one of the two constructors returns for the
    labels [l1] and [l2] in the world [w], which it leaves as [w1]. *)
Definition built {R : RandomModule} (obj : game_object) (l1 l2 : string) (w w1 : world)
  : Prop :=
  match obj with
  | Untimed g => PigGame_init l1 l2 w = (Ok g, w1)
  | Timed t => TimedGameProxy_init l1 l2 w = (Ok t, w1)
  end.

(** The bounds that the computer's strategy keeps: the opponent of the
    player to move is below 100; a computer to move has a turn total of at
    most 30 that would take it to at most 105, and a score of at most 105
    once it has held. *)
Definition bounded {R : RandomModule} (c : config) : Prop :=
  two_players (the_game c)
  /\ exists p q,
       current (the_game c) = Some p /\ opponent (the_game c) = Some q
       /\ score q < 100
       /\ match at_point c with
          | TurnStart | Raised _ => score p < 100
          | Rolling turn_total =>
              score p < 100
              /\ (cls p = ComputerPlayer ->
                  0 <= turn_total <= 30 /\ score p + turn_total <= 105)
          | WinCheck _ | Returned => cls p = ComputerPlayer -> score p <= 105
          end.

(** Two worlds [w1] and [w2] of two runs that started in [W1] and [W2] are
    alike: the same lines are left to read, the generator is in the same
    state, the same lines have been printed since the start, and each clock
    is the one its run started with. The numbers of clock readings taken
    may differ. *)
Definition world_alike {R : RandomModule} (W1 W2 w1 w2 : world) : Prop :=
  stdin w1 = stdin w2 /\ random_state w1 = random_state w2
  /\ clock w1 = clock W1 /\ clock w2 = clock W2
  /\ exists out, stdout w1 = stdout W1 ++ out /\ stdout w2 = stdout W2 ++ out.

Definition alike {R : RandomModule} (W1 W2 : world) (c1 c2 : config) : Prop :=
  at_point c1 = at_point c2 /\ the_game c1 = the_game c2
  /\ world_alike W1 W2 (the_world c1) (the_world c2).

(** [play] is over: it has returned or an exception has left it. *)
Definition finished (pt : point) : Prop :=
  pt = Returned \/ exists e, pt = Raised e.

(** The lines that report the result of a game: the winner by points
    (line 102 or 155) and the verdict of [determine_winner]. *)
Definition is_result (o : output) : bool :=
  match o with
  | Wins _ _ | WinsWithPoints _ _ | Tie => true
  | _ => false
  end.

Definition results (out : list output) : list output := filter is_result out.

(** The result of a game against its output since [base]: none while the
    game goes on or after an exception; after the return exactly one, the
    last line printed, which is either the winner line of the player to
    move, who has 100 or more, or the verdict on the two scores as they
    stand. *)
Definition reported {R : RandomModule} (base : list output) (c : config) : Prop :=
  two_players (the_game c)
  /\ exists out,
       stdout (the_world c) = base ++ out
       /\ match at_point c with
          | Returned =>
              exists out0 line,
                out = out0 ++ [line] /\ results out0 = []
                /\ ((exists p, current (the_game c) = Some p /\ 100 <= score p
                               /\ line = Wins (name p) (score p))
                    \/ (exists a b, players (the_game c) = [a; b]
                                    /\ line = verdict a b))
          | _ => results out = []
          end.

(** A typist who first misses the key, then rolls, then holds. *)
Definition typing_world : @world lcg_random :=
  world_of lcg_random ["x"; " R "; "h"] 42 (jump_clock 1000 1070 1).

(** The input ends on a line that is no choice. *)
Definition short_world : @world lcg_random :=
  world_of lcg_random ["x"] 42 (jump_clock 1000 1070 1).

(** Only the first prompt finds an answer. *)
Definition one_line_world : @world lcg_random :=
  world_of lcg_random ["human"] 42 (jump_clock 1000 1070 1).

(** A world whose clock stands still at 1000 s. *)
Definition calm_world : @world lcg_random :=
  world_of lcg_random [] 42 (jump_clock 1000 1000 0).

(** The game between two humans, as [PigGame] builds it. *)
Definition humans : PigGame :=
  {| die := DieObject;
     players := [Player_init HumanPlayer "Player 1"; Player_init HumanPlayer "Player 2"];
     current_player := 0 |}.

(** The world in which the game between two computers starts. *)
Definition demo_start : @world lcg_random :=
  snd (PigGame_init "computer" "computer" demo_world).

(** A world whose clock reads 1000 s for its first [k] readings and 1060 s,
    exactly one minute later, from then on. *)
Definition deadline_world (k : nat) : @world lcg_random :=
  world_of lcg_random [] 42 (jump_clock 1000 1060 k).

(** ** Python strings: lemmas *)

Lemma chr_lower_letter (p c : ascii) :
  (97 <= N_of_ascii p <= 122)%N ->
  chr_lower c = p <->
  c = p \/ ((65 <= N_of_ascii c <= 90)%N /\ (N_of_ascii c + 32 = N_of_ascii p)%N).
Proof.
  intros Hp. unfold chr_lower.
  pose proof (N_ascii_bounded c) as Hc.
  destruct ((65 <=? N_of_ascii c) && (N_of_ascii c <=? 90)
            || (192 <=? N_of_ascii c) && (N_of_ascii c <=? 222)
               && negb (N_of_ascii c =? 215))%N eqn:E.
  - rewrite orb_true_iff, !andb_true_iff, !N.leb_le in E.
    split.
    + intros H. apply (f_equal N_of_ascii) in H.
      rewrite N_ascii_embedding in H by lia. right. lia.
    + intros [-> | [_ H]]; [lia|].
      rewrite H. apply ascii_N_embedding.
  - rewrite orb_false_iff, !andb_false_iff, !N.leb_gt in E.
    split; [tauto|]. intros [H | [H _]]; [exact H | lia].
Qed.

Lemma same_letter_spec (p c : ascii) :
  (97 <= N_of_ascii p <= 122)%N ->
  same_letter p c = true <-> chr_lower c = p.
Proof.
  intros Hp. rewrite (chr_lower_letter p c Hp). unfold same_letter.
  rewrite orb_true_iff, !andb_true_iff, !N.leb_le, N.eqb_eq, Ascii.eqb_eq.
  tauto.
Qed.

Lemma lower_is_casing (p s : string) :
  small_letters p = true -> (String.eqb (lower s) p = true <-> is_casing p s = true).
Proof.
  rewrite String.eqb_eq.
  revert s. induction p as [|a p IH]; intros s Hp.
  - destruct s; simpl; split; congruence.
  - simpl in Hp. rewrite !andb_true_iff, !N.leb_le in Hp. destruct Hp as [Ha Hp].
    destruct s as [|c s]; simpl; [split; congruence|].
    rewrite andb_true_iff, (same_letter_spec a c Ha), <- (IH s Hp).
    split; [intros H; injection H; auto | intros [-> ->]; reflexivity].
Qed.

Lemma is_casing_length (p s : string) :
  is_casing p s = true -> String.length s = String.length p.
Proof.
  revert s. induction p as [|a p IH]; destruct s as [|c s]; simpl; try congruence.
  rewrite andb_true_iff. intros [_ H]. f_equal. auto.
Qed.

(** ** The computer's strategy *)

Lemma ComputerPlayer_decide_cases (p : Player) (turn_total : Z) :
  (Z.min 25 (100 - score p) <= turn_total /\ ComputerPlayer_decide p turn_total = "h")
  \/ (turn_total < Z.min 25 (100 - score p) /\ ComputerPlayer_decide p turn_total = "r").
Proof.
  unfold ComputerPlayer_decide.
  destruct (Z.geb_spec turn_total (Z.min 25 (100 - score p))); [left | right]; split;
    solve [lia | reflexivity].
Qed.

(** C4. [ComputerPlayer.decide] answers "h" exactly when
    [turn_total >= min(25, 100 - score)] and "r" exactly otherwise; it leaves
    the world untouched and its answer depends on nothing but the score and
    the turn total; with score 0 it holds exactly from 25 on, with score 85
    exactly from 15 on. *)
Theorem ComputerPlayer_decide_threshold (nm : string) (s turn_total : Z) :
  let p := {| cls := ComputerPlayer; name := nm; score := s |} in
  (ComputerPlayer_decide p turn_total = "h" <-> Z.min 25 (100 - s) <= turn_total)
  /\ (ComputerPlayer_decide p turn_total = "r" <-> turn_total < Z.min 25 (100 - s))
  /\ (forall (R : RandomModule) (w : world),
        decide p turn_total w = (Ok (ComputerPlayer_decide p turn_total), w))
  /\ (forall (R R' : RandomModule) (w : @world R) (w' : @world R') (nm' : string),
        fst (decide {| cls := ComputerPlayer; name := nm'; score := s |} turn_total w')
        = fst (decide p turn_total w))
  /\ (ComputerPlayer_decide {| cls := ComputerPlayer; name := nm; score := 0 |} turn_total = "h"
      <-> 25 <= turn_total)
  /\ (ComputerPlayer_decide {| cls := ComputerPlayer; name := nm; score := 85 |} turn_total = "h"
      <-> 15 <= turn_total).
Proof.
  intros p.
  assert (Hgen : forall q, (ComputerPlayer_decide q turn_total = "h"
                            <-> Z.min 25 (100 - score q) <= turn_total)
                           /\ (ComputerPlayer_decide q turn_total = "r"
                               <-> turn_total < Z.min 25 (100 - score q))).
  { intros q. destruct (ComputerPlayer_decide_cases q turn_total) as [[H ->] | [H ->]];
      split; split; intros; solve [lia | reflexivity | discriminate]. }
  split; [apply (Hgen p)|]. split; [apply (Hgen p)|].
  split; [reflexivity|]. split; [reflexivity|].
  split.
  - destruct (Hgen {| cls := ComputerPlayer; name := nm; score := 0 |}) as [H _].
    simpl in H. rewrite H. lia.
  - destruct (Hgen {| cls := ComputerPlayer; name := nm; score := 85 |}) as [H _].
    simpl in H. rewrite H. lia.
Qed.

(** ** The factory *)

Lemma is_casing_eqb (p s : string) :
  small_letters p = true -> is_casing p s = String.eqb (lower s) p.
Proof.
  intros Hp. apply Bool.eq_true_iff_eq. symmetry. apply lower_is_casing, Hp.
Qed.

Lemma create_player_computer (label nm : string) :
  is_casing "computer" label = true ->
  create_player label nm = Ok (Player_init ComputerPlayer nm).
Proof.
  intros H. rewrite (is_casing_eqb "computer" label eq_refl) in H.
  unfold create_player. rewrite H.
  destruct (String.eqb (lower label) "human") eqn:Eh; [|reflexivity].
  apply String.eqb_eq in Eh, H. rewrite Eh in H. discriminate.
Qed.

(** C6. [create_player] builds a [HumanPlayer] for every casing of "human",
    a [ComputerPlayer] for every casing of "computer", each with the given
    name and score 0, and raises [ValueError] for every other label. *)
Theorem create_player_by_label (label nm : string) :
  (is_casing "human" label = true ->
     create_player label nm = Ok {| cls := HumanPlayer; name := nm; score := 0 |})
  /\ (is_casing "computer" label = true ->
        create_player label nm = Ok {| cls := ComputerPlayer; name := nm; score := 0 |})
  /\ (is_casing "human" label = false -> is_casing "computer" label = false ->
        create_player label nm
        = Raise (ValueError "Invalid player type. Choose 'human' or 'computer'.")).
Proof.
  pose proof (lower_is_casing "human" label eq_refl) as Hh.
  pose proof (lower_is_casing "computer" label eq_refl) as Hc.
  unfold create_player.
  destruct (String.eqb (lower label) "human") eqn:Eh;
    destruct (String.eqb (lower label) "computer") eqn:Ec.
  - apply String.eqb_eq in Eh, Ec. rewrite Eh in Ec. discriminate.
  - repeat split; try reflexivity.
    + intros H. apply Hc in H. discriminate.
    + intros H. rewrite (proj1 Hh eq_refl) in H. discriminate.
  - repeat split; try reflexivity.
    + intros H. apply Hh in H. discriminate.
    + intros _ H. rewrite (proj1 Hc eq_refl) in H. discriminate.
  - repeat split; try reflexivity.
    + intros H. apply Hh in H. discriminate.
    + intros H. apply Hc in H. discriminate.
Qed.

Lemma create_player_by_label_witness :
  create_player "HUMAN" "A" = Ok {| cls := HumanPlayer; name := "A"; score := 0 |}
  /\ create_player "Computer" "B" = Ok {| cls := ComputerPlayer; name := "B"; score := 0 |}
  /\ create_player "alien" "C"
     = Raise (ValueError "Invalid player type. Choose 'human' or 'computer'.").
Proof.
  split; [|split].
  - apply (proj1 (create_player_by_label "HUMAN" "A")). reflexivity.
  - apply (proj1 (proj2 (create_player_by_label "Computer" "B"))). reflexivity.
  - apply (proj2 (proj2 (create_player_by_label "alien" "C"))); reflexivity.
Defined.

Lemma create_player_cases (label nm : string) :
  create_player label nm = Ok (Player_init HumanPlayer nm)
  \/ create_player label nm = Ok (Player_init ComputerPlayer nm)
  \/ create_player label nm
     = Raise (ValueError "Invalid player type. Choose 'human' or 'computer'.").
Proof.
  unfold create_player.
  destruct (String.eqb (lower label) "human"); [auto|].
  destruct (String.eqb (lower label) "computer"); auto.
Qed.

(** ** The list of players *)

Lemma two_players_current (g : PigGame) :
  two_players g ->
  exists p q, current g = Some p /\ opponent g = Some q
              /\ ((players g = [p; q] /\ current_player g = 0)
                  \/ (players g = [q; p] /\ current_player g = 1)).
Proof.
  intros [[p [q Hp]] [H | H]]; unfold opponent, current, switch_turn; simpl;
    rewrite Hp, H; [exists p, q | exists q, p]; auto.
Qed.

Lemma two_players_switch (g : PigGame) :
  two_players g ->
  two_players (switch_turn g)
  /\ current (switch_turn g) = opponent g
  /\ opponent (switch_turn g) = current g.
Proof.
  intros [[p [q Hp]] H]. unfold two_players, opponent, current.
  split; [split; [exists p, q; exact Hp | simpl; lia]|].
  split; [reflexivity|].
  simpl. rewrite Hp. destruct H as [-> | ->]; reflexivity.
Qed.

Lemma two_players_add_score (g : PigGame) (p : Player) (points : Z) :
  two_players g -> current g = Some p ->
  two_players (after_add_score g p points)
  /\ current (after_add_score g p points) = Some (add_score p points)
  /\ opponent (after_add_score g p points) = opponent g.
Proof.
  intros [[a [b Hp]] H] Hc.
  unfold two_players, opponent, current, switch_turn, after_add_score in *.
  simpl in *. rewrite Hp in *.
  destruct H as [H | H]; rewrite H in *;
    (split; [split; [eexists; eexists; reflexivity | auto] | split; reflexivity]).
Qed.

Lemma in_two_players (g : PigGame) (p q x : Player) :
  two_players g -> current g = Some p -> opponent g = Some q ->
  In x (players g) <-> x = p \/ x = q.
Proof.
  intros Hg Hp Hq.
  destruct (two_players_current g Hg) as [p' [q' [Hp' [Hq' H]]]].
  assert (p' = p) by congruence. assert (q' = q) by congruence. subst.
  destruct H as [[-> _] | [-> _]]; simpl; intuition congruence.
Qed.

(** ** What [decide] can answer and print *)

Lemma winners_app (a b : list output) : winners (a ++ b) = winners a ++ winners b.
Proof.
  induction a as [|o a IH]; simpl; [reflexivity|].
  destruct o; simpl; rewrite ?IH; reflexivity.
Qed.

Lemma rolls_app (a b : list output) : rolls (a ++ b) = rolls a ++ rolls b.
Proof.
  induction a as [|o a IH]; simpl; [reflexivity|].
  destruct o; simpl; rewrite ?IH; reflexivity.
Qed.

Lemma HumanPlayer_decide_loop_spec (lines : list string) (out : list output) :
  let '(r, rest, out') := HumanPlayer_decide_loop lines out in
  (r = Ok "r" \/ r = Ok "h" \/ r = Raise EOFError)
  /\ exists extra, out' = out ++ extra /\ winners extra = [] /\ rolls extra = [].
Proof.
  revert out. induction lines as [|l lines IH]; intros out; simpl.
  - split; [auto|]. eexists; split; [reflexivity | split; reflexivity].
  - destruct (String.eqb (lower (strip l)) "r") eqn:Er; simpl.
    + apply String.eqb_eq in Er. rewrite Er.
      split; [auto|]. eexists; split; [reflexivity | split; reflexivity].
    + destruct (String.eqb (lower (strip l)) "h") eqn:Eh; simpl.
      * apply String.eqb_eq in Eh. rewrite Eh.
        split; [auto|]. eexists; split; [reflexivity | split; reflexivity].
      * specialize (IH ((out ++ [Prompt "Enter 'r' to roll or 'h' to hold: "])
                          ++ [InvalidInput])).
        destruct (HumanPlayer_decide_loop lines _) as [[r rest] out'].
        destruct IH as [Hr [extra [-> [Hw Hro]]]].
        split; [exact Hr|].
        exists ([Prompt "Enter 'r' to roll or 'h' to hold: "; InvalidInput] ++ extra).
        rewrite <- !app_assoc. simpl. auto.
Qed.

Section Steps.

Context {R : RandomModule}.

(** [decide] answers "r" or "h" or raises [EOFError]; it changes nothing but
    the input read and the output printed, and prints neither a roll nor a
    winner. *)
Lemma decide_spec (p : Player) (turn_total : Z) (w : world) :
  let '(r, w1) := decide p turn_total w in
  (r = Ok "r" \/ r = Ok "h" \/ r = Raise EOFError)
  /\ random_state w1 = random_state w
  /\ clock w1 = clock w /\ clock_reads w1 = clock_reads w
  /\ constructed w1 = constructed w
  /\ exists extra, stdout w1 = stdout w ++ extra /\ winners extra = [] /\ rolls extra = [].
Proof.
  unfold decide. destruct (cls p).
  - unfold HumanPlayer_decide.
    pose proof (HumanPlayer_decide_loop_spec (stdin w) (stdout w)) as H.
    destruct (HumanPlayer_decide_loop (stdin w) (stdout w)) as [[r rest] out'].
    simpl. tauto.
  - split.
    + destruct (ComputerPlayer_decide_cases p turn_total) as [[_ ->] | [_ ->]]; auto.
    + repeat split. exists []. rewrite app_nil_r. auto.
Qed.

End Steps.

(** ** One pass through the loop bodies *)

Section Bodies.

Context {R : RandomModule}.

Lemma roll_or_hold_roll (g : PigGame) (w w1 w2 : world) (player : Player) (turn_total r : Z) :
  current g = Some player ->
  decide player turn_total w = (Ok "r", w1) ->
  Die_roll w1 = (r, w2) ->
  roll_or_hold g w turn_total
  = if r =? 1 then
      {| at_point := WinCheck 0; the_game := g;
         the_world := print Bust (print (Rolled (name player) r) w2) |}
    else
      {| at_point := Rolling (turn_total + r); the_game := g;
         the_world := print (TurnTotal (turn_total + r) (score player + (turn_total + r)))
                            (print (Rolled (name player) r) w2) |}.
Proof.
  intros Hc Hd Hr. unfold roll_or_hold. rewrite Hc, Hd.
  change (String.eqb "r" "r") with true. cbv iota. rewrite Hr. reflexivity.
Qed.

Lemma roll_or_hold_hold (g : PigGame) (w w1 : world) (player : Player) (turn_total : Z) :
  current g = Some player ->
  decide player turn_total w = (Ok "h", w1) ->
  roll_or_hold g w turn_total
  = {| at_point := WinCheck turn_total;
       the_game := after_add_score g player turn_total;
       the_world := print (Holds (name player) turn_total (score player + turn_total)) w1 |}.
Proof.
  intros Hc Hd. unfold roll_or_hold. rewrite Hc, Hd. reflexivity.
Qed.

Lemma roll_or_hold_raise (g : PigGame) (w w1 : world) (player : Player) (turn_total : Z)
  (e : exn) :
  current g = Some player ->
  decide player turn_total w = (Raise e, w1) ->
  roll_or_hold g w turn_total = {| at_point := Raised e; the_game := g; the_world := w1 |}.
Proof.
  intros Hc Hd. unfold roll_or_hold. rewrite Hc, Hd. reflexivity.
Qed.

Lemma win_check_cases (g : PigGame) (w : world) (player : Player) :
  current g = Some player ->
  (100 <= score player
   /\ win_check g w = {| at_point := Returned; the_game := g;
                         the_world := print (Wins (name player) (score player)) w |})
  \/ (score player < 100
      /\ win_check g w = {| at_point := TurnStart; the_game := switch_turn g;
                            the_world := w |}).
Proof.
  intros Hc. unfold win_check. rewrite Hc.
  destruct (Z.geb_spec (score player) 100); [left | right]; split; solve [lia | reflexivity].
Qed.

Lemma turn_start_eq (g : PigGame) (w : world) (player : Player) :
  current g = Some player ->
  turn_start g w
  = {| at_point := Rolling 0; the_game := g;
       the_world := print (TurnAnnounce (name player) (score player)) w |}.
Proof. intros Hc. unfold turn_start. rewrite Hc. reflexivity. Qed.

(** While the deadline has not passed, a transition of the timed loop is the
    clock reading followed by the transition of the untimed loop. *)
Lemma TimedGameProxy_step_in_time (start : float) (c : config) :
  time_is_up start (fst (time_time (the_world c))) = false ->
  TimedGameProxy_step start c
  = PigGame_step {| at_point := at_point c; the_game := the_game c;
                    the_world := match at_point c with
                                 | TurnStart | Rolling _ => snd (time_time (the_world c))
                                 | _ => the_world c
                                 end |}.
Proof.
  intros H. destruct c as [pt g w]. unfold TimedGameProxy_step, PigGame_step. simpl in *.
  destruct pt; try reflexivity; rewrite H; reflexivity.
Qed.

(** C2. When the player to move answers "r": a face [r] from 2 to 6 adds
    exactly [r] to [turn_total] and the inner loop is entered again (the
    player is asked again), the scores being untouched; the face 1 sets
    [turn_total] to 0 and leaves the inner loop at once, the scores being
    untouched. The timed loop does the same whenever its deadline test does
    not fire. *)
Theorem roll_updates_turn_total (g : PigGame) (w w1 w2 : world) (player : Player)
  (turn_total r : Z) :
  current g = Some player ->
  decide player turn_total w = (Ok "r", w1) ->
  Die_roll w1 = (r, w2) ->
  let c := PigGame_step {| at_point := Rolling turn_total; the_game := g; the_world := w |} in
  (2 <= r <= 6 ->
     at_point c = Rolling (turn_total + r) /\ the_game c = g
     /\ the_world c = print (TurnTotal (turn_total + r) (score player + (turn_total + r)))
                            (print (Rolled (name player) r) w2))
  /\ (r = 1 ->
        at_point c = WinCheck 0 /\ the_game c = g
        /\ the_world c = print Bust (print (Rolled (name player) 1) w2))
  /\ (forall (start : float) (w0 : world),
        time_is_up start (fst (time_time w0)) = false -> snd (time_time w0) = w ->
        TimedGameProxy_step start
          {| at_point := Rolling turn_total; the_game := g; the_world := w0 |} = c).
Proof.
  intros Hc Hd Hr c.
  assert (Hstep : c = roll_or_hold g w turn_total) by reflexivity.
  rewrite (roll_or_hold_roll g w w1 w2 player turn_total r Hc Hd Hr) in Hstep.
  split; [|split].
  - intros Hrange. rewrite Hstep. destruct (Z.eqb_spec r 1); [lia|]. simpl. auto.
  - intros ->. rewrite Hstep. simpl. auto.
  - intros start w0 Hup Hw. rewrite TimedGameProxy_step_in_time by exact Hup.
    change (PigGame_step {| at_point := Rolling turn_total; the_game := g;
                            the_world := snd (time_time w0) |} = c).
    rewrite Hw. reflexivity.
Qed.

(** C3. When the player to move answers "h": the whole [turn_total] is added
    to that player's score and to no other, the inner loop is left; if the
    new score is below 100 the next turn belongs to the opponent and starts
    with [turn_total] 0 (as every turn does), otherwise the game returns. *)
Theorem hold_banks_turn_total (g : PigGame) (w w1 : world) (player : Player)
  (turn_total : Z) :
  two_players g ->
  current g = Some player ->
  decide player turn_total w = (Ok "h", w1) ->
  let c := PigGame_step {| at_point := Rolling turn_total; the_game := g; the_world := w |} in
  at_point c = WinCheck turn_total
  /\ current (the_game c) = Some (add_score player turn_total)
  /\ score (add_score player turn_total) = score player + turn_total
  /\ opponent (the_game c) = opponent g
  /\ current_player (the_game c) = current_player g
  /\ the_world c = print (Holds (name player) turn_total (score player + turn_total)) w1
  /\ (score player + turn_total < 100 ->
        at_point (PigGame_step c) = TurnStart
        /\ at_point (run PigGame_step 2 c) = Rolling 0
        /\ current (the_game (run PigGame_step 2 c)) = opponent g
        /\ opponent (the_game (run PigGame_step 2 c)) = Some (add_score player turn_total))
  /\ (100 <= score player + turn_total -> at_point (PigGame_step c) = Returned)
  /\ (forall (g' : PigGame) (w' : world), two_players g' ->
        at_point (PigGame_step {| at_point := TurnStart; the_game := g'; the_world := w' |})
        = Rolling 0)
  /\ (forall (start : float) (w0 : world),
        time_is_up start (fst (time_time w0)) = false -> snd (time_time w0) = w ->
        TimedGameProxy_step start
          {| at_point := Rolling turn_total; the_game := g; the_world := w0 |} = c).
Proof.
  intros Hg Hc Hd c.
  assert (Hstep : c = roll_or_hold g w turn_total) by reflexivity.
  rewrite (roll_or_hold_hold g w w1 player turn_total Hc Hd) in Hstep.
  destruct (two_players_add_score g player turn_total Hg Hc) as [Hg' [Hc' Ho']].
  assert (Htimed : forall (start : float) (w0 : world),
             time_is_up start (fst (time_time w0)) = false -> snd (time_time w0) = w ->
             TimedGameProxy_step start
               {| at_point := Rolling turn_total; the_game := g; the_world := w0 |} = c).
  { intros start w0 Hup Hw. rewrite TimedGameProxy_step_in_time by exact Hup.
    change (PigGame_step {| at_point := Rolling turn_total; the_game := g;
                            the_world := snd (time_time w0) |} = c).
    rewrite Hw. reflexivity. }
  clearbody c. subst c. simpl.
  split; [reflexivity|]. split; [exact Hc'|]. split; [reflexivity|].
  split; [exact Ho'|]. split; [reflexivity|]. split; [reflexivity|].
  split; [|split; [|split]].
  - intros Hlt.
    destruct (win_check_cases (after_add_score g player turn_total)
                (print (Holds (name player) turn_total (score player + turn_total)) w1)
                _ Hc') as [[Hge _] | [_ Hw]]; [simpl in Hge; lia|].
    assert (Hs1 : PigGame_step
                    {| at_point := WinCheck turn_total;
                       the_game := after_add_score g player turn_total;
                       the_world := print (Holds (name player) turn_total
                                             (score player + turn_total)) w1 |}
                  = {| at_point := TurnStart;
                       the_game := switch_turn (after_add_score g player turn_total);
                       the_world := print (Holds (name player) turn_total
                                             (score player + turn_total)) w1 |})
      by exact Hw.
    destruct (two_players_switch _ Hg') as [Hg2 [Hc2 Ho2]].
    destruct (two_players_current g Hg) as [p0 [q0 [Hp0 [Hq0 _]]]].
    assert (Hcs : current (switch_turn (after_add_score g player turn_total)) = Some q0)
      by (rewrite Hc2, Ho'; exact Hq0).
    rewrite Hs1.
    change (PigGame_step
              {| at_point := TurnStart;
                 the_game := switch_turn (after_add_score g player turn_total);
                 the_world := print (Holds (name player) turn_total
                                       (score player + turn_total)) w1 |})
      with (turn_start (switch_turn (after_add_score g player turn_total))
              (print (Holds (name player) turn_total (score player + turn_total)) w1)).
    rewrite (turn_start_eq _ _ q0 Hcs). simpl.
    rewrite Hcs, Ho2, Hc', Hq0. auto.
  - intros Hge.
    destruct (win_check_cases (after_add_score g player turn_total)
                (print (Holds (name player) turn_total (score player + turn_total)) w1)
                _ Hc') as [[_ Hw] | [Hlt _]]; [|simpl in Hlt; lia].
    change (at_point (win_check (after_add_score g player turn_total)
                        (print (Holds (name player) turn_total
                                  (score player + turn_total)) w1)) = Returned).
    rewrite Hw. reflexivity.
  - intros g' w' Hg2. destruct (two_players_current g' Hg2) as [p0 [q0 [Hp0 _]]].
    unfold PigGame_step. simpl. rewrite (turn_start_eq _ _ p0 Hp0). reflexivity.
  - exact Htimed.
Qed.

End Bodies.

(** ** Outcomes of a pass through the inner loop *)

Section Outcomes.

Context {R : RandomModule}.

Lemma Die_roll_spec (w : world) :
  fst (Die_roll w) = fst (random_randint_1_6 (random_state w))
  /\ stdout (snd (Die_roll w)) = stdout w
  /\ stdin (snd (Die_roll w)) = stdin w
  /\ random_state (snd (Die_roll w)) = snd (random_randint_1_6 (random_state w))
  /\ clock (snd (Die_roll w)) = clock w
  /\ clock_reads (snd (Die_roll w)) = clock_reads w.
Proof.
  unfold Die_roll. destruct (random_randint_1_6 (random_state w)). simpl. auto 6.
Qed.

(** The four ways a pass through the body of the inner loop can end: the
    input runs out, the die shows 1, the die shows another face, or the
    player holds. In each case the output grows by lines that declare no
    winner. *)
Lemma roll_or_hold_outcome (g : PigGame) (w : world) (turn_total : Z) (p : Player) :
  current g = Some p ->
  let c := roll_or_hold g w turn_total in
  (exists extra, stdout (the_world c) = stdout w ++ extra /\ winners extra = [])
  /\ ((at_point c = Raised EOFError /\ the_game c = g)
      \/ (at_point c = WinCheck 0 /\ the_game c = g)
      \/ (exists r, r = fst (random_randint_1_6 (random_state w)) /\ r <> 1
                    /\ at_point c = Rolling (turn_total + r) /\ the_game c = g)
      \/ (at_point c = WinCheck turn_total
          /\ the_game c = after_add_score g p turn_total
          /\ exists out, stdout (the_world c)
                         = out ++ [Holds (name p) turn_total (score p + turn_total)])).
Proof.
  intros Hc c. subst c.
  pose proof (decide_spec p turn_total w) as Hd.
  destruct (decide p turn_total w) as [r w1] eqn:Ed.
  destruct Hd as [Hr [Hrs [_ [_ [_ [extra [Hout [Hwin _]]]]]]]].
  destruct Hr as [-> | [-> | ->]].
  - destruct (Die_roll w1) as [r w2] eqn:Er.
    pose proof (Die_roll_spec w1) as Hs. rewrite Er in Hs. simpl in Hs.
    destruct Hs as [Hface [Hso _]].
    rewrite (roll_or_hold_roll g w w1 w2 p turn_total r Hc Ed Er).
    destruct (Z.eqb_spec r 1) as [-> | Hne]; simpl.
    + split; [|auto].
      exists (extra ++ [Rolled (name p) 1; Bust]).
      rewrite Hso, Hout, winners_app, Hwin, <- !app_assoc. auto.
    + split.
      * exists (extra ++ [Rolled (name p) r;
                         TurnTotal (turn_total + r) (score p + (turn_total + r))]).
        rewrite Hso, Hout, winners_app, Hwin, <- !app_assoc. auto.
      * right. right. left. exists r. split; [rewrite <- Hrs; exact Hface | auto].
  - rewrite (roll_or_hold_hold g w w1 p turn_total Hc Ed). simpl. split.
    + exists (extra ++ [Holds (name p) turn_total (score p + turn_total)]).
      rewrite Hout, winners_app, Hwin, <- !app_assoc. auto.
    + right. right. right. split; [reflexivity|]. split; [reflexivity|]. eauto.
  - rewrite (roll_or_hold_raise g w w1 p turn_total EOFError Hc Ed). simpl. split.
    + exists extra. auto.
    + auto.
Qed.

Lemma players_after_add_score (g : PigGame) (p q : Player) (points : Z) :
  two_players g -> current g = Some p -> opponent g = Some q ->
  (players g = [p; q] /\ players (after_add_score g p points) = [add_score p points; q])
  \/ (players g = [q; p] /\ players (after_add_score g p points) = [q; add_score p points]).
Proof.
  intros Hg Hp Hq.
  destruct (two_players_current g Hg) as [p' [q' [Hp' [Hq' H]]]].
  assert (p' = p) by congruence. assert (q' = q) by congruence. subst.
  unfold after_add_score. simpl.
  destruct H as [[-> ->] | [-> ->]]; [left | right]; split; reflexivity.
Qed.

(** *** The untimed loop ends at 100 *)

Lemma play_invariant_step (declared : list string) (c : config) :
  play_invariant declared c -> play_invariant declared (PigGame_step c).
Proof.
  intros [Hg [[a [b [Hab [Ha Hb]]]] [p [q [Hp [Hq [Hq100 Hat]]]]]]].
  destruct c as [pt g w]. simpl in *. unfold PigGame_step. simpl.
  destruct pt as [|turn_total|turn_total| |e].
  - rewrite (turn_start_eq g w p Hp). unfold play_invariant. simpl.
    split; [exact Hg|]. split; [eauto|]. exists p, q.
    rewrite winners_app. simpl. rewrite app_nil_r. tauto.
  - destruct (roll_or_hold_outcome g w turn_total p Hp) as [[extra [Hout Hwin]] Hcase].
    destruct Hat as [Hp100 Hdecl].
    assert (Hw : winners (stdout (the_world (roll_or_hold g w turn_total))) = declared)
      by (rewrite Hout, winners_app, Hwin, app_nil_r; exact Hdecl).
    unfold play_invariant.
    destruct Hcase as [[Hpt Hgame] | [[Hpt Hgame] | [[r [_ [_ [Hpt Hgame]]]] | [Hpt [Hgame _]]]]];
      rewrite Hpt, Hgame.
    + split; [exact Hg|]. split; [eauto|]. exists p, q. auto 10.
    + split; [exact Hg|]. split; [eauto|]. exists p, q. auto 10.
    + split; [exact Hg|]. split; [eauto|]. exists p, q. auto 10.
    + destruct (two_players_add_score g p turn_total Hg Hp) as [Hg' [Hp' Hq']].
      split; [exact Hg'|]. split.
      * destruct (players_after_add_score g p q turn_total Hg Hp Hq) as [[H1 H2] | [H1 H2]];
          rewrite H2; rewrite H1 in Hab; injection Hab as <- <-; eauto.
      * exists (add_score p turn_total), q. rewrite Hq'. auto 10.
  - destruct (win_check_cases g w p Hp) as [[Hge ->] | [Hlt ->]]; unfold play_invariant; simpl.
    + split; [exact Hg|]. split; [eauto|]. exists p, q.
      rewrite winners_app. simpl. rewrite Hat. auto 10.
    + destruct (two_players_switch g Hg) as [Hg' [Hp' Hq']].
      split; [exact Hg'|]. split; [eauto|]. exists q, p. rewrite Hp', Hq'. auto 10.
  - unfold play_invariant. simpl. split; [exact Hg|]. split; [eauto|]. exists p, q. auto 10.
  - unfold play_invariant. simpl. split; [exact Hg|]. split; [eauto|]. exists p, q. auto 10.
Qed.

Lemma play_invariant_run (declared : list string) (n : nat) (c : config) :
  play_invariant declared c -> play_invariant declared (run PigGame_step n c).
Proof.
  revert c. induction n as [|n IH]; intros c H; simpl; [exact H|].
  apply IH, play_invariant_step, H.
Qed.

Lemma PigGame_init_ok (player1_type player2_type : string) (w w1 : world) (g : PigGame) :
  PigGame_init player1_type player2_type w = (Ok g, w1) ->
  exists k1 k2,
    g = {| die := DieObject;
           players := [Player_init k1 "Player 1"; Player_init k2 "Player 2"];
           current_player := 0 |}
    /\ create_player player1_type "Player 1" = Ok (Player_init k1 "Player 1")
    /\ create_player player2_type "Player 2" = Ok (Player_init k2 "Player 2")
    /\ stdout w1 = stdout w /\ stdin w1 = stdin w
    /\ random_state w1 = random_seed 0
    /\ clock w1 = clock w /\ clock_reads w1 = clock_reads w.
Proof.
  unfold PigGame_init, Die_init.
  destruct (create_player_cases player1_type "Player 1") as [E1 | [E1 | E1]];
    rewrite E1; try discriminate;
    (destruct (create_player_cases player2_type "Player 2") as [E2 | [E2 | E2]];
     rewrite E2; try discriminate);
    intros H; injection H as <- <-; simpl; eexists; eexists; repeat split.
Qed.

Lemma play_invariant_start (player1_type player2_type : string) (w w1 : world) (g : PigGame) :
  PigGame_init player1_type player2_type w = (Ok g, w1) ->
  play_invariant (winners (stdout w1))
    {| at_point := TurnStart; the_game := g; the_world := print Welcome w1 |}.
Proof.
  intros H. destruct (PigGame_init_ok _ _ _ _ _ H) as [k1 [k2 [-> _]]].
  unfold play_invariant, two_players. simpl.
  split; [split; [eauto | auto]|]. split; [eauto|].
  eexists; eexists. split; [reflexivity|]. split; [reflexivity|].
  simpl. rewrite winners_app. simpl. rewrite app_nil_r. repeat split; lia.
Qed.

End Outcomes.

Section UntimedGame.

Context {R : RandomModule}.

(** C1. In a game built by [PigGame] and played by [PigGame.play], at every
    moment: the opponent of the player to move is below 100; the game has
    returned only if the player to move has reached 100, and then exactly
    that player has been declared winner and nothing happens any more;
    while the game has not returned nobody has been declared, and a player
    at 100 or more is found only at the winner test; as soon as the player
    to move has 100 the next transition returns; at the winner test, a score
    of 100 or more ends the game with the winner line for that player and a
    lower score hands the turn to the opponent. *)
Theorem play_ends_at_100 (player1_type player2_type : string) (w w1 : world)
  (g : PigGame) (n : nat) :
  PigGame_init player1_type player2_type w = (Ok g, w1) ->
  let c := PigGame_play n g w1 in
  exists p q,
    current (the_game c) = Some p /\ opponent (the_game c) = Some q
    /\ name p <> name q
    /\ score q < 100
    /\ (at_point c = Returned ->
          100 <= score p
          /\ winners (stdout (the_world c)) = winners (stdout w1) ++ [name p]
          /\ PigGame_step c = c)
    /\ (at_point c <> Returned ->
          winners (stdout (the_world c)) = winners (stdout w1)
          /\ (score p < 100 \/ exists turn_total, at_point c = WinCheck turn_total))
    /\ (100 <= score p -> at_point (PigGame_step c) = Returned)
    /\ (forall turn_total, at_point c = WinCheck turn_total ->
          (100 <= score p ->
             PigGame_step c
             = {| at_point := Returned; the_game := the_game c;
                  the_world := print (Wins (name p) (score p)) (the_world c) |})
          /\ (score p < 100 ->
                PigGame_step c
                = {| at_point := TurnStart; the_game := switch_turn (the_game c);
                     the_world := the_world c |}
                /\ current (switch_turn (the_game c)) = Some q)).
Proof.
  intros Hinit c.
  pose proof (play_invariant_run (winners (stdout w1)) n _
                (play_invariant_start _ _ _ _ _ Hinit)) as Hinv.
  change (play_invariant (winners (stdout w1)) c) in Hinv.
  clearbody c.
  destruct Hinv as [Hg [[a [b [Hab [Ha Hb]]]] [p [q [Hp [Hq [Hq100 Hat]]]]]]].
  exists p, q.
  split; [exact Hp|]. split; [exact Hq|].
  split.
  { destruct (two_players_current _ Hg) as [p' [q' [Hp' [Hq' H]]]].
    assert (p' = p) by congruence. assert (q' = q) by congruence. subst p' q'.
    destruct H as [[H _] | [H _]]; rewrite H in Hab; injection Hab as <- <-;
      rewrite Ha, Hb; discriminate. }
  split; [exact Hq100|].
  destruct c as [pt g' w']. simpl in *.
  assert (Hwc : forall turn_total, pt = WinCheck turn_total ->
            (100 <= score p ->
               PigGame_step {| at_point := pt; the_game := g'; the_world := w' |}
               = {| at_point := Returned; the_game := g';
                    the_world := print (Wins (name p) (score p)) w' |})
            /\ (score p < 100 ->
                  PigGame_step {| at_point := pt; the_game := g'; the_world := w' |}
                  = {| at_point := TurnStart; the_game := switch_turn g';
                       the_world := w' |}
                  /\ current (switch_turn g') = Some q)).
  { intros turn_total ->. unfold PigGame_step. simpl.
    destruct (win_check_cases g' w' p Hp) as [[Hge ->] | [Hlt ->]].
    - split; [reflexivity | lia].
    - split; [lia|]. intros _. split; [reflexivity | exact Hq]. }
  split; [|split; [|split]].
  - intros ->. destruct Hat as [H1 H2]. auto.
  - intros Hne. destruct pt as [|turn_total|turn_total| |e].
    + tauto.
    + tauto.
    + eauto.
    + congruence.
    + tauto.
  - intros Hge. destruct pt as [|turn_total|turn_total| |e].
    + lia.
    + lia.
    + destruct (Hwc turn_total eq_refl) as [H _]. rewrite (H Hge). reflexivity.
    + reflexivity.
    + lia.
  - exact Hwc.
Qed.

End UntimedGame.

(** ** Scores only grow *)

Lemma scores_le_refl (ps : list Player) : scores_le ps ps.
Proof.
  unfold scores_le. induction ps; constructor; auto. repeat split; lia.
Qed.

Lemma scores_le_trans (ps qs rs : list Player) :
  scores_le ps qs -> scores_le qs rs -> scores_le ps rs.
Proof.
  unfold scores_le. intros H. revert rs.
  induction H as [|p q ps qs [H1 [H2 H3]] _ IH]; intros rs Hr;
    inversion Hr as [|q' r qs' rs' Hqr Hrest]; subst.
  - constructor.
  - simpl in Hqr. destruct Hqr as [H4 [H5 H6]].
    constructor; [|auto]. repeat split; [congruence | congruence | lia].
Qed.

Lemma run_S {R : RandomModule} (step : config -> config) (n : nat) (c : config) :
  run step (S n) c = step (run step n c).
Proof.
  revert c. induction n as [|n IH]; intros c; [reflexivity|].
  change (run step (S (S n)) c) with (run step (S n) (step c)). rewrite IH. reflexivity.
Qed.

Lemma run_add {R : RandomModule} (step : config -> config) (n k : nat) (c : config) :
  run step (n + k) c = run step k (run step n c).
Proof.
  revert c. induction n as [|n IH]; intros c; [reflexivity|]. simpl. apply IH.
Qed.

Section Scores.

Context {R : RandomModule} {RR : RandintInRange R}.

Lemma scores_invariant_PigGame_step (c : config) :
  scores_invariant c ->
  scores_invariant (PigGame_step c)
  /\ scores_le (players (the_game c)) (players (the_game (PigGame_step c)))
  /\ only_by_hold c (PigGame_step c).
Proof.
  intros [Hg [Hnn Htt]].
  destruct (two_players_current _ Hg) as [p [q [Hp [Hq Hpq]]]].
  destruct c as [pt g w]. simpl in *. unfold PigGame_step, only_by_hold. simpl.
  destruct pt as [|turn_total|turn_total| |e].
  - rewrite (turn_start_eq g w p Hp). unfold scores_invariant. simpl.
    split; [split; [exact Hg | split; [exact Hnn | lia]]|].
    split; [apply scores_le_refl | auto].
  - destruct (roll_or_hold_outcome g w turn_total p Hp) as [_ Hcase].
    unfold scores_invariant.
    destruct Hcase as [[Hpt Hgame] | [[Hpt Hgame] | [[r [Hr [_ [Hpt Hgame]]]] | [Hpt [Hgame Hout]]]]];
      rewrite Hpt, Hgame.
    + split; [auto|]. split; [apply scores_le_refl | auto].
    + split; [split; [exact Hg | split; [exact Hnn | lia]]|].
      split; [apply scores_le_refl | auto].
    + pose proof (randint_in_range (random_state w)) as Hrange. rewrite <- Hr in Hrange.
      split; [split; [exact Hg | split; [exact Hnn | lia]]|].
      split; [apply scores_le_refl | auto].
    + destruct (two_players_add_score g p turn_total Hg Hp) as [Hg' _].
      assert (Hps : Forall (fun x => 0 <= score x) (players (after_add_score g p turn_total))
                    /\ scores_le (players g) (players (after_add_score g p turn_total))).
      { destruct (players_after_add_score g p q turn_total Hg Hp Hq) as [[H1 H2] | [H1 H2]];
          rewrite H2; rewrite H1 in *; inversion Hnn as [|? ? Hx Hrest]; subst;
          inversion Hrest as [|? ? Hy _]; subst; unfold scores_le; simpl in *;
          (split; [repeat constructor; simpl; lia | repeat constructor; simpl; lia]). }
      split; [split; [exact Hg' | split; [apply Hps | exact Htt]]|].
      split; [apply Hps|]. right. exists turn_total, p. auto 10.
  - destruct (win_check_cases g w p Hp) as [[Hge ->] | [Hlt ->]]; unfold scores_invariant; simpl.
    + split; [auto|]. split; [apply scores_le_refl | auto].
    + destruct (two_players_switch g Hg) as [Hg' _].
      split; [auto|]. split; [apply scores_le_refl | auto].
  - split; [unfold scores_invariant; auto|]. split; [apply scores_le_refl | auto].
  - split; [unfold scores_invariant; auto|]. split; [apply scores_le_refl | auto].
Qed.

Lemma determine_winner_eq (g : PigGame) (w : world) (p1 p2 : Player) :
  players g = [p1; p2] ->
  determine_winner g w
  = {| at_point := Returned; the_game := g; the_world := print (verdict p1 p2) w |}.
Proof.
  intros H. unfold determine_winner, verdict. rewrite H.
  destruct (score p1 >? score p2); [reflexivity|].
  destruct (score p2 >? score p1); reflexivity.
Qed.

Lemma scores_invariant_TimedGameProxy_step (start : float) (c : config) :
  scores_invariant c ->
  scores_invariant (TimedGameProxy_step start c)
  /\ scores_le (players (the_game c)) (players (the_game (TimedGameProxy_step start c)))
  /\ only_by_hold c (TimedGameProxy_step start c).
Proof.
  intros Hinv.
  destruct (time_is_up start (fst (time_time (the_world c)))) eqn:Hup.
  - destruct Hinv as [Hg [Hnn Htt]].
    destruct Hg as [[p1 [p2 Hps]] Hcp].
    assert (Hsame : forall w', 
               scores_invariant
                 {| at_point := Returned; the_game := the_game c; the_world := w' |}).
    { intros w'. unfold scores_invariant, two_players. simpl. eauto 6. }
    destruct c as [pt g w]. unfold TimedGameProxy_step, only_by_hold. simpl in *.
    destruct pt as [|turn_total|turn_total| |e].
    + rewrite Hup, (determine_winner_eq g _ p1 p2 Hps). simpl.
      split; [apply Hsame|]. split; [apply scores_le_refl | auto].
    + rewrite Hup, (determine_winner_eq g _ p1 p2 Hps). simpl.
      split; [apply Hsame|]. split; [apply scores_le_refl | auto].
    + apply (scores_invariant_PigGame_step
               {| at_point := WinCheck turn_total; the_game := g; the_world := w |}).
      unfold scores_invariant, two_players. simpl. eauto 6.
    + split; [apply Hsame|]. split; [apply scores_le_refl | auto].
    + split; [|split; [apply scores_le_refl | auto]].
      unfold scores_invariant, two_players. simpl. eauto 6.
  - rewrite (TimedGameProxy_step_in_time start c Hup).
    apply (scores_invariant_PigGame_step
             {| at_point := at_point c; the_game := the_game c;
                the_world := match at_point c with
                             | TurnStart | Rolling _ => snd (time_time (the_world c))
                             | _ => the_world c
                             end |}).
    exact Hinv.
Qed.

Lemma score_discipline_run (step : config -> config) (c0 : config) :
  (forall c, scores_invariant c ->
             scores_invariant (step c)
             /\ scores_le (players (the_game c)) (players (the_game (step c)))
             /\ only_by_hold c (step c)) ->
  scores_invariant c0 ->
  score_discipline (fun n => run step n c0).
Proof.
  intros Hstep H0.
  assert (Hinv : forall n, scores_invariant (run step n c0)).
  { induction n as [|n IH]; [exact H0|]. rewrite run_S. apply Hstep, IH. }
  intros n m Hnm.
  split; [apply Hinv|]. split.
  - replace m with (n + (m - n))%nat by lia. rewrite run_add.
    generalize (Hinv n). generalize (run step n c0). generalize (m - n)%nat.
    clear - Hstep. induction n as [|k IH]; intros c Hc; simpl.
    + apply scores_le_refl.
    + destruct (Hstep c Hc) as [H1 [H2 _]].
      eapply scores_le_trans; [exact H2 | apply IH, H1].
  - rewrite run_S. apply Hstep, Hinv.
Qed.

Lemma TimedGameProxy_init_ok (player1_type player2_type : string) (w w2 : world)
  (t : TimedGameProxy) :
  TimedGameProxy_init player1_type player2_type w = (Ok t, w2) ->
  exists w1, PigGame_init player1_type player2_type w = (Ok (game t), w1)
             /\ start_time t = clock w1 (clock_reads w1)
             /\ stdout w2 = stdout w1 /\ stdin w2 = stdin w1
             /\ random_state w2 = random_state w1
             /\ clock w2 = clock w1 /\ clock_reads w2 = S (clock_reads w1).
Proof.
  unfold TimedGameProxy_init.
  destruct (PigGame_init player1_type player2_type w) as [[g | e] w1]; [|discriminate].
  simpl. intros H. injection H as <- <-. exists w1. simpl. auto 10.
Qed.

(** C7. In a game built by [PigGame] or by [TimedGameProxy]: every score
    starts at 0; whatever the number of transitions of [PigGame.play] or of
    [TimedGameProxy.play], no score is negative, no score is lower than at
    an earlier moment, and from one moment to the next the players change
    only when the player to move holds and is credited with the turn
    total. *)
Theorem scores_start_at_0_and_only_grow (player1_type player2_type : string)
  (w w1 : world) (g : PigGame)
  (player1_type' player2_type' : string) (w' w2 : world) (t : TimedGameProxy) :
  PigGame_init player1_type player2_type w = (Ok g, w1) ->
  TimedGameProxy_init player1_type' player2_type' w' = (Ok t, w2) ->
  Forall (fun p => score p = 0) (players g)
  /\ Forall (fun p => score p = 0) (players (game t))
  /\ score_discipline (fun n => PigGame_play n g w1)
  /\ score_discipline (fun n => TimedGameProxy_play n t w2).
Proof.
  intros Hg Ht.
  destruct (TimedGameProxy_init_ok _ _ _ _ _ Ht) as [w1' [Hg' _]].
  destruct (PigGame_init_ok _ _ _ _ _ Hg) as [k1 [k2 [Eg _]]].
  destruct (PigGame_init_ok _ _ _ _ _ Hg') as [k1' [k2' [Eg' _]]].
  assert (Hstart : forall (g0 : PigGame) k k0 (w0 : world),
             g0 = {| die := DieObject;
                     players := [Player_init k "Player 1"; Player_init k0 "Player 2"];
                     current_player := 0 |} ->
             scores_invariant {| at_point := TurnStart; the_game := g0; the_world := w0 |}).
  { intros g0 k k0 w0 ->. unfold scores_invariant, two_players. simpl.
    split; [split; [eauto | auto]|]. split; [|exact I].
    repeat constructor; simpl; lia. }
  split; [rewrite Eg; repeat constructor|].
  split; [rewrite Eg'; repeat constructor|].
  split.
  - apply (score_discipline_run PigGame_step); [apply scores_invariant_PigGame_step|].
    apply (Hstart g k1 k2 _ Eg).
  - apply (score_discipline_run (TimedGameProxy_step (start_time t)));
      [apply scores_invariant_TimedGameProxy_step|].
    apply (Hstart (game t) k1' k2' _ Eg').
Qed.

End Scores.

(** ** The deadline of the timed game *)

Section TimedGame.

Context {R : RandomModule}.

Lemma two_players_PigGame_step (c : config) :
  two_players (the_game c) -> two_players (the_game (PigGame_step c)).
Proof.
  intros Hg. destruct (two_players_current _ Hg) as [p [q [Hp [Hq _]]]].
  destruct c as [pt g w]. simpl in *. unfold PigGame_step. simpl.
  destruct pt as [|turn_total|turn_total| |e]; try exact Hg.
  - rewrite (turn_start_eq g w p Hp). exact Hg.
  - destruct (roll_or_hold_outcome g w turn_total p Hp) as [_ Hcase].
    destruct Hcase as [[_ Hgame] | [[_ Hgame] | [[r [_ [_ [_ Hgame]]]] | [_ [Hgame _]]]]];
      rewrite Hgame; try exact Hg.
    apply (two_players_add_score g p turn_total Hg Hp).
  - destruct (win_check_cases g w p Hp) as [[_ ->] | [_ ->]]; [exact Hg|].
    apply (two_players_switch g Hg).
Qed.

Lemma two_players_TimedGameProxy_step (start : float) (c : config) :
  two_players (the_game c) -> two_players (the_game (TimedGameProxy_step start c)).
Proof.
  intros Hg.
  destruct (time_is_up start (fst (time_time (the_world c)))) eqn:Hup.
  - destruct c as [pt g w]. unfold TimedGameProxy_step. simpl in *.
    destruct Hg as [[p1 [p2 Hps]] Hcp].
    destruct pt as [|turn_total|turn_total| |e].
    + rewrite Hup, (determine_winner_eq g _ p1 p2 Hps). simpl. split; eauto.
    + rewrite Hup, (determine_winner_eq g _ p1 p2 Hps). simpl. split; eauto.
    + apply (two_players_PigGame_step
               {| at_point := WinCheck turn_total; the_game := g; the_world := w |}).
      split; eauto.
    + split; eauto.
    + split; eauto.
  - rewrite (TimedGameProxy_step_in_time start c Hup).
    apply (two_players_PigGame_step
             {| at_point := at_point c; the_game := the_game c;
                the_world := match at_point c with
                             | TurnStart | Rolling _ => snd (time_time (the_world c))
                             | _ => the_world c
                             end |}).
    exact Hg.
Qed.

Lemma run_Returned (step : config -> config) (k : nat) (c : config) :
  step c = c -> run step k c = c.
Proof.
  intros H. induction k as [|k IH]; [reflexivity|]. simpl. rewrite H. exact IH.
Qed.

Lemma verdict_cases (p1 p2 : Player) :
  (score p2 < score p1 -> verdict p1 p2 = WinsWithPoints (name p1) (score p1))
  /\ (score p1 < score p2 -> verdict p1 p2 = WinsWithPoints (name p2) (score p2))
  /\ (score p1 = score p2 -> verdict p1 p2 = Tie).
Proof.
  unfold verdict.
  destruct (Z.gtb_spec (score p1) (score p2)); destruct (Z.gtb_spec (score p2) (score p1));
    repeat split; intros; solve [reflexivity | lia].
Qed.

(** C5. In a game built by [TimedGameProxy] and played by its [play]:
    [start_time] is the clock reading taken by the constructor; at every
    moment there are two players [p1] and [p2]; and whenever the loop stands
    at the start of a turn or before a roll-or-hold decision it first takes
    a new clock reading [now]. If [now - start_time >= 60], the next
    configuration is the return of [play]: the game objects are as they
    were (the turn total in progress is credited to nobody), the line
    announcing the end of time is followed by the verdict on the two scores,
    and nothing happens afterwards. If not, the loop continues as the
    untimed loop does. The verdict names the player with the strictly higher
    score, and is a tie when the scores are equal. *)
Theorem deadline_ends_timed_game (player1_type player2_type : string) (w w2 : world)
  (t : TimedGameProxy) (n : nat) :
  TimedGameProxy_init player1_type player2_type w = (Ok t, w2) ->
  let c := TimedGameProxy_play n t w2 in
  let now := clock (the_world c) (clock_reads (the_world c)) in
  let after_reading := snd (time_time (the_world c)) in
  exists p1 p2,
    players (the_game c) = [p1; p2]
    /\ start_time t = clock w (clock_reads w)
    /\ clock_reads after_reading = S (clock_reads (the_world c))
    /\ (at_point c = TurnStart ->
          PrimFloat.leb 60 (PrimFloat.sub now (start_time t)) = true ->
          TimedGameProxy_play (S n) t w2
          = {| at_point := Returned; the_game := the_game c;
               the_world := print (verdict p1 p2) (print TimeUp after_reading) |}
          /\ forall k, TimedGameProxy_play (S n + k) t w2 = TimedGameProxy_play (S n) t w2)
    /\ (forall turn_total, at_point c = Rolling turn_total ->
          PrimFloat.leb 60 (PrimFloat.sub now (start_time t)) = true ->
          TimedGameProxy_play (S n) t w2
          = {| at_point := Returned; the_game := the_game c;
               the_world := print (verdict p1 p2) (print TimeUpDuringTurn after_reading) |}
          /\ forall k, TimedGameProxy_play (S n + k) t w2 = TimedGameProxy_play (S n) t w2)
    /\ (PrimFloat.leb 60 (PrimFloat.sub now (start_time t)) = false ->
          (at_point c = TurnStart \/ exists turn_total, at_point c = Rolling turn_total) ->
          TimedGameProxy_play (S n) t w2
          = PigGame_step {| at_point := at_point c; the_game := the_game c;
                            the_world := after_reading |})
    /\ (score p2 < score p1 -> verdict p1 p2 = WinsWithPoints (name p1) (score p1))
    /\ (score p1 < score p2 -> verdict p1 p2 = WinsWithPoints (name p2) (score p2))
    /\ (score p1 = score p2 -> verdict p1 p2 = Tie).
Proof.
  intros Hinit c now after_reading.
  destruct (TimedGameProxy_init_ok _ _ _ _ _ Hinit) as [w1 [Hg [Hstart0 _]]].
  destruct (PigGame_init_ok _ _ _ _ _ Hg) as [k1 [k2 [Eg [_ [_ [_ [_ [_ [Hck Hcr]]]]]]]]].
  assert (Hstart : start_time t = clock w (clock_reads w))
    by (rewrite Hstart0, Hck, Hcr; reflexivity).
  assert (Hinv : two_players (the_game c)).
  { subst c. unfold TimedGameProxy_play.
    generalize (print TimedStart w2). intros w0.
    assert (H0 : two_players
                   (the_game {| at_point := TurnStart; the_game := game t;
                                the_world := w0 |})).
    { simpl. rewrite Eg. split; simpl; eauto. }
    revert H0. generalize {| at_point := TurnStart; the_game := game t; the_world := w0 |}.
    induction n as [|n IH]; intros c0 H0; [exact H0|].
    simpl. apply IH, two_players_TimedGameProxy_step, H0. }
  assert (Hnext : TimedGameProxy_play (S n) t w2 = TimedGameProxy_step (start_time t) c).
  { unfold TimedGameProxy_play. rewrite run_S. reflexivity. }
  assert (Hstay : forall k c', TimedGameProxy_play (S n) t w2 = c' -> at_point c' = Returned ->
                    TimedGameProxy_play (S n + k) t w2 = TimedGameProxy_play (S n) t w2).
  { intros k c' Hc' Hret. unfold TimedGameProxy_play in *. rewrite run_add, Hc'.
    apply run_Returned. destruct c' as [pt g' w']. simpl in Hret. subst pt. reflexivity. }
  destruct Hinv as [[p1 [p2 Hps]] _]. exists p1, p2.
  split; [exact Hps|]. split; [exact Hstart|]. split; [reflexivity|].
  clear Hstart.
  rewrite Hnext in *. clearbody c. destruct c as [pt g' w']. simpl in *.
  subst now after_reading. simpl.
  split; [|split; [|split]].
  - intros -> Hup.
    assert (E : TimedGameProxy_step (start_time t)
                  {| at_point := TurnStart; the_game := g'; the_world := w' |}
                = {| at_point := Returned; the_game := g';
                     the_world := print (verdict p1 p2)
                                    (print TimeUp (snd (time_time w'))) |}).
    { unfold TimedGameProxy_step, time_is_up. simpl. rewrite Hup.
      apply (determine_winner_eq g' _ p1 p2 Hps). }
    split; [exact E|]. intros k. apply (Hstay k _ E). reflexivity.
  - intros turn_total -> Hup.
    assert (E : TimedGameProxy_step (start_time t)
                  {| at_point := Rolling turn_total; the_game := g'; the_world := w' |}
                = {| at_point := Returned; the_game := g';
                     the_world := print (verdict p1 p2)
                                    (print TimeUpDuringTurn (snd (time_time w'))) |}).
    { unfold TimedGameProxy_step, time_is_up. simpl. rewrite Hup.
      apply (determine_winner_eq g' _ p1 p2 Hps). }
    split; [exact E|]. intros k. apply (Hstay k _ E). reflexivity.
  - intros Hup Hpt.
    rewrite (TimedGameProxy_step_in_time (start_time t)
               {| at_point := pt; the_game := g'; the_world := w' |} Hup).
    destruct Hpt as [-> | [turn_total ->]]; reflexivity.
  - apply verdict_cases.
Qed.

End TimedGame.

(** ** Games between computers repeat themselves *)

Section Determinism.

Context {R : RandomModule}.

Lemma world_agree_print (timed : bool) (W1 W2 w1 w2 : world) (o : output) :
  world_agree timed W1 W2 w1 w2 -> world_agree timed W1 W2 (print o w1) (print o w2).
Proof.
  intros [Hrs [[out [H1 H2]] Hclock]]. unfold world_agree. simpl.
  split; [exact Hrs|]. split; [|exact Hclock].
  exists (out ++ [o]). rewrite H1, H2, <- !app_assoc. auto.
Qed.

Lemma world_agree_Die_roll (timed : bool) (W1 W2 w1 w2 : world) :
  world_agree timed W1 W2 w1 w2 ->
  fst (Die_roll w1) = fst (Die_roll w2)
  /\ world_agree timed W1 W2 (snd (Die_roll w1)) (snd (Die_roll w2)).
Proof.
  intros [Hrs [Hout Hclock]]. unfold Die_roll. rewrite Hrs.
  destruct (random_randint_1_6 (random_state w2)) as [r s]. simpl.
  split; [reflexivity|]. unfold world_agree. simpl. auto.
Qed.

Lemma world_agree_time_time (W1 W2 w1 w2 : world) :
  world_agree true W1 W2 w1 w2 ->
  fst (time_time w1) = fst (time_time w2)
  /\ world_agree true W1 W2 (snd (time_time w1)) (snd (time_time w2)).
Proof.
  intros [Hrs [Hout Hclock]]. destruct (Hclock eq_refl) as [Hc Hr].
  unfold time_time, world_agree. simpl. rewrite Hc, Hr. auto.
Qed.

Lemma all_computers_current (g : PigGame) (p : Player) :
  two_players g -> all_computers g -> current g = Some p -> cls p = ComputerPlayer.
Proof.
  intros Hg Hall Hp.
  destruct (two_players_current g Hg) as [p' [q [Hp' [Hq _]]]].
  assert (p' = p) by congruence. subst p'.
  unfold all_computers in Hall. rewrite Forall_forall in Hall.
  apply Hall. apply (in_two_players g p q p Hg Hp Hq). auto.
Qed.

Lemma all_computers_add_score (g : PigGame) (p : Player) (points : Z) :
  two_players g -> all_computers g -> current g = Some p ->
  all_computers (after_add_score g p points).
Proof.
  intros Hg Hall Hp.
  destruct (two_players_current g Hg) as [p' [q [Hp' [Hq _]]]].
  assert (p' = p) by congruence. subst p'.
  unfold all_computers in *.
  destruct (players_after_add_score g p q points Hg Hp Hq) as [[H1 H2] | [H1 H2]];
    rewrite H2; rewrite H1 in Hall;
    inversion Hall as [|? ? Hx Hrest]; subst; inversion Hrest as [|? ? Hy _]; subst;
    repeat constructor; assumption.
Qed.

(** One pass through the inner loop, in two worlds that agree, for a
    computer to move. *)
Lemma same_game_roll_or_hold (timed : bool) (W1 W2 w1 w2 : world) (g : PigGame)
  (turn_total : Z) :
  two_players g -> all_computers g -> world_agree timed W1 W2 w1 w2 ->
  same_game timed W1 W2 (roll_or_hold g w1 turn_total) (roll_or_hold g w2 turn_total)
  /\ two_players (the_game (roll_or_hold g w1 turn_total))
  /\ all_computers (the_game (roll_or_hold g w1 turn_total)).
Proof.
  intros Hg Hall Hw.
  destruct (two_players_current g Hg) as [p [q [Hp [Hq _]]]].
  pose proof (all_computers_current g p Hg Hall Hp) as Hcls.
  assert (Hd : forall w : world,
             decide p turn_total w = (Ok (ComputerPlayer_decide p turn_total), w))
    by (intros w; unfold decide; rewrite Hcls; reflexivity).
  destruct (ComputerPlayer_decide_cases p turn_total) as [[_ E] | [_ E]]; rewrite E in Hd.
  - rewrite (roll_or_hold_hold g w1 w1 p turn_total Hp (Hd w1)).
    rewrite (roll_or_hold_hold g w2 w2 p turn_total Hp (Hd w2)).
    unfold same_game. simpl.
    split; [split; [reflexivity | split; [reflexivity | apply world_agree_print, Hw]]|].
    split; [apply (two_players_add_score g p turn_total Hg Hp)|].
    apply (all_computers_add_score g p turn_total Hg Hall Hp).
  - destruct (world_agree_Die_roll timed W1 W2 w1 w2 Hw) as [Hface Hw'].
    destruct (Die_roll w1) as [r w1'] eqn:E1. destruct (Die_roll w2) as [r' w2'] eqn:E2.
    simpl in Hface, Hw'. subst r'.
    rewrite (roll_or_hold_roll g w1 w1 w1' p turn_total r Hp (Hd w1) E1).
    rewrite (roll_or_hold_roll g w2 w2 w2' p turn_total r Hp (Hd w2) E2).
    unfold same_game.
    destruct (r =? 1); simpl;
      (split; [split; [reflexivity | split; [reflexivity|]] | split; assumption]);
      repeat apply world_agree_print; exact Hw'.
Qed.

Lemma same_game_PigGame_step (timed : bool) (W1 W2 : world) (c1 c2 : config) :
  two_players (the_game c1) -> all_computers (the_game c1) ->
  same_game timed W1 W2 c1 c2 ->
  same_game timed W1 W2 (PigGame_step c1) (PigGame_step c2)
  /\ two_players (the_game (PigGame_step c1))
  /\ all_computers (the_game (PigGame_step c1)).
Proof.
  intros Hg Hall [Hpt [Hgame Hw]].
  destruct c1 as [pt g w1]. destruct c2 as [pt2 g2 w2]. simpl in *. subst pt2 g2.
  destruct (two_players_current g Hg) as [p [q [Hp [Hq _]]]].
  unfold PigGame_step. simpl.
  destruct pt as [|turn_total|turn_total| |e].
  - rewrite !(turn_start_eq g _ p Hp). unfold same_game. simpl.
    split; [|auto]. split; [reflexivity|]. split; [reflexivity|].
    apply world_agree_print, Hw.
  - apply same_game_roll_or_hold; assumption.
  - destruct (win_check_cases g w1 p Hp) as [[Hge E1] | [Hlt E1]];
      destruct (win_check_cases g w2 p Hp) as [[Hge2 E2] | [Hlt2 E2]]; try lia;
      rewrite E1, E2; unfold same_game; simpl.
    + split; [|auto]. split; [reflexivity|]. split; [reflexivity|].
      apply world_agree_print, Hw.
    + split; [auto|]. split; [apply (two_players_switch g Hg) | exact Hall].
  - unfold same_game. simpl. auto.
  - unfold same_game. simpl. auto.
Qed.

Lemma same_game_TimedGameProxy_step (start : float) (W1 W2 : world) (c1 c2 : config) :
  two_players (the_game c1) -> all_computers (the_game c1) ->
  same_game true W1 W2 c1 c2 ->
  same_game true W1 W2 (TimedGameProxy_step start c1) (TimedGameProxy_step start c2)
  /\ two_players (the_game (TimedGameProxy_step start c1))
  /\ all_computers (the_game (TimedGameProxy_step start c1)).
Proof.
  intros Hg Hall [Hpt [Hgame Hw]].
  destruct (world_agree_time_time W1 W2 _ _ Hw) as [Hnow Hw'].
  destruct (time_is_up start (fst (time_time (the_world c1)))) eqn:Hup.
  - assert (Hup2 := Hup). rewrite Hnow in Hup2.
    destruct c1 as [pt g w1]. destruct c2 as [pt2 g2 w2]. simpl in *. subst pt2 g2.
    pose proof Hg as [[p1 [p2 Hps]] _].
    unfold TimedGameProxy_step. simpl.
    destruct pt as [|turn_total|turn_total| |e].
    + rewrite Hup, Hup2, !(determine_winner_eq g _ p1 p2 Hps). unfold same_game. simpl.
      split; [|auto]. split; [reflexivity|]. split; [reflexivity|].
      repeat apply world_agree_print. exact Hw'.
    + rewrite Hup, Hup2, !(determine_winner_eq g _ p1 p2 Hps). unfold same_game. simpl.
      split; [|auto]. split; [reflexivity|]. split; [reflexivity|].
      repeat apply world_agree_print. exact Hw'.
    + apply (same_game_PigGame_step true W1 W2
               {| at_point := WinCheck turn_total; the_game := g; the_world := w1 |}
               {| at_point := WinCheck turn_total; the_game := g; the_world := w2 |});
        unfold same_game; simpl; auto.
    + unfold same_game. simpl. auto.
    + unfold same_game. simpl. auto.
  - assert (Hup2 := Hup). rewrite Hnow in Hup2.
    rewrite (TimedGameProxy_step_in_time start c1 Hup).
    rewrite (TimedGameProxy_step_in_time start c2 Hup2).
    apply same_game_PigGame_step; simpl; try assumption.
    unfold same_game. simpl. rewrite <- Hpt.
    split; [reflexivity|]. split; [exact Hgame|].
    destruct (at_point c1); assumption.
Qed.

Lemma same_game_run (timed : bool) (step : config -> config) (W1 W2 : world) :
  (forall c1 c2, two_players (the_game c1) -> all_computers (the_game c1) ->
                 same_game timed W1 W2 c1 c2 ->
                 same_game timed W1 W2 (step c1) (step c2)
                 /\ two_players (the_game (step c1))
                 /\ all_computers (the_game (step c1))) ->
  forall n c1 c2, two_players (the_game c1) -> all_computers (the_game c1) ->
                  same_game timed W1 W2 c1 c2 ->
                  same_game timed W1 W2 (run step n c1) (run step n c2).
Proof.
  intros Hstep. induction n as [|n IH]; intros c1 c2 Hg Hall Hs; [exact Hs|].
  simpl. destruct (Hstep c1 c2 Hg Hall Hs) as [Hs' [Hg' Hall']]. apply IH; assumption.
Qed.

End Determinism.

Section Repeat.

Context {R : RandomModule}.

Lemma PigGame_init_seed (a b : string) (w : world) :
  random_state (snd (PigGame_init a b w)) = random_seed 0.
Proof.
  unfold PigGame_init, Die_init.
  destruct (create_player a "Player 1"); [|reflexivity].
  destruct (create_player b "Player 2"); reflexivity.
Qed.

Lemma TimedGameProxy_init_seed (a b : string) (w : world) :
  random_state (snd (TimedGameProxy_init a b w)) = random_seed 0.
Proof.
  unfold TimedGameProxy_init.
  pose proof (PigGame_init_seed a b w) as H.
  destruct (PigGame_init a b w) as [[g | e] w1]; simpl in *; exact H.
Qed.

Lemma main_setup_seed (w w' : world) (obj : game_object) :
  main_setup w = (Ok obj, w') -> random_state w' = random_seed 0.
Proof.
  unfold main_setup.
  destruct (input _ w) as [[a1 | e1] w1]; [|discriminate].
  destruct (input _ w1) as [[a2 | e2] w2]; [|discriminate].
  destruct (input _ w2) as [[a3 | e3] w3]; [|discriminate].
  destruct (String.eqb (lower (strip a3)) "yes").
  - pose proof (TimedGameProxy_init_seed (lower (strip a1)) (lower (strip a2)) w3) as H.
    destruct (TimedGameProxy_init _ _ w3) as [[t | e] w4]; [|discriminate].
    intros E. injection E as _ <-. exact H.
  - pose proof (PigGame_init_seed (lower (strip a1)) (lower (strip a2)) w3) as H.
    destruct (PigGame_init _ _ w3) as [[g | e] w4]; [|discriminate].
    intros E. injection E as _ <-. exact H.
Qed.

Lemma PigGame_init_computers (a b : string) (w : world) :
  is_casing "computer" a = true -> is_casing "computer" b = true ->
  PigGame_init a b w
  = (Ok {| die := DieObject;
           players := [Player_init ComputerPlayer "Player 1";
                       Player_init ComputerPlayer "Player 2"];
           current_player := 0 |},
     construct (APigGame {| die := DieObject;
                            players := [Player_init ComputerPlayer "Player 1";
                                        Player_init ComputerPlayer "Player 2"];
                            current_player := 0 |})
       (construct (APlayer (Player_init ComputerPlayer "Player 2"))
          (construct (APlayer (Player_init ComputerPlayer "Player 1"))
             (construct ADie (set_random_state (random_seed 0) w))))).
Proof.
  intros Ha Hb. unfold PigGame_init, Die_init.
  rewrite (create_player_computer a "Player 1" Ha), (create_player_computer b "Player 2" Hb).
  reflexivity.
Qed.

(** C10. [PigGame] and [TimedGameProxy] always leave the generator seeded
    with 0, whatever their arguments and whatever the world, and so does
    every successful setup by [main]. Hence two games between computers,
    started in any two worlds (different earlier generator states, different
    inputs), are after any number of transitions at the same point, with the
    same players and scores, the same generator state, and the same lines
    printed since the start: the same rolls, the same holds, the same
    winner. Two timed games between computers agree in the same way when
    their clocks give the same readings. *)
Theorem computer_games_repeat (type1 type2 type1' type2' : string) (W1 W2 : world)
  (n : nat) :
  is_casing "computer" type1 = true -> is_casing "computer" type2 = true ->
  is_casing "computer" type1' = true -> is_casing "computer" type2' = true ->
  (forall (a b : string) (w : world),
     random_state (snd (PigGame_init a b w)) = random_seed 0
     /\ random_state (snd (TimedGameProxy_init a b w)) = random_seed 0)
  /\ (forall (w w' : world) (obj : game_object),
        main_setup w = (Ok obj, w') -> random_state w' = random_seed 0)
  /\ (exists g w1 w2,
        PigGame_init type1 type2 W1 = (Ok g, w1)
        /\ PigGame_init type1' type2' W2 = (Ok g, w2)
        /\ let c1 := PigGame_play n g w1 in
           let c2 := PigGame_play n g w2 in
           at_point c1 = at_point c2 /\ the_game c1 = the_game c2
           /\ random_state (the_world c1) = random_state (the_world c2)
           /\ exists out, stdout (the_world c1) = stdout W1 ++ out
                          /\ stdout (the_world c2) = stdout W2 ++ out)
  /\ (clock W1 = clock W2 -> clock_reads W1 = clock_reads W2 ->
      exists t w1 w2,
        TimedGameProxy_init type1 type2 W1 = (Ok t, w1)
        /\ TimedGameProxy_init type1' type2' W2 = (Ok t, w2)
        /\ let c1 := TimedGameProxy_play n t w1 in
           let c2 := TimedGameProxy_play n t w2 in
           at_point c1 = at_point c2 /\ the_game c1 = the_game c2
           /\ random_state (the_world c1) = random_state (the_world c2)
           /\ exists out, stdout (the_world c1) = stdout W1 ++ out
                          /\ stdout (the_world c2) = stdout W2 ++ out).
Proof.
  intros H1 H2 H1' H2'.
  split; [intros a b w; split; [apply PigGame_init_seed | apply TimedGameProxy_init_seed]|].
  split; [exact main_setup_seed|].
  set (g := {| die := DieObject;
               players := [Player_init ComputerPlayer "Player 1";
                           Player_init ComputerPlayer "Player 2"];
               current_player := 0 |}).
  assert (Hg : two_players g) by (split; simpl; eauto).
  assert (Hall : all_computers g) by (repeat constructor).
  split.
  - eexists g, _, _.
    split; [apply (PigGame_init_computers type1 type2 W1 H1 H2)|].
    split; [apply (PigGame_init_computers type1' type2' W2 H1' H2')|].
    cbv zeta. unfold PigGame_play.
    match goal with
    | |- context [run PigGame_step n ?a] =>
        match goal with
        | |- context [at_point _ = at_point (run PigGame_step n ?b)] =>
            pose proof (same_game_run false PigGame_step W1 W2
                          (same_game_PigGame_step false W1 W2) n a b Hg Hall) as Hrun
        end
    end.
    destruct Hrun as [Hpt [Hgame [Hrs [Hout _]]]].
    { unfold same_game, world_agree. simpl.
      split; [reflexivity|]. split; [reflexivity|]. split; [reflexivity|].
      split; [exists [Welcome]; auto | discriminate]. }
    auto.
  - intros Hclock Hreads.
    eexists {| game := g; start_time := clock W1 (clock_reads W1) |}, _, _.
    split; [unfold TimedGameProxy_init;
            rewrite (PigGame_init_computers type1 type2 W1 H1 H2); reflexivity|].
    split; [unfold TimedGameProxy_init;
            rewrite (PigGame_init_computers type1' type2' W2 H1' H2');
            simpl; rewrite Hclock, Hreads; reflexivity|].
    cbv zeta. unfold TimedGameProxy_play. simpl start_time. simpl game.
    match goal with
    | |- context [run ?s n ?a] =>
        match goal with
        | |- context [at_point _ = at_point (run _ n ?b)] =>
            pose proof (same_game_run true s W1 W2
                          (same_game_TimedGameProxy_step _ W1 W2) n a b Hg Hall) as Hrun
        end
    end.
    destruct Hrun as [Hpt [Hgame [Hrs [Hout _]]]].
    { unfold same_game, world_agree. simpl.
      split; [reflexivity|]. split; [reflexivity|]. split; [reflexivity|].
      split; [exists [TimedStart]; auto | auto]. }
    auto.
Qed.

End Repeat.

(** ** Answers to the timed-mode prompt *)

Lemma same_letter_not_space (p c : ascii) :
  (97 <= N_of_ascii p <= 122)%N -> same_letter p c = true -> isspace c = false.
Proof.
  intros Hp H. unfold same_letter in H.
  rewrite orb_true_iff, !andb_true_iff, !N.leb_le, N.eqb_eq, Ascii.eqb_eq in H.
  assert (Hc : (65 <= N_of_ascii c <= 122)%N) by (destruct H as [-> | H]; lia).
  apply not_true_is_false. unfold isspace. intros E.
  rewrite !orb_true_iff, !andb_true_iff, !N.leb_le, !N.eqb_eq in E. lia.
Qed.

Lemma lstrip_prefix (a : string) :
  exists ws, a = String.append ws (lstrip a) /\ all_space ws = true.
Proof.
  induction a as [|c a [ws [IH1 IH2]]]; simpl.
  - exists EmptyString. auto.
  - destruct (isspace c) eqn:E.
    + exists (String c ws). simpl. rewrite E, IH2, <- IH1. auto.
    + exists EmptyString. auto.
Qed.

Lemma rstrip_suffix (s : string) :
  exists ws, s = String.append (rstrip s) ws /\ all_space ws = true.
Proof.
  induction s as [|c s [ws [IH1 IH2]]]; simpl.
  - exists EmptyString. auto.
  - destruct (rstrip s) as [|d r] eqn:E.
    + simpl in IH1. subst ws. destruct (isspace c) eqn:Ec.
      * exists (String c s). simpl. rewrite Ec, IH2. auto.
      * exists s. simpl. auto.
    + exists ws. split; [simpl; f_equal; exact IH1 | exact IH2].
Qed.

Lemma lstrip_app_space (ws s : string) :
  all_space ws = true -> lstrip (String.append ws s) = lstrip s.
Proof.
  induction ws as [|c ws IH]; simpl; [reflexivity|].
  rewrite andb_true_iff. intros [-> H]. auto.
Qed.

Lemma rstrip_space (ws : string) : all_space ws = true -> rstrip ws = EmptyString.
Proof.
  induction ws as [|c ws IH]; simpl; [reflexivity|].
  rewrite andb_true_iff. intros [-> H]. rewrite (IH H). reflexivity.
Qed.

Lemma rstrip_app_space (s ws : string) :
  all_space ws = true -> rstrip (String.append s ws) = rstrip s.
Proof.
  intros H. induction s as [|c s IH]; simpl; [apply rstrip_space, H|].
  rewrite IH. reflexivity.
Qed.

(** The test that [main] applies to the third answer accepts exactly the
    answers that read "yes" up to case and surrounding whitespace. *)
Lemma yes_test_spec (a : string) :
  String.eqb (lower (strip a)) "yes" = true <-> says_yes a.
Proof.
  rewrite (lower_is_casing "yes" (strip a) eq_refl). split.
  - intros H. destruct (lstrip_prefix a) as [ws1 [H1 Hs1]].
    destruct (rstrip_suffix (lstrip a)) as [ws2 [H2 Hs2]].
    exists ws1, (strip a), ws2. unfold strip in *. rewrite <- H2. auto.
  - intros [ws1 [y [ws2 [-> [Hs1 [Hs2 Hy]]]]]].
    assert (Hstrip : strip (String.append ws1 (String.append y ws2)) = y);
      [|rewrite Hstrip; exact Hy].
    unfold strip. rewrite (lstrip_app_space ws1 _ Hs1).
    destruct y as [|c1 [|c2 [|c3 [|c4 y]]]]; simpl in Hy; try discriminate;
      try (rewrite ?andb_false_r in Hy; discriminate).
    rewrite !andb_true_iff in Hy. destruct Hy as [Hc1 [Hc2 [Hc3 _]]].
    apply same_letter_not_space in Hc1, Hc3; try (simpl; lia).
    simpl. rewrite Hc1. simpl.
    rewrite (rstrip_space ws2 Hs2), Hc3. reflexivity.
Qed.

(** ** Setup *)

Section Setup.

Context {R : RandomModule}.

(** After the three prompts have been answered, [main] calls the constructor
    selected by the third answer, in a world where nothing but the input and
    the output has changed. *)
Lemma main_setup_answers (w : world) (a1 a2 a3 : string) (rest : list string) :
  stdin w = a1 :: a2 :: a3 :: rest ->
  exists w3,
    stdin w3 = rest /\ stdout w3 = stdout w ++ setup_prompts
    /\ random_state w3 = random_state w /\ clock w3 = clock w
    /\ clock_reads w3 = clock_reads w /\ constructed w3 = constructed w
    /\ main_setup w
       = if String.eqb (lower (strip a3)) "yes" then
           match TimedGameProxy_init (lower (strip a1)) (lower (strip a2)) w3 with
           | (Raise e, w4) => (Raise e, w4)
           | (Ok p, w4) => (Ok (Timed p), w4)
           end
         else
           match PigGame_init (lower (strip a1)) (lower (strip a2)) w3 with
           | (Raise e, w4) => (Raise e, w4)
           | (Ok g, w4) => (Ok (Untimed g), w4)
           end.
Proof.
  intros Hin.
  exists (set_stdin rest
            (print (Prompt "Do you want to play in timed mode? (yes/no): ")
               (set_stdin (a3 :: rest)
                  (print (Prompt "Enter Player 2 type (human/computer): ")
                     (set_stdin (a2 :: a3 :: rest)
                        (print (Prompt "Enter Player 1 type (human/computer): ") w)))))).
  split; [reflexivity|].
  split; [simpl; rewrite <- !app_assoc; reflexivity|].
  do 4 (split; [reflexivity|]).
  unfold main_setup, input. rewrite Hin. reflexivity.
Qed.

Lemma PigGame_init_valid (l1 l2 : string) (p1 p2 : Player) (w : world) :
  create_player l1 "Player 1" = Ok p1 ->
  create_player l2 "Player 2" = Ok p2 ->
  exists w1,
    PigGame_init l1 l2 w
    = (Ok {| die := DieObject; players := [p1; p2]; current_player := 0 |}, w1).
Proof.
  intros H1 H2. unfold PigGame_init, Die_init. rewrite H1, H2. eexists. reflexivity.
Qed.

Lemma PigGame_init_world (l1 l2 : string) (p1 p2 : Player) (w : world) :
  create_player l1 "Player 1" = Ok p1 ->
  create_player l2 "Player 2" = Ok p2 ->
  PigGame_init l1 l2 w
  = (Ok {| die := DieObject; players := [p1; p2]; current_player := 0 |},
     construct (APigGame {| die := DieObject; players := [p1; p2]; current_player := 0 |})
       (construct (APlayer p2)
          (construct (APlayer p1)
             (construct ADie (set_random_state (random_seed 0) w))))).
Proof.
  intros H1 H2. unfold PigGame_init, Die_init. rewrite H1, H2. reflexivity.
Qed.

(** C9. Once two recognised player types have been entered, the third
    answer decides the kind of game and never makes the setup fail: an
    answer that reads "yes" up to case and surrounding whitespace builds a
    [TimedGameProxy] and [main] runs its [play]; any other answer builds a
    [PigGame] and [main] runs the untimed [play]. Either way the choice is
    made in silence: when the setup is over all the input up to the third
    line has been read and nothing has been printed but the three prompts;
    the objects constructed are the die, the two players and the game (and
    the proxy around it for a timed game, whose constructor alone reads the
    clock); and the next line printed is the first line of the [play]
    chosen. *)
Theorem timed_mode_answer (w : world) (a1 a2 a3 : string) (rest : list string)
  (p1 p2 : Player) (n : nat) :
  stdin w = a1 :: a2 :: a3 :: rest ->
  create_player (lower (strip a1)) "Player 1" = Ok p1 ->
  create_player (lower (strip a2)) "Player 2" = Ok p2 ->
  (says_yes a3 ->
     exists t w', main_setup w = (Ok (Timed t), w')
                  /\ players (game t) = [p1; p2]
                  /\ main n w = Playing (TimedGameProxy_play n t w')
                  /\ stdin w' = rest
                  /\ stdout w' = stdout w ++ setup_prompts
                  /\ constructed w'
                     = constructed w
                       ++ [ADie; APlayer p1; APlayer p2; APigGame (game t);
                           ATimedGameProxy t]
                  /\ clock_reads w' = S (clock_reads w)
                  /\ stdout (the_world (TimedGameProxy_play 0 t w'))
                     = stdout w ++ setup_prompts ++ [TimedStart])
  /\ (~ says_yes a3 ->
        exists g w', main_setup w = (Ok (Untimed g), w')
                     /\ players g = [p1; p2]
                     /\ main n w = Playing (PigGame_play n g w')
                     /\ stdin w' = rest
                     /\ stdout w' = stdout w ++ setup_prompts
                     /\ constructed w'
                        = constructed w ++ [ADie; APlayer p1; APlayer p2; APigGame g]
                     /\ clock_reads w' = clock_reads w
                     /\ stdout (the_world (PigGame_play 0 g w'))
                        = stdout w ++ setup_prompts ++ [Welcome]).
Proof.
  intros Hin H1 H2.
  destruct (main_setup_answers w a1 a2 a3 rest Hin)
    as [w3 [Hin3 [Hout3 [_ [_ [Hcr3 [Hco3 Hmain]]]]]]].
  pose proof (PigGame_init_world _ _ p1 p2 w3 H1 H2) as Hinit.
  unfold main. rewrite Hmain. unfold TimedGameProxy_init. rewrite Hinit.
  split; intros Hyes.
  - apply yes_test_spec in Hyes. rewrite Hyes. simpl.
    eexists; eexists. split; [reflexivity|]. simpl.
    rewrite Hin3, Hout3, Hcr3, Hco3, <- !app_assoc. simpl. auto 10.
  - destruct (String.eqb (lower (strip a3)) "yes") eqn:E.
    + exfalso. apply Hyes, yes_test_spec, E.
    + eexists; eexists. split; [reflexivity|]. simpl.
      rewrite Hin3, Hout3, Hcr3, Hco3, <- !app_assoc. simpl. auto 10.
Qed.

Lemma recognised_create_player (label nm : string) :
  (recognised label = false -> create_player label nm = Raise invalid_player_type)
  /\ (recognised label = true -> exists k, create_player label nm = Ok (Player_init k nm)).
Proof.
  unfold recognised, create_player, invalid_player_type.
  rewrite (is_casing_eqb "human" label eq_refl), (is_casing_eqb "computer" label eq_refl).
  destruct (String.eqb (lower label) "human");
    destruct (String.eqb (lower label) "computer"); simpl;
    split; intros H; try discriminate; eauto.
Qed.

(** C8, as the code has it. When one of the two labels is not recognised,
    [PigGame] and [TimedGameProxy] raise [ValueError] without returning a game
    and without reading the clock, and [main] ends with that error after the
    three prompts, whatever the third answer: [play] is never entered and
    prints nothing. By then the die has been constructed and the generator
    seeded with 0; if the first label was recognised, Player 1 has been
    constructed too. *)
Theorem bad_label_fails_setup (l1 l2 : string) (w : world) :
  recognised l1 = false \/ recognised l2 = false ->
  exists w',
    PigGame_init l1 l2 w = (Raise invalid_player_type, w')
    /\ TimedGameProxy_init l1 l2 w = (Raise invalid_player_type, w')
    /\ stdout w' = stdout w /\ stdin w' = stdin w /\ clock_reads w' = clock_reads w
    /\ random_state w' = random_seed 0
    /\ (recognised l1 = false -> constructed w' = constructed w ++ [ADie])
    /\ (recognised l1 = true ->
          exists k, constructed w'
                    = constructed w ++ [ADie; APlayer (Player_init k "Player 1")])
    /\ (forall (w0 : world) (a1 a2 a3 : string) (rest : list string) (n : nat),
          stdin w0 = a1 :: a2 :: a3 :: rest ->
          lower (strip a1) = l1 -> lower (strip a2) = l2 ->
          exists w'', main n w0 = SetupRaised invalid_player_type w''
                      /\ stdout w'' = stdout w0 ++ setup_prompts /\ stdin w'' = rest).
Proof.
  intros Hbad.
  assert (Hinit : forall w0 : world,
            exists w',
              PigGame_init l1 l2 w0 = (Raise invalid_player_type, w')
              /\ stdout w' = stdout w0 /\ stdin w' = stdin w0
              /\ clock_reads w' = clock_reads w0
              /\ random_state w' = random_seed 0
              /\ (recognised l1 = false -> constructed w' = constructed w0 ++ [ADie])
              /\ (recognised l1 = true ->
                    exists k, constructed w'
                              = constructed w0 ++ [ADie; APlayer (Player_init k "Player 1")])).
  { intros w0. unfold PigGame_init, Die_init.
    destruct (recognised_create_player l1 "Player 1") as [Hn1 Hy1].
    destruct (recognised_create_player l2 "Player 2") as [Hn2 Hy2].
    destruct (recognised l1) eqn:E1.
    - destruct (Hy1 eq_refl) as [k Hk]. rewrite Hk.
      destruct Hbad as [Hbad | Hbad]; [discriminate|]. rewrite (Hn2 Hbad).
      eexists. split; [reflexivity|]. simpl. repeat split; try discriminate.
      intros _. exists k. rewrite <- app_assoc. reflexivity.
    - rewrite (Hn1 eq_refl).
      eexists. split; [reflexivity|]. simpl. repeat split; discriminate. }
  destruct (Hinit w) as [w' [Hw' Hrest]].
  exists w'. split; [exact Hw'|].
  split; [unfold TimedGameProxy_init; rewrite Hw'; reflexivity|].
  destruct Hrest as [H1 [H2 [H3 [H4 [H5 H6]]]]].
  repeat (split; [assumption|]).
  intros w0 a1 a2 a3 rest n Hin E1 E2.
  destruct (main_setup_answers w0 a1 a2 a3 rest Hin)
    as [w3 [Hin3 [Hout3 [_ [_ [_ [_ Hmain]]]]]]].
  destruct (Hinit w3) as [w4 [Hw4 [Hout4 [Hin4 _]]]].
  exists w4. unfold main. rewrite Hmain, E1, E2.
  unfold TimedGameProxy_init. rewrite Hw4.
  rewrite Hout4, Hin4, Hout3, Hin3.
  destruct (String.eqb (lower (strip a3)) "yes"); auto.
Qed.

End Setup.

(** ** The statements at work on concrete games *)

Lemma lcg_in_range : RandintInRange lcg_random.
Proof.
  intros s. simpl.
  pose proof (Z.mod_pos_bound (lcg_next s / 65536) 6 ltac:(lia)). lia.
Qed.

(** With the small generator seeded with 0, the game between two computers
    has returned after 400 transitions: Player 1 has 100 points or more,
    Player 2 has fewer, and Player 1 alone is declared. *)
Lemma play_ends_at_100_witness :
  let w1 := snd (PigGame_init "computer" "computer" demo_world) in
  let c := PigGame_play 400 computers w1 in
  at_point c = Returned
  /\ exists p q, current (the_game c) = Some p /\ opponent (the_game c) = Some q
                 /\ 100 <= score p /\ score q < 100
                 /\ winners (stdout (the_world c)) = [name p].
Proof.
  intros w1 c.
  pose proof (play_ends_at_100 "computer" "computer" demo_world w1 computers 400 eq_refl)
    as H.
  cbv zeta in H. fold c in H.
  assert (Hret : at_point c = Returned) by (vm_compute; reflexivity).
  split; [exact Hret|].
  destruct H as [p [q [Hp [Hq [_ [Hq100 [Hr _]]]]]]].
  destruct (Hr Hret) as [Hp100 [Hw _]].
  exists p, q. auto.
Defined.

Lemma roll_updates_turn_total_witness :
  at_point (PigGame_step {| at_point := Rolling 5; the_game := computers;
                            the_world := three_then_one |}) = Rolling 8
  /\ at_point (PigGame_step {| at_point := Rolling 8; the_game := computers;
                               the_world := snd (Die_roll three_then_one) |}) = WinCheck 0.
Proof.
  split.
  - apply (proj1 (roll_updates_turn_total (R := scripted_random [3; 1] 1)
                    computers three_then_one three_then_one
                    (snd (Die_roll three_then_one))
                    (Player_init ComputerPlayer "Player 1") 5 3
                    eq_refl eq_refl eq_refl)).
    lia.
  - apply (proj1 (proj2 (roll_updates_turn_total (R := scripted_random [3; 1] 1)
                           computers (snd (Die_roll three_then_one))
                           (snd (Die_roll three_then_one))
                           (snd (Die_roll (snd (Die_roll three_then_one))))
                           (Player_init ComputerPlayer "Player 1") 8 1
                           eq_refl eq_refl eq_refl))).
    reflexivity.
Defined.

Lemma computers_two_players : two_players computers.
Proof. split; [exists (Player_init ComputerPlayer "Player 1"),
                      (Player_init ComputerPlayer "Player 2"); reflexivity
              | left; reflexivity].
Defined.

Lemma hold_banks_turn_total_witness :
  let c := PigGame_step {| at_point := Rolling 25; the_game := computers;
                           the_world := demo_world |} in
  at_point c = WinCheck 25
  /\ current (the_game c) = Some {| cls := ComputerPlayer; name := "Player 1"; score := 25 |}
  /\ at_point (run PigGame_step 2 c) = Rolling 0.
Proof.
  intros c.
  pose proof (hold_banks_turn_total computers demo_world demo_world
                (Player_init ComputerPlayer "Player 1") 25
                computers_two_players eq_refl eq_refl) as H.
  cbv zeta in H. fold c in H.
  destruct H as [H1 [H2 [_ [_ [_ [_ [H3 _]]]]]]].
  split; [exact H1|]. split; [exact H2|].
  apply H3. reflexivity.
Defined.

Lemma deadline_ends_timed_game_witness :
  let t := {| game := computers; start_time := 1000%float |} in
  let w2 := snd (TimedGameProxy_init "computer" "computer" (deadline_world 43)) in
  let c := TimedGameProxy_play 49 t w2 in
  at_point c = Rolling 14
  /\ map score (players (the_game c)) = [54; 25]
  /\ PrimFloat.sub (clock (the_world c) (clock_reads (the_world c))) (start_time t)
     = 60%float
  /\ TimedGameProxy_play 50 t w2
     = {| at_point := Returned; the_game := the_game c;
          the_world := print (WinsWithPoints "Player 1" 54)
                         (print TimeUpDuringTurn (snd (time_time (the_world c)))) |}.
Proof.
  intros t w2 c.
  assert (Hpt : at_point c = Rolling 14) by (vm_compute; reflexivity).
  assert (Hsc : players (the_game c)
                = [{| cls := ComputerPlayer; name := "Player 1"; score := 54 |};
                   {| cls := ComputerPlayer; name := "Player 2"; score := 25 |}])
    by (vm_compute; reflexivity).
  assert (Hel : PrimFloat.sub (clock (the_world c) (clock_reads (the_world c)))
                  (start_time t) = 60%float) by (vm_compute; reflexivity).
  split; [exact Hpt|]. split; [rewrite Hsc; reflexivity|]. split; [exact Hel|].
  pose proof (deadline_ends_timed_game "computer" "computer" (deadline_world 43) w2 t 49
                eq_refl) as H.
  cbv zeta in H. fold c in H.
  destruct H as [p1 [p2 [Hps [_ [_ [_ [Hmid _]]]]]]].
  rewrite Hsc in Hps. injection Hps as <- <-.
  destruct (Hmid 14 Hpt) as [E _]; [rewrite Hel; reflexivity|].
  exact E.
Defined.

Lemma scores_start_at_0_and_only_grow_witness :
  let w1 := snd (PigGame_init "computer" "computer" demo_world) in
  let t := {| game := computers; start_time := 1000%float |} in
  let w2 := snd (TimedGameProxy_init "computer" "computer" demo_world) in
  scores_le (players (the_game (PigGame_play 100 computers w1)))
            (players (the_game (PigGame_play 400 computers w1)))
  /\ only_by_hold (TimedGameProxy_play 0 t w2) (TimedGameProxy_play 1 t w2).
Proof.
  intros w1 t w2.
  destruct (scores_start_at_0_and_only_grow (RR := lcg_in_range)
              "computer" "computer" demo_world w1 computers
              "computer" "computer" demo_world w2 t eq_refl eq_refl)
    as [_ [_ [Hu Ht]]].
  split.
  - apply (Hu 100%nat 400%nat). repeat constructor.
  - apply (Ht 0%nat 0%nat). constructor.
Defined.

Lemma timed_mode_answer_witness :
  (exists t w', main_setup yes_world = (Ok (Timed t), w')
                /\ stdout w' = setup_prompts /\ stdin w' = [])
  /\ (exists g w', main_setup maybe_world = (Ok (Untimed g), w')
                   /\ stdout w' = setup_prompts /\ stdin w' = []
                   /\ stdout (the_world (PigGame_play 0 g w'))
                      = setup_prompts ++ [Welcome]).
Proof.
  split.
  - destruct (timed_mode_answer yes_world "computer" "Computer " "  YeS " []
                (Player_init ComputerPlayer "Player 1")
                (Player_init ComputerPlayer "Player 2") 0 eq_refl eq_refl eq_refl)
      as [Hyes _].
    destruct Hyes as [t [w' [H [_ [_ [Hi [Ho _]]]]]]].
    + apply yes_test_spec. reflexivity.
    + exists t, w'. split; [exact H|]. split; [exact Ho | exact Hi].
  - destruct (timed_mode_answer maybe_world "computer" "Computer " "maybe" []
                (Player_init ComputerPlayer "Player 1")
                (Player_init ComputerPlayer "Player 2") 0 eq_refl eq_refl eq_refl)
      as [_ Hno].
    destruct Hno as [g [w' [H [_ [_ [Hi [Ho [_ [_ Hw]]]]]]]]].
    + intros H. apply yes_test_spec in H. discriminate.
    + exists g, w'. split; [exact H|]. split; [exact Ho|]. split; [exact Hi | exact Hw].
Defined.

(** C8, as stated, fails: with the answers "human", "alien", "no" the setup
    raises [ValueError], but before that a die and Player 1 have been
    constructed and the generator, which was in state 42, has been seeded
    with 0. *)
Lemma bad_label_after_die_and_player :
  constructed alien_world = [] /\ random_state alien_world = 42
  /\ match main 0 alien_world with
     | SetupRaised (ValueError _) w' =>
         constructed w' = [ADie; APlayer (Player_init HumanPlayer "Player 1")]
         /\ random_state w' = 0
     | _ => False
     end.
Proof. vm_compute. repeat split. Qed.

Lemma bad_label_fails_setup_witness :
  exists w', main 7 alien_world = SetupRaised invalid_player_type w'
             /\ stdout w' = setup_prompts.
Proof.
  destruct (bad_label_fails_setup "human" "alien" alien_world (or_intror eq_refl))
    as [_ [_ [_ [_ [_ [_ [_ [_ [_ Hmain]]]]]]]]].
  destruct (Hmain alien_world "human" "alien" "no" [] 7%nat eq_refl eq_refl eq_refl)
    as [w'' [H1 [H2 _]]].
  exists w''. split; [exact H1 | exact H2].
Defined.

Lemma computer_games_repeat_witness :
  exists g w1 w2,
    PigGame_init "computer" "COMPUTER" demo_world = (Ok g, w1)
    /\ PigGame_init "Computer" "computer" alien_world = (Ok g, w2)
    /\ the_game (PigGame_play 400 g w1) = the_game (PigGame_play 400 g w2).
Proof.
  destruct (computer_games_repeat "computer" "COMPUTER" "Computer" "computer"
              demo_world alien_world 400 eq_refl eq_refl eq_refl eq_refl)
    as [_ [_ [[g [w1 [w2 [H1 [H2 H3]]]]] _]]].
  exists g, w1, w2. cbv zeta in H3. destruct H3 as [_ [H3 _]]. auto.
Defined.

(** The two final positions of the specification's examples: 40 against 55
    is won by the player with 55, 30 against 30 is a tie. *)
Lemma determine_winner_examples :
  let position (s1 s2 : Z) :=
    {| die := DieObject;
       players := [{| cls := ComputerPlayer; name := "Player 1"; score := s1 |};
                   {| cls := HumanPlayer; name := "Player 2"; score := s2 |}];
       current_player := 1 |} in
  stdout (the_world (determine_winner (position 40 55) demo_world))
  = [WinsWithPoints "Player 2" 55]
  /\ stdout (the_world (determine_winner (position 30 30) demo_world)) = [Tie]
  /\ stdout (the_world
               (TimedGameProxy_step 1000
                  {| at_point := Rolling 17; the_game := position 40 55;
                     the_world := snd (time_time demo_world) |}))
     = [TimeUpDuringTurn; WinsWithPoints "Player 2" 55].
Proof. repeat split. Qed.

(** ** Further properties: answers up to case and whitespace *)

Lemma chr_lower_idempotent (c : ascii) : chr_lower (chr_lower c) = chr_lower c.
Proof. destruct c as [[] [] [] [] [] [] [] []]; reflexivity. Qed.

Lemma lower_idempotent (s : string) : lower (lower s) = lower s.
Proof.
  induction s as [|c s IH]; simpl; [reflexivity|].
  rewrite chr_lower_idempotent, IH. reflexivity.
Qed.

Lemma is_casing_no_space (p y : string) :
  small_letters p = true -> is_casing p y = true -> no_space y = true.
Proof.
  revert y. induction p as [|a p IH]; intros [|c y] Hp Hy; simpl in *;
    try discriminate; [reflexivity|].
  rewrite !andb_true_iff, !N.leb_le in Hp. destruct Hp as [Ha Hp].
  rewrite andb_true_iff in Hy. destruct Hy as [Hc Hy].
  rewrite (same_letter_not_space a c Ha Hc), (IH y Hp Hy). reflexivity.
Qed.

Lemma lstrip_space (ws : string) : all_space ws = true -> lstrip ws = EmptyString.
Proof.
  induction ws as [|c ws IH]; simpl; [reflexivity|].
  rewrite andb_true_iff. intros [-> H]. auto.
Qed.

Lemma rstrip_no_space (y ws : string) :
  no_space y = true -> all_space ws = true -> rstrip (String.append y ws) = y.
Proof.
  intros Hy Hws. induction y as [|c y IH]; simpl; [apply rstrip_space, Hws|].
  simpl in Hy. rewrite andb_true_iff, negb_true_iff in Hy. destruct Hy as [Hc Hy].
  rewrite (IH Hy). destruct y; [rewrite Hc|]; reflexivity.
Qed.

Lemma strip_core (ws1 y ws2 : string) :
  all_space ws1 = true -> all_space ws2 = true -> no_space y = true ->
  strip (String.append ws1 (String.append y ws2)) = y.
Proof.
  intros H1 H2 Hy. unfold strip. rewrite (lstrip_app_space ws1 _ H1).
  destruct y as [|c y].
  - simpl. rewrite (lstrip_space ws2 H2). reflexivity.
  - assert (Hc : isspace c = false)
      by (simpl in Hy; rewrite andb_true_iff, negb_true_iff in Hy; tauto).
    change (lstrip (String.append (String c y) ws2))
      with (if isspace c then lstrip (String.append y ws2)
            else String.append (String c y) ws2).
    rewrite Hc. apply rstrip_no_space; assumption.
Qed.

(** The test [a.strip().lower() == pattern], for a pattern of small letters,
    accepts exactly the answers that read as the pattern. *)
Lemma strip_lower_test (p a : string) :
  small_letters p = true -> (String.eqb (lower (strip a)) p = true <-> reads_as p a).
Proof.
  intros Hp. rewrite (lower_is_casing p (strip a) Hp). split.
  - intros H. destruct (lstrip_prefix a) as [ws1 [H1 Hs1]].
    destruct (rstrip_suffix (lstrip a)) as [ws2 [H2 Hs2]].
    exists ws1, (strip a), ws2. unfold strip in *. rewrite <- H2. auto.
  - intros [ws1 [y [ws2 [-> [Hs1 [Hs2 Hy]]]]]].
    rewrite (strip_core ws1 y ws2 Hs1 Hs2 (is_casing_no_space p y Hp Hy)). exact Hy.
Qed.

(** ** Further properties: the human's prompt loop *)

Lemma not_a_choice (l : string) :
  ~ reads_as "r" l /\ ~ reads_as "h" l ->
  String.eqb (lower (strip l)) "r" || String.eqb (lower (strip l)) "h" = false.
Proof.
  intros [Hr Hh]. apply orb_false_iff. split; apply not_true_is_false; intros H.
  - apply Hr, (strip_lower_test "r" l eq_refl), H.
  - apply Hh, (strip_lower_test "h" l eq_refl), H.
Qed.

Lemma HumanPlayer_decide_loop_skips (bad lines : list string) (out : list output) :
  Forall (fun l => ~ reads_as "r" l /\ ~ reads_as "h" l) bad ->
  HumanPlayer_decide_loop (bad ++ lines) out
  = HumanPlayer_decide_loop lines (out ++ reprompts bad).
Proof.
  intros H. revert out. induction H as [|l bad Hl _ IH]; intros out; simpl.
  - rewrite app_nil_r. reflexivity.
  - rewrite (not_a_choice l Hl), IH, <- !app_assoc. reflexivity.
Qed.

Section HumanPrompt.

Context {R : RandomModule}.

(** X1. A human's [decide] skips every line that is not a choice, printing
    the prompt and the complaint once for each, and answers with the first
    line that reads "r" or "h" up to case and surrounding whitespace: the
    answer is the small letter, the lines after it are left unread, and the
    generator and the clock are not touched. The turn total and the score
    play no part. *)
Theorem HumanPlayer_decide_first_choice (p : Player) (turn_total : Z) (w : world)
  (bad : list string) (good : string) (rest : list string) :
  cls p = HumanPlayer ->
  stdin w = bad ++ good :: rest ->
  Forall (fun l => ~ reads_as "r" l /\ ~ reads_as "h" l) bad ->
  reads_as "r" good \/ reads_as "h" good ->
  exists choice w',
    decide p turn_total w = (Ok choice, w')
    /\ (reads_as "r" good -> choice = "r") /\ (reads_as "h" good -> choice = "h")
    /\ stdin w' = rest
    /\ stdout w'
       = stdout w ++ reprompts bad ++ [Prompt "Enter 'r' to roll or 'h' to hold: "]
    /\ random_state w' = random_state w
    /\ clock w' = clock w /\ clock_reads w' = clock_reads w.
Proof.
  intros Hcls Hin Hbad Hgood.
  unfold decide, HumanPlayer_decide. rewrite Hcls, Hin.
  rewrite (HumanPlayer_decide_loop_skips bad (good :: rest) (stdout w) Hbad).
  simpl.
  assert (Htest : (String.eqb (lower (strip good)) "r" = true
                   /\ ~ reads_as "h" good)
                  \/ (String.eqb (lower (strip good)) "h" = true
                      /\ ~ reads_as "r" good)).
  { destruct Hgood as [H | H].
    - left. split; [apply (strip_lower_test "r" good eq_refl), H|].
      intros H'. apply (strip_lower_test "r" good eq_refl) in H.
      apply (strip_lower_test "h" good eq_refl) in H'.
      apply String.eqb_eq in H, H'. congruence.
    - right. split; [apply (strip_lower_test "h" good eq_refl), H|].
      intros H'. apply (strip_lower_test "h" good eq_refl) in H.
      apply (strip_lower_test "r" good eq_refl) in H'.
      apply String.eqb_eq in H, H'. congruence. }
  destruct Htest as [[E Hn] | [E Hn]]; rewrite E; rewrite ?orb_true_r; simpl;
    apply String.eqb_eq in E; rewrite E;
    eexists; eexists; (split; [reflexivity|]); simpl;
    rewrite <- app_assoc; repeat split; auto; intros H; contradiction.
Qed.

(** X2. When the input ends before a human has made a choice, [decide]
    raises [EOFError] after one more prompt, and the exception leaves
    [PigGame.play] in the middle of the turn with the game objects as they
    were: the turn total in progress is lost and no score changes. *)
Theorem HumanPlayer_decide_end_of_input (g : PigGame) (p : Player) (turn_total : Z)
  (w : world) :
  current g = Some p ->
  cls p = HumanPlayer ->
  Forall (fun l => ~ reads_as "r" l /\ ~ reads_as "h" l) (stdin w) ->
  exists w',
    decide p turn_total w = (Raise EOFError, w')
    /\ stdin w' = []
    /\ stdout w'
       = stdout w ++ reprompts (stdin w) ++ [Prompt "Enter 'r' to roll or 'h' to hold: "]
    /\ PigGame_step {| at_point := Rolling turn_total; the_game := g; the_world := w |}
       = {| at_point := Raised EOFError; the_game := g; the_world := w' |}.
Proof.
  intros Hcur Hcls Hbad.
  assert (Hd : exists w',
             decide p turn_total w = (Raise EOFError, w')
             /\ stdin w' = []
             /\ stdout w' = stdout w ++ reprompts (stdin w)
                              ++ [Prompt "Enter 'r' to roll or 'h' to hold: "]).
  { unfold decide, HumanPlayer_decide. rewrite Hcls.
    pose proof (HumanPlayer_decide_loop_skips (stdin w) [] (stdout w) Hbad) as E.
    rewrite app_nil_r in E. rewrite E. simpl.
    eexists. split; [reflexivity|]. simpl. rewrite <- app_assoc. auto. }
  destruct Hd as [w' [Hd [Hin Hout]]]. exists w'.
  repeat (split; [assumption|]).
  apply (roll_or_hold_raise g w w' p turn_total EOFError Hcur Hd).
Qed.

End HumanPrompt.

(** ** Further properties: the setup in [main] *)

Lemma create_player_answer (a nm : string) :
  (reads_as "human" a ->
     create_player (lower (strip a)) nm = Ok (Player_init HumanPlayer nm))
  /\ (reads_as "computer" a ->
        create_player (lower (strip a)) nm = Ok (Player_init ComputerPlayer nm))
  /\ (~ reads_as "human" a -> ~ reads_as "computer" a ->
        create_player (lower (strip a)) nm = Raise invalid_player_type).
Proof.
  pose proof (strip_lower_test "human" a eq_refl) as Hh.
  pose proof (strip_lower_test "computer" a eq_refl) as Hc.
  unfold create_player. rewrite lower_idempotent.
  destruct (String.eqb (lower (strip a)) "human") eqn:Eh;
    destruct (String.eqb (lower (strip a)) "computer") eqn:Ec.
  - apply String.eqb_eq in Eh, Ec. rewrite Eh in Ec. discriminate.
  - split; [reflexivity|]. split.
    + intros H. apply Hc in H. discriminate.
    + intros H. exfalso. apply H, Hh. reflexivity.
  - split; [|split; [reflexivity|]].
    + intros H. apply Hh in H. discriminate.
    + intros _ H. exfalso. apply H, Hc. reflexivity.
  - split; [|split; [|reflexivity]].
    + intros H. apply Hh in H. discriminate.
    + intros H. apply Hc in H. discriminate.
Qed.

Lemma create_player_class_label (k : player_class) (a nm : string) :
  reads_as (class_label k) a -> create_player (lower (strip a)) nm = Ok (Player_init k nm).
Proof.
  destruct (create_player_answer a nm) as [Hh [Hc _]]. destruct k; simpl; auto.
Qed.

Section SetupMore.

Context {R : RandomModule}.

Lemma main_setup_built (w : world) (a1 a2 a3 : string) (rest : list string)
  (p1 p2 : Player) :
  stdin w = a1 :: a2 :: a3 :: rest ->
  create_player (lower (strip a1)) "Player 1" = Ok p1 ->
  create_player (lower (strip a2)) "Player 2" = Ok p2 ->
  exists obj w', main_setup w = (Ok obj, w')
                 /\ game_of obj
                    = {| die := DieObject; players := [p1; p2]; current_player := 0 |}.
Proof.
  intros Hin H1 H2.
  destruct (main_setup_answers w a1 a2 a3 rest Hin) as [w3 [_ [_ [_ [_ [_ [_ Hmain]]]]]]].
  destruct (PigGame_init_valid _ _ p1 p2 w3 H1 H2) as [w4 Hinit].
  rewrite Hmain. unfold TimedGameProxy_init. rewrite Hinit.
  destruct (String.eqb (lower (strip a3)) "yes"); simpl;
    eexists; eexists; split; reflexivity.
Qed.

Lemma main_setup_refused (w : world) (a1 a2 a3 : string) (rest : list string) :
  stdin w = a1 :: a2 :: a3 :: rest ->
  create_player (lower (strip a1)) "Player 1" = Raise invalid_player_type
  \/ create_player (lower (strip a2)) "Player 2" = Raise invalid_player_type ->
  exists w', main_setup w = (Raise invalid_player_type, w').
Proof.
  intros Hin Hbad.
  destruct (main_setup_answers w a1 a2 a3 rest Hin) as [w3 [_ [_ [_ [_ [_ [_ Hmain]]]]]]].
  assert (Hinit : exists w4, PigGame_init (lower (strip a1)) (lower (strip a2)) w3
                             = (Raise invalid_player_type, w4)).
  { unfold PigGame_init, Die_init.
    destruct (create_player_cases (lower (strip a1)) "Player 1") as [E1 | [E1 | E1]];
      rewrite E1; try (eexists; reflexivity);
      (destruct Hbad as [Hbad | Hbad]; [rewrite E1 in Hbad; discriminate|]);
      rewrite Hbad; eexists; reflexivity. }
  destruct Hinit as [w4 Hinit]. exists w4.
  rewrite Hmain. unfold TimedGameProxy_init. rewrite Hinit.
  destruct (String.eqb (lower (strip a3)) "yes"); reflexivity.
Qed.

(** X3. [main] takes a player type up to case and surrounding whitespace:
    once three lines have been read, the setup builds a game exactly when
    each of the first two reads "human" or "computer", and then Player 1 and
    Player 2 are of the classes that were asked for, both at score 0, Player
    1 to move, in the timed game as in the untimed one. *)
Theorem main_setup_player_types (w : world) (a1 a2 a3 : string) (rest : list string) :
  stdin w = a1 :: a2 :: a3 :: rest ->
  ((exists obj w', main_setup w = (Ok obj, w'))
   <-> (reads_as "human" a1 \/ reads_as "computer" a1)
       /\ (reads_as "human" a2 \/ reads_as "computer" a2))
  /\ (forall k1 k2 : player_class,
        reads_as (class_label k1) a1 -> reads_as (class_label k2) a2 ->
        exists obj w',
          main_setup w = (Ok obj, w')
          /\ game_of obj
             = {| die := DieObject;
                  players := [{| cls := k1; name := "Player 1"; score := 0 |};
                              {| cls := k2; name := "Player 2"; score := 0 |}];
                  current_player := 0 |}).
Proof.
  intros Hin.
  assert (Hbuild : forall k1 k2 : player_class,
             reads_as (class_label k1) a1 -> reads_as (class_label k2) a2 ->
             exists obj w',
               main_setup w = (Ok obj, w')
               /\ game_of obj
                  = {| die := DieObject;
                       players := [Player_init k1 "Player 1"; Player_init k2 "Player 2"];
                       current_player := 0 |}).
  { intros k1 k2 H1 H2.
    apply (main_setup_built w a1 a2 a3 rest _ _ Hin
             (create_player_class_label k1 a1 "Player 1" H1)
             (create_player_class_label k2 a2 "Player 2" H2)). }
  split; [|exact Hbuild]. split.
  - intros [obj [w' Hok]].
    destruct (create_player_answer a1 "Player 1") as [_ [_ Hn1]].
    destruct (create_player_answer a2 "Player 2") as [_ [_ Hn2]].
    destruct (String.eqb (lower (strip a1)) "human") eqn:E1h;
      [|destruct (String.eqb (lower (strip a1)) "computer") eqn:E1c].
    1, 2: destruct (String.eqb (lower (strip a2)) "human") eqn:E2h;
      [|destruct (String.eqb (lower (strip a2)) "computer") eqn:E2c].
    all: try (apply (strip_lower_test "human" a1 eq_refl) in E1h);
      try (apply (strip_lower_test "computer" a1 eq_refl) in E1c);
      try (apply (strip_lower_test "human" a2 eq_refl) in E2h);
      try (apply (strip_lower_test "computer" a2 eq_refl) in E2c);
      try (split; auto; fail).
    + exfalso.
      destruct (main_setup_refused w a1 a2 a3 rest Hin) as [w'' Hr]; [|congruence].
      right. apply Hn2; intros H.
      * apply (strip_lower_test "human" a2 eq_refl) in H. congruence.
      * apply (strip_lower_test "computer" a2 eq_refl) in H. congruence.
    + exfalso.
      destruct (main_setup_refused w a1 a2 a3 rest Hin) as [w'' Hr]; [|congruence].
      right. apply Hn2; intros H.
      * apply (strip_lower_test "human" a2 eq_refl) in H. congruence.
      * apply (strip_lower_test "computer" a2 eq_refl) in H. congruence.
    + exfalso.
      destruct (main_setup_refused w a1 a2 a3 rest Hin) as [w'' Hr]; [|congruence].
      left. apply Hn1; intros H.
      * apply (strip_lower_test "human" a1 eq_refl) in H. congruence.
      * apply (strip_lower_test "computer" a1 eq_refl) in H. congruence.
  - intros [[H1 | H1] [H2 | H2]].
    + destruct (Hbuild HumanPlayer HumanPlayer H1 H2) as [obj [w' [H _]]]; eauto.
    + destruct (Hbuild HumanPlayer ComputerPlayer H1 H2) as [obj [w' [H _]]]; eauto.
    + destruct (Hbuild ComputerPlayer HumanPlayer H1 H2) as [obj [w' [H _]]]; eauto.
    + destruct (Hbuild ComputerPlayer ComputerPlayer H1 H2) as [obj [w' [H _]]]; eauto.
Qed.

(** X4. With fewer than three lines of input, [main] raises [EOFError] at
    the first prompt that finds no line: every line has been read, one
    prompt more than there were lines has been printed, and nothing has been
    built, neither a die (the generator keeps its state) nor a player. *)
Theorem main_end_of_input (w : world) (n : nat) :
  (List.length (stdin w) < 3)%nat ->
  exists w',
    main n w = SetupRaised EOFError w'
    /\ stdin w' = []
    /\ stdout w' = stdout w ++ firstn (S (List.length (stdin w))) setup_prompts
    /\ random_state w' = random_state w
    /\ constructed w' = constructed w
    /\ clock_reads w' = clock_reads w.
Proof.
  intros Hlen. unfold main, main_setup, input.
  destruct (stdin w) as [|a1 [|a2 [|a3 rest]]] eqn:Hin; simpl in *; try lia;
    eexists; (split; [reflexivity|]); simpl; rewrite <- ?app_assoc; auto 10.
Qed.

End SetupMore.

(** ** Further properties: the books of a game *)

Lemma announced_app (x y : list output) : announced (x ++ y) = announced x ++ announced y.
Proof.
  induction x as [|o x IH]; simpl; [reflexivity|].
  destruct o; simpl; rewrite ?IH; reflexivity.
Qed.

Lemma banked_app (nm : string) (x y : list output) :
  banked nm (x ++ y) = banked nm x + banked nm y.
Proof.
  induction x as [|o x IH]; simpl; [reflexivity|].
  destruct o; simpl; rewrite ?IH; try reflexivity. lia.
Qed.

Lemma dialogue_silent (talk : list output) :
  forallb is_dialogue talk = true ->
  announced talk = [] /\ rolls talk = [] /\ winners talk = []
  /\ forall nm, banked nm talk = 0.
Proof.
  induction talk as [|o talk IH]; simpl; [auto|].
  rewrite andb_true_iff. intros [Ho H]. destruct o; try discriminate; auto.
Qed.

Lemma turn_names_S (k : nat) : turn_names (S k) = turn_names k ++ [turn_name k].
Proof. unfold turn_names. rewrite seq_S, map_app. reflexivity. Qed.

Lemma turn_index_S (k : nat) : turn_index (S k) = 1 - turn_index k.
Proof.
  unfold turn_index. rewrite Nat.even_succ, <- Nat.negb_even.
  destruct (Nat.even k); reflexivity.
Qed.

Lemma HumanPlayer_decide_loop_talk (lines : list string) (out : list output) :
  let '(r, rest, out') := HumanPlayer_decide_loop lines out in
  (r = Ok "r" \/ r = Ok "h" \/ (r = Raise EOFError /\ rest = []))
  /\ exists talk, out' = out ++ talk /\ forallb is_dialogue talk = true.
Proof.
  revert out. induction lines as [|l lines IH]; intros out; simpl.
  - split; [auto|]. eexists; split; reflexivity.
  - destruct (String.eqb (lower (strip l)) "r") eqn:Er; simpl.
    + apply String.eqb_eq in Er. rewrite Er.
      split; [auto|]. eexists; split; reflexivity.
    + destruct (String.eqb (lower (strip l)) "h") eqn:Eh; simpl.
      * apply String.eqb_eq in Eh. rewrite Eh.
        split; [auto|]. eexists; split; reflexivity.
      * specialize (IH ((out ++ [Prompt "Enter 'r' to roll or 'h' to hold: "])
                          ++ [InvalidInput])).
        destruct (HumanPlayer_decide_loop lines _) as [[r rest] out'].
        destruct IH as [Hr [talk [-> Htalk]]].
        split; [exact Hr|].
        exists ([Prompt "Enter 'r' to roll or 'h' to hold: "; InvalidInput] ++ talk).
        rewrite <- !app_assoc. simpl. auto.
Qed.

Section Books.

Context {R : RandomModule}.

(** What [decide] does to the world, for either class of player. *)
Lemma decide_anatomy (p : Player) (turn_total : Z) (w : world) :
  exists r w1 talk,
    decide p turn_total w = (r, w1)
    /\ stdout w1 = stdout w ++ talk /\ forallb is_dialogue talk = true
    /\ random_state w1 = random_state w
    /\ clock w1 = clock w /\ clock_reads w1 = clock_reads w
    /\ (r = Ok "r" \/ r = Ok "h"
        \/ (r = Raise EOFError /\ cls p = HumanPlayer /\ stdin w1 = []))
    /\ (cls p = ComputerPlayer -> w1 = w).
Proof.
  unfold decide. destruct (cls p) eqn:Hcls.
  - unfold HumanPlayer_decide.
    pose proof (HumanPlayer_decide_loop_talk (stdin w) (stdout w)) as H.
    destruct (HumanPlayer_decide_loop (stdin w) (stdout w)) as [[r rest] out'].
    destruct H as [Hr [talk [-> Htalk]]].
    eexists; eexists; exists talk. split; [reflexivity|]. simpl.
    do 5 (split; [auto|]). split; [|discriminate].
    destruct Hr as [-> | [-> | [-> ->]]]; auto.
  - exists (Ok (ComputerPlayer_decide p turn_total)), w, [].
    split; [reflexivity|]. rewrite app_nil_r.
    do 5 (split; [auto|]). split; [|auto].
    destruct (ComputerPlayer_decide_cases p turn_total) as [[_ ->] | [_ ->]]; auto.
Qed.

Lemma draws_S (s : rng_state) (j : nat) :
  draws s (S j)
  = (fst (draws s j) ++ [fst (random_randint_1_6 (snd (draws s j)))],
     snd (random_randint_1_6 (snd (draws s j)))).
Proof.
  simpl. destruct (draws s j) as [l s1]. simpl.
  destruct (random_randint_1_6 s1). reflexivity.
Qed.

End Books.

Section Ledger.

Context {R : RandomModule}.

#[local] Arguments draws : simpl never.

Ltac books :=
  rewrite ?banked_app, ?rolls_app, ?announced_app; simpl;
  rewrite ?Z.add_0_r, ?Z.add_0_l, ?app_nil_r.

Lemma ledger_PigGame_step (base : list output) (input : list string)
  (k1 k2 : player_class) (c : config) :
  ledger base input k1 k2 c -> ledger base input k1 k2 (PigGame_step c).
Proof.
  intros [out [k [j [a [b [Hout [Hps [Ha [Hb [Hrolls [Hrs [Hann [Hin Hat]]]]]]]]]]]]].
  destruct c as [pt g w]. destruct g as [d ps cp]. simpl in *. subst ps.
  unfold PigGame_step; simpl.
  destruct pt as [|turn_total|turn_total| |e].
  - (* the head of the outer loop *)
    subst cp.
    assert (Hcur : exists p,
               current {| die := d; players := [a; b]; current_player := turn_index k |}
               = Some p /\ name p = turn_name k).
    { unfold current, turn_index, turn_name. simpl.
      destruct (Nat.even k); eexists; (split; [reflexivity|]); subst; reflexivity. }
    destruct Hcur as [p [Hcur Hname]].
    rewrite (turn_start_eq _ _ p Hcur).
    exists (out ++ [TurnAnnounce (name p) (score p)]), (S k), j, a, b. simpl.
    split; [rewrite Hout, app_assoc; reflexivity|].
    split; [reflexivity|].
    split; [books; exact Ha|]. split; [books; exact Hb|].
    split; [books; exact Hrolls|]. split; [exact Hrs|].
    split; [books; rewrite Hann, turn_names_S, Hname; reflexivity|].
    split; [exact Hin|]. exists k. auto.
  - (* the body of the inner loop *)
    destruct Hat as [k' [Hk Hcp]]. subst cp.
    set (g := {| die := d; players := [a; b]; current_player := turn_index k' |}).
    assert (Hcur : exists p,
               current g = Some p
               /\ ((Nat.even k' = true /\ p = a) \/ (Nat.even k' = false /\ p = b))).
    { unfold current, g, turn_index. simpl.
      destruct (Nat.even k'); eexists; (split; [reflexivity|]); auto. }
    destruct Hcur as [p [Hcur Hp]].
    destruct (decide_anatomy p turn_total w)
      as [r [w1 [talk [Hd [Hout1 [Htalk [Hrs1 [_ [_ [Hr Hcomp]]]]]]]]]].
    destruct (dialogue_silent talk Htalk) as [Tann [Trolls [_ Tbank]]].
    assert (Hin1 : k1 = ComputerPlayer -> k2 = ComputerPlayer -> w1 = w).
    { intros E1 E2. apply Hcomp.
      destruct Hp as [[_ Hp] | [_ Hp]]; rewrite Hp; [rewrite Ha | rewrite Hb]; assumption. }
    destruct Hr as [-> | [-> | [-> [Hcls Hin0]]]].
    + (* a roll *)
      pose proof (Die_roll_spec w1) as Hdie.
      destruct (Die_roll w1) as [face w2] eqn:Eroll. simpl in Hdie.
      destruct Hdie as [Hface [Hso [Hsi [Hsr _]]]].
      rewrite (roll_or_hold_roll g w w1 w2 p turn_total face Hcur Hd Eroll).
      assert (Hdraw : rolls (out ++ talk ++ [Rolled (name p) face])
                      = fst (draws (random_seed 0) (S j))
                      /\ random_state w2 = snd (draws (random_seed 0) (S j))).
      { rewrite draws_S. simpl. books. rewrite Trolls. simpl.
        rewrite Hrolls, Hsr, Hface, Hrs1, Hrs. auto. }
      destruct Hdraw as [Hd1 Hd2].
      assert (Hstdin : k1 = ComputerPlayer -> k2 = ComputerPlayer -> stdin w2 = input).
      { intros E1 E2. rewrite Hsi, (Hin1 E1 E2). auto. }
      destruct (face =? 1).
      * exists (out ++ talk ++ [Rolled (name p) face; Bust]), k, (S j), a, b. simpl.
        split; [rewrite Hso, Hout1, Hout, <- !app_assoc; reflexivity|].
        split; [reflexivity|].
        split; [books; rewrite Tbank; books; exact Ha|].
        split; [books; rewrite Tbank; books; exact Hb|].
        split; [rewrite <- Hd1; books; rewrite Trolls; reflexivity|].
        split; [exact Hd2|].
        split; [books; rewrite Tann; books; exact Hann|].
        split; [exact Hstdin|]. exists k'. auto.
      * exists (out ++ talk
                  ++ [Rolled (name p) face;
                      TurnTotal (turn_total + face) (score p + (turn_total + face))]),
          k, (S j), a, b. simpl.
        split; [rewrite Hso, Hout1, Hout, <- !app_assoc; reflexivity|].
        split; [reflexivity|].
        split; [books; rewrite Tbank; books; exact Ha|].
        split; [books; rewrite Tbank; books; exact Hb|].
        split; [rewrite <- Hd1; books; rewrite Trolls; reflexivity|].
        split; [exact Hd2|].
        split; [books; rewrite Tann; books; exact Hann|].
        split; [exact Hstdin|]. exists k'. auto.
    + (* a hold *)
      rewrite (roll_or_hold_hold g w w1 p turn_total Hcur Hd).
      exists (out ++ talk ++ [Holds (name p) turn_total (score p + turn_total)]), k, j.
      unfold after_add_score, g, turn_index in *. simpl.
      destruct Hp as [[Ev ->] | [Ev ->]]; rewrite Ev; simpl.
      * exists (add_score a turn_total), b. simpl.
        split; [rewrite Hout1, Hout, <- !app_assoc; reflexivity|].
        split; [reflexivity|].
        split; [books; rewrite Tbank; subst a; simpl; books;
                change (String.eqb "Player 1" "Player 1") with true;
                unfold add_score; simpl; reflexivity|].
        split; [books; rewrite Tbank; subst a; simpl; books;
                change (String.eqb "Player 1" "Player 2") with false; books; exact Hb|].
        split; [books; rewrite Trolls; books; exact Hrolls|].
        split; [rewrite Hrs1; exact Hrs|].
        split; [books; rewrite Tann; books; exact Hann|].
        split; [intros E1 E2; rewrite (Hin1 E1 E2); auto|]. exists k'. rewrite Ev. auto.
      * exists a, (add_score b turn_total). simpl.
        split; [rewrite Hout1, Hout, <- !app_assoc; reflexivity|].
        split; [reflexivity|].
        split; [books; rewrite Tbank; subst b; simpl; books;
                change (String.eqb "Player 2" "Player 1") with false; books; exact Ha|].
        split; [books; rewrite Tbank; subst b; simpl; books;
                change (String.eqb "Player 2" "Player 2") with true;
                unfold add_score; simpl; reflexivity|].
        split; [books; rewrite Trolls; books; exact Hrolls|].
        split; [rewrite Hrs1; exact Hrs|].
        split; [books; rewrite Tann; books; exact Hann|].
        split; [intros E1 E2; rewrite (Hin1 E1 E2); auto|]. exists k'. rewrite Ev. auto.
    + (* the end of the input *)
      rewrite (roll_or_hold_raise g w w1 p turn_total EOFError Hcur Hd).
      exists (out ++ talk), k, j, a, b. simpl.
      split; [rewrite Hout1, Hout, <- !app_assoc; reflexivity|].
      split; [reflexivity|].
      split; [books; rewrite Tbank; books; exact Ha|].
      split; [books; rewrite Tbank; books; exact Hb|].
      split; [books; rewrite Trolls; books; exact Hrolls|].
      split; [rewrite Hrs1; exact Hrs|].
      split; [books; rewrite Tann; books; exact Hann|].
      split; [intros E1 E2; rewrite (Hin1 E1 E2); auto|].
      split; [reflexivity|]. split; [exact Hin0|]. exists k', p. auto.
  - (* the winner test *)
    destruct Hat as [k' [Hk Hcp]]. subst cp.
    set (g := {| die := d; players := [a; b]; current_player := turn_index k' |}).
    assert (Hcur : exists p, current g = Some p).
    { unfold current, g, turn_index. simpl. destruct (Nat.even k'); eexists; reflexivity. }
    destruct Hcur as [p Hcur].
    destruct (win_check_cases g w p Hcur) as [[_ ->] | [_ ->]].
    + exists (out ++ [Wins (name p) (score p)]), k, j, a, b. simpl.
      split; [rewrite Hout, app_assoc; reflexivity|].
      split; [reflexivity|].
      split; [books; exact Ha|]. split; [books; exact Hb|].
      split; [books; exact Hrolls|]. split; [exact Hrs|].
      split; [books; exact Hann|]. split; [exact Hin|].
      unfold turn_index. destruct (Nat.even k'); auto.
    + exists out, k, j, a, b. unfold switch_turn, g. simpl.
      do 8 (split; [assumption || reflexivity|]).
      rewrite Hk, turn_index_S. reflexivity.
  - exists out, k, j, a, b. simpl. auto 12.
  - exists out, k, j, a, b. simpl. auto 12.
Qed.

Lemma ledger_TimedGameProxy_step (start : float) (base : list output)
  (input : list string) (k1 k2 : player_class) (c : config) :
  ledger base input k1 k2 c -> ledger base input k1 k2 (TimedGameProxy_step start c).
Proof.
  intros Hl.
  destruct (time_is_up start (fst (time_time (the_world c)))) eqn:Hup.
  - destruct c as [pt g w].
    destruct pt as [|turn_total|turn_total| |e];
      try exact (ledger_PigGame_step base input k1 k2 _ Hl).
    + destruct Hl as [out [k [j [a [b [Hout [Hps [Ha [Hb [Hrolls [Hrs [Hann [Hin Hat]]]]]]]]]]]]].
      simpl in *. unfold TimedGameProxy_step. simpl. rewrite Hup.
      rewrite (determine_winner_eq g _ a b Hps).
      exists (out ++ [TimeUp; verdict a b]), k, j, a, b. simpl.
      split; [rewrite Hout, <- !app_assoc; reflexivity|].
      assert (Hv : announced [verdict a b] = [] /\ rolls [verdict a b] = []
                   /\ forall nm, banked nm [verdict a b] = 0).
      { unfold verdict. destruct (score a >? score b); [auto|].
        destruct (score b >? score a); auto. }
      destruct Hv as [V1 [V2 V3]].
      split; [exact Hps|].
      split; [rewrite banked_app; change (banked "Player 1" [TimeUp; verdict a b])
                with (banked "Player 1" [verdict a b]); rewrite V3, Z.add_0_r; exact Ha|].
      split; [rewrite banked_app; change (banked "Player 2" [TimeUp; verdict a b])
                with (banked "Player 2" [verdict a b]); rewrite V3, Z.add_0_r; exact Hb|].
      split; [rewrite rolls_app; change (rolls [TimeUp; verdict a b])
                with (rolls [verdict a b]); rewrite V2, app_nil_r; exact Hrolls|].
      split; [exact Hrs|].
      split; [rewrite announced_app; change (announced [TimeUp; verdict a b])
                with (announced [verdict a b]); rewrite V1, app_nil_r; exact Hann|].
      split; [exact Hin|]. rewrite Hat. unfold turn_index. destruct (Nat.even k); auto.
    + destruct Hl as [out [k [j [a [b [Hout [Hps [Ha [Hb [Hrolls [Hrs [Hann [Hin Hat]]]]]]]]]]]]].
      simpl in *. unfold TimedGameProxy_step. simpl. rewrite Hup.
      rewrite (determine_winner_eq g _ a b Hps).
      exists (out ++ [TimeUpDuringTurn; verdict a b]), k, j, a, b. simpl.
      split; [rewrite Hout, <- !app_assoc; reflexivity|].
      assert (Hv : announced [verdict a b] = [] /\ rolls [verdict a b] = []
                   /\ forall nm, banked nm [verdict a b] = 0).
      { unfold verdict. destruct (score a >? score b); [auto|].
        destruct (score b >? score a); auto. }
      destruct Hv as [V1 [V2 V3]].
      split; [exact Hps|].
      split; [rewrite banked_app;
              change (banked "Player 1" [TimeUpDuringTurn; verdict a b])
                with (banked "Player 1" [verdict a b]); rewrite V3, Z.add_0_r; exact Ha|].
      split; [rewrite banked_app;
              change (banked "Player 2" [TimeUpDuringTurn; verdict a b])
                with (banked "Player 2" [verdict a b]); rewrite V3, Z.add_0_r; exact Hb|].
      split; [rewrite rolls_app; change (rolls [TimeUpDuringTurn; verdict a b])
                with (rolls [verdict a b]); rewrite V2, app_nil_r; exact Hrolls|].
      split; [exact Hrs|].
      split; [rewrite announced_app; change (announced [TimeUpDuringTurn; verdict a b])
                with (announced [verdict a b]); rewrite V1, app_nil_r; exact Hann|].
      split; [exact Hin|].
      destruct Hat as [k' [_ ->]]. unfold turn_index. destruct (Nat.even k'); auto.
  - rewrite (TimedGameProxy_step_in_time start c Hup).
    apply ledger_PigGame_step.
    destruct Hl as [out [k [j [a [b Hl]]]]]. exists out, k, j, a, b.
    destruct c as [pt g w]. simpl in *. destruct pt; exact Hl.
Qed.

Lemma ledger_run (step : config -> config) (base : list output) (input : list string)
  (k1 k2 : player_class) :
  (forall c, ledger base input k1 k2 c -> ledger base input k1 k2 (step c)) ->
  forall n c, ledger base input k1 k2 c -> ledger base input k1 k2 (run step n c).
Proof.
  intros Hstep. induction n as [|n IH]; intros c Hc; [exact Hc|].
  simpl. apply IH, Hstep, Hc.
Qed.

Lemma ledger_start (first : output) (g : PigGame) (w : world) (k1 k2 : player_class) :
  g = {| die := DieObject;
         players := [Player_init k1 "Player 1"; Player_init k2 "Player 2"];
         current_player := 0 |} ->
  random_state w = random_seed 0 ->
  is_dialogue first = false ->
  announced [first] = [] -> rolls [first] = [] -> (forall nm, banked nm [first] = 0) ->
  ledger (stdout w) (stdin w) k1 k2
    {| at_point := TurnStart; the_game := g; the_world := print first w |}.
Proof.
  intros -> Hrs _ H1 H2 H3.
  exists [first], 0%nat, 0%nat, (Player_init k1 "Player 1"), (Player_init k2 "Player 2").
  split; [reflexivity|]. split; [reflexivity|].
  split; [rewrite H3; reflexivity|]. split; [rewrite H3; reflexivity|].
  split; [rewrite H2; reflexivity|]. split; [exact Hrs|].
  split; [rewrite H1; reflexivity|].
  split; reflexivity.
Qed.

(** Every game that one of the constructors has built keeps its books. *)
Lemma ledger_built (obj : game_object) (l1 l2 : string) (w w1 : world) :
  built obj l1 l2 w w1 ->
  exists k1 k2,
    create_player l1 "Player 1" = Ok (Player_init k1 "Player 1")
    /\ create_player l2 "Player 2" = Ok (Player_init k2 "Player 2")
    /\ forall n, ledger (stdout w1) (stdin w1) k1 k2 (game_after obj n w1).
Proof.
  destruct obj as [g | t]; simpl; intros Hb.
  - destruct (PigGame_init_ok _ _ _ _ _ Hb) as [k1 [k2 [Eg [E1 [E2 [_ [_ [Hrs _]]]]]]]].
    exists k1, k2. split; [exact E1|]. split; [exact E2|]. intros n.
    apply (ledger_run PigGame_step); [apply ledger_PigGame_step|].
    apply (ledger_start Welcome g w1 k1 k2 Eg Hrs); auto.
  - destruct (TimedGameProxy_init_ok _ _ _ _ _ Hb) as [w0 [Hg [_ [_ [_ [Hrs0 _]]]]]].
    destruct (PigGame_init_ok _ _ _ _ _ Hg) as [k1 [k2 [Eg [E1 [E2 [_ [_ [Hrs _]]]]]]]].
    exists k1, k2. split; [exact E1|]. split; [exact E2|]. intros n.
    apply (ledger_run (TimedGameProxy_step (start_time t)));
      [apply ledger_TimedGameProxy_step|].
    apply (ledger_start TimedStart (game t) w1 k1 k2 Eg); auto. congruence.
Qed.

End Ledger.

Section BooksKept.

Context {R : RandomModule}.

Lemma draws_length (s : rng_state) (j : nat) : List.length (fst (draws s j)) = j.
Proof.
  induction j as [|j IH]; [reflexivity|].
  rewrite draws_S. simpl. rewrite length_app, IH. simpl. lia.
Qed.

Lemma mover_of_turn (d : Die) (a b : Player) (i : nat) :
  name a = "Player 1" -> name b = "Player 2" ->
  exists p, current {| die := d; players := [a; b]; current_player := turn_index i |} = Some p
            /\ name p = turn_name i /\ (p = a \/ p = b).
Proof.
  intros Ha Hb. unfold current, turn_index, turn_name. simpl.
  destruct (Nat.even i); eexists; (split; [reflexivity|]); auto.
Qed.

(** X5. In every game, timed or not, the turns are announced alternately,
    Player 1 first: the names on the turn lines printed since [play] was
    entered are Player 1, Player 2, Player 1, ... ; while a turn is in
    progress the last name announced is that of the player to move, and at
    the start of a turn the player to move is the one whose name comes
    next. *)
Theorem turns_alternate (obj : game_object) (l1 l2 : string) (w w1 : world) (n : nat) :
  built obj l1 l2 w w1 ->
  let c := game_after obj n w1 in
  exists out k,
    stdout (the_world c) = stdout w1 ++ out
    /\ announced out = turn_names k
    /\ (at_point c = TurnStart ->
          exists p, current (the_game c) = Some p /\ name p = turn_name k)
    /\ (forall turn_total,
          at_point c = Rolling turn_total \/ at_point c = WinCheck turn_total ->
          exists k' p, k = S k' /\ current (the_game c) = Some p
                       /\ name p = turn_name k').
Proof.
  intros Hb c.
  destruct (ledger_built obj l1 l2 w w1 Hb) as [k1 [k2 [_ [_ Hl]]]].
  specialize (Hl n). fold c in Hl. clearbody c.
  destruct Hl as [out [k [j [a [b [Hout [Hps [Ha [Hb' [_ [_ [Hann [_ Hat]]]]]]]]]]]]].
  exists out, k. split; [exact Hout|]. split; [exact Hann|].
  destruct c as [pt g w']. destruct g as [d ps cp]. simpl in *. subst ps.
  assert (Hna : name a = "Player 1") by (rewrite Ha; reflexivity).
  assert (Hnb : name b = "Player 2") by (rewrite Hb'; reflexivity).
  split.
  - intros ->. subst cp.
    destruct (mover_of_turn d a b k Hna Hnb) as [p [Hp [Hn _]]]. eauto.
  - intros turn_total [-> | ->]; destruct Hat as [k' [-> ->]];
      destruct (mover_of_turn d a b k' Hna Hnb) as [p [Hp [Hn _]]]; eauto.
Qed.

(** X6. In every game, timed or not, each score is exactly the sum of the
    points that the "holds" lines printed since [play] was entered report
    for that player; the two players keep the names Player 1 and Player 2
    and the classes they were created with. *)
Theorem scores_are_banked_points (obj : game_object) (l1 l2 : string) (w w1 : world)
  (n : nat) :
  built obj l1 l2 w w1 ->
  let c := game_after obj n w1 in
  exists out a b,
    stdout (the_world c) = stdout w1 ++ out
    /\ players (the_game c) = [a; b]
    /\ name a = "Player 1" /\ name b = "Player 2"
    /\ score a = banked "Player 1" out /\ score b = banked "Player 2" out
    /\ create_player l1 "Player 1" = Ok (Player_init (cls a) "Player 1")
    /\ create_player l2 "Player 2" = Ok (Player_init (cls b) "Player 2").
Proof.
  intros Hb c.
  destruct (ledger_built obj l1 l2 w w1 Hb) as [k1 [k2 [E1 [E2 Hl]]]].
  specialize (Hl n). fold c in Hl. clearbody c.
  destruct Hl as [out [k [j [a [b [Hout [Hps [Ha [Hb' _]]]]]]]]].
  exists out, a, b. subst a b. simpl. auto 10.
Qed.

(** X7. In every game, timed or not, with humans or computers, the faces
    announced since [play] was entered are, in order, the first draws of the
    generator seeded with 0, and the generator stands right after them: no
    draw is skipped or hidden, and none is made by anything but a roll. *)
Theorem rolls_follow_generator (obj : game_object) (l1 l2 : string) (w w1 : world)
  (n : nat) :
  built obj l1 l2 w w1 ->
  let c := game_after obj n w1 in
  exists out,
    stdout (the_world c) = stdout w1 ++ out
    /\ rolls out = fst (draws (random_seed 0) (List.length (rolls out)))
    /\ random_state (the_world c)
       = snd (draws (random_seed 0) (List.length (rolls out))).
Proof.
  intros Hb c.
  destruct (ledger_built obj l1 l2 w w1 Hb) as [k1 [k2 [_ [_ Hl]]]].
  specialize (Hl n). fold c in Hl. clearbody c.
  destruct Hl as [out [k [j [a [b [Hout [_ [_ [_ [Hrolls [Hrs _]]]]]]]]]]].
  exists out. split; [exact Hout|].
  assert (Hj : List.length (rolls out) = j) by (rewrite Hrolls; apply draws_length).
  rewrite Hj. auto.
Qed.

(** X8. The only exception that can leave [play], timed or not, is the
    [EOFError] of a human whose input has run out: the player to move is
    then a human and nothing is left to read; in particular the indexing of
    [players] never fails. A game between two computers raises nothing and
    reads nothing. *)
Theorem play_raises_only_at_end_of_input (obj : game_object) (l1 l2 : string)
  (w w1 : world) (n : nat) :
  built obj l1 l2 w w1 ->
  let c := game_after obj n w1 in
  (forall e, at_point c = Raised e ->
     e = EOFError /\ stdin (the_world c) = []
     /\ exists p, current (the_game c) = Some p /\ cls p = HumanPlayer)
  /\ (is_casing "computer" l1 = true -> is_casing "computer" l2 = true ->
      stdin (the_world c) = stdin w1 /\ forall e, at_point c <> Raised e).
Proof.
  intros Hb c.
  destruct (ledger_built obj l1 l2 w w1 Hb) as [k1 [k2 [E1 [E2 Hl]]]].
  specialize (Hl n). fold c in Hl. clearbody c.
  destruct Hl as [out [k [j [a [b [_ [Hps [Ha [Hb' [_ [_ [_ [Hin Hat]]]]]]]]]]]]].
  assert (Hraise : forall e, at_point c = Raised e ->
            e = EOFError /\ stdin (the_world c) = []
            /\ exists p, current (the_game c) = Some p /\ cls p = HumanPlayer
                         /\ (p = a \/ p = b)).
  { intros e He. rewrite He in Hat. destruct Hat as [-> [H0 [k' [p [_ [Hcp [Hp Hcls]]]]]]].
    split; [reflexivity|]. split; [exact H0|]. exists p.
    split; [exact Hp|]. split; [exact Hcls|].
    destruct c as [pt g w']. destruct g as [d ps cp]. simpl in *. subst ps cp.
    assert (Hna : name a = "Player 1") by (rewrite Ha; reflexivity).
    assert (Hnb : name b = "Player 2") by (rewrite Hb'; reflexivity).
    destruct (mover_of_turn d a b k' Hna Hnb) as [p' [Hp' [_ Hor]]].
    assert (p' = p) by congruence. subst p'. exact Hor. }
  split.
  - intros e He. destruct (Hraise e He) as [H1 [H2 [p [H3 [H4 _]]]]]. eauto.
  - intros C1 C2.
    rewrite (create_player_computer l1 "Player 1" C1) in E1.
    rewrite (create_player_computer l2 "Player 2" C2) in E2.
    injection E1 as E1. injection E2 as E2.
    split; [apply Hin; congruence|].
    intros e He. destruct (Hraise e He) as [_ [_ [p [_ [Hcls Hor]]]]].
    destruct Hor as [-> | ->]; [rewrite Ha in Hcls | rewrite Hb' in Hcls];
      simpl in Hcls; congruence.
Qed.

End BooksKept.

(** ** Further properties: how far a computer can go *)

Section Bounds.

Context {R : RandomModule} {RR : RandintInRange R}.

Ltac finish :=
  repeat match goal with |- _ /\ _ => split end;
  try assumption; try (intros; simpl in *; lia); try (intros; simpl in *; congruence).

Lemma bounded_PigGame_step (c : config) : bounded c -> bounded (PigGame_step c).
Proof.
  intros [Hg [p [q [Hp [Hq [Hq100 Hat]]]]]].
  destruct c as [pt g w]. simpl in *. unfold PigGame_step. simpl.
  destruct pt as [|turn_total|turn_total| |e].
  - rewrite (turn_start_eq g w p Hp). unfold bounded. simpl.
    split; [exact Hg|]. exists p, q. finish.
  - destruct Hat as [Hp100 Hcomp].
    destruct (two_players_add_score g p turn_total Hg Hp) as [Hg' [Hp' Hq']].
    destruct (cls p) eqn:Hcls.
    + (* a human moves: nothing is promised about the turn total *)
      destruct (roll_or_hold_outcome g w turn_total p Hp) as [_ Hcase].
      unfold bounded.
      destruct Hcase as [[Hpt Hgame] | [[Hpt Hgame] | [[r [_ [_ [Hpt Hgame]]]] | [Hpt [Hgame _]]]]];
        rewrite Hpt, Hgame.
      * split; [exact Hg|]. exists p, q. finish.
      * split; [exact Hg|]. exists p, q. finish.
      * split; [exact Hg|]. exists p, q. finish.
      * split; [exact Hg'|]. exists (add_score p turn_total), q.
        rewrite Hq'. finish.
    + (* a computer moves *)
      destruct (Hcomp eq_refl) as [Htt Hsum].
      assert (Hd : decide p turn_total w = (Ok (ComputerPlayer_decide p turn_total), w))
        by (unfold decide; rewrite Hcls; reflexivity).
      destruct (ComputerPlayer_decide_cases p turn_total) as [[Hth E] | [Hth E]];
        rewrite E in Hd.
      * rewrite (roll_or_hold_hold g w w p turn_total Hp Hd). unfold bounded. simpl.
        split; [exact Hg'|]. exists (add_score p turn_total), q.
        rewrite Hq'. finish.
      * destruct (Die_roll w) as [face w2] eqn:Eroll.
        pose proof (Die_roll_spec w) as Hdie. rewrite Eroll in Hdie. simpl in Hdie.
        destruct Hdie as [Hface _].
        pose proof (randint_in_range (random_state w)) as Hrange.
        rewrite <- Hface in Hrange.
        rewrite (roll_or_hold_roll g w w w2 p turn_total face Hp Hd Eroll).
        unfold bounded.
        destruct (Z.eqb_spec face 1); simpl.
        -- split; [exact Hg|]. exists p, q. finish.
        -- split; [exact Hg|]. exists p, q. finish.
  - destruct (win_check_cases g w p Hp) as [[Hge ->] | [Hlt ->]]; unfold bounded; simpl.
    + split; [exact Hg|]. exists p, q. finish.
    + destruct (two_players_switch g Hg) as [Hg' [Hp' Hq']].
      split; [exact Hg'|]. exists q, p. rewrite Hp', Hq'. finish.
  - unfold bounded. simpl. split; [exact Hg|]. exists p, q. finish.
  - unfold bounded. simpl. split; [exact Hg|]. exists p, q. finish.
Qed.

Lemma bounded_TimedGameProxy_step (start : float) (c : config) :
  bounded c -> bounded (TimedGameProxy_step start c).
Proof.
  intros Hb.
  destruct (time_is_up start (fst (time_time (the_world c)))) eqn:Hup.
  - destruct c as [pt g w].
    destruct pt as [|turn_total|turn_total| |e]; try exact (bounded_PigGame_step _ Hb).
    + destruct Hb as [Hg [p [q [Hp [Hq [Hq100 Hat]]]]]]. simpl in *.
      pose proof Hg as [[a [b Hps]] _].
      unfold TimedGameProxy_step. simpl. rewrite Hup, (determine_winner_eq g _ a b Hps).
      unfold bounded. simpl. split; [exact Hg|]. exists p, q. finish.
    + destruct Hb as [Hg [p [q [Hp [Hq [Hq100 [Hp100 _]]]]]]]. simpl in *.
      pose proof Hg as [[a [b Hps]] _].
      unfold TimedGameProxy_step. simpl. rewrite Hup, (determine_winner_eq g _ a b Hps).
      unfold bounded. simpl. split; [exact Hg|]. exists p, q. finish.
  - rewrite (TimedGameProxy_step_in_time start c Hup).
    apply bounded_PigGame_step.
    destruct c as [pt g w]. destruct pt; exact Hb.
Qed.

(** X9. With a die that shows 1 to 6, in every game, timed or not: a
    computer never lets its turn total pass 30, and no computer's score ever
    passes 105 (it holds as soon as holding would bring it to 100); the
    opponent of the player to move is always below 100. *)
Theorem computer_never_overshoots (obj : game_object) (l1 l2 : string) (w w1 : world)
  (n : nat) :
  built obj l1 l2 w w1 ->
  let c := game_after obj n w1 in
  exists p q,
    current (the_game c) = Some p /\ opponent (the_game c) = Some q
    /\ score q < 100
    /\ (cls p = ComputerPlayer ->
        score p <= 105
        /\ forall turn_total, at_point c = Rolling turn_total ->
             0 <= turn_total <= 30 /\ score p + turn_total <= 105).
Proof.
  intros Hb c.
  assert (Hinv : bounded c).
  { subst c.
    assert (Hstart : forall (g : PigGame) (w0 : world) k1 k2,
               g = {| die := DieObject;
                      players := [Player_init k1 "Player 1"; Player_init k2 "Player 2"];
                      current_player := 0 |} ->
               bounded {| at_point := TurnStart; the_game := g; the_world := w0 |}).
    { intros g w0 k1 k2 ->. unfold bounded, two_players. simpl.
      split; [split; [eauto | auto]|].
      eexists; eexists. split; [reflexivity|]. split; [reflexivity|]. simpl. lia. }
    assert (Hrun : forall step, (forall c, bounded c -> bounded (step c)) ->
                   forall m c, bounded c -> bounded (run step m c)).
    { intros step Hstep. induction m as [|m IH]; intros c Hc; [exact Hc|].
      simpl. apply IH, Hstep, Hc. }
    destruct obj as [g | t]; simpl in *.
    - destruct (PigGame_init_ok _ _ _ _ _ Hb) as [k1 [k2 [Eg _]]].
      apply (Hrun PigGame_step bounded_PigGame_step), (Hstart g _ k1 k2 Eg).
    - destruct (TimedGameProxy_init_ok _ _ _ _ _ Hb) as [w0 [Hg _]].
      destruct (PigGame_init_ok _ _ _ _ _ Hg) as [k1 [k2 [Eg _]]].
      apply (Hrun _ (bounded_TimedGameProxy_step (start_time t))),
        (Hstart (game t) _ k1 k2 Eg). }
  clearbody c.
  destruct Hinv as [Hg [p [q [Hp [Hq [Hq100 Hat]]]]]].
  exists p, q. do 3 (split; [assumption|]).
  intros Hcls. destruct (at_point c) as [|turn_total|turn_total| |e].
  - split; [lia|]. intros tt E. discriminate.
  - destruct Hat as [Hp100 Hcomp]. split; [lia|]. intros tt E. injection E as <-. auto.
  - split; [auto|]. intros tt E. discriminate.
  - split; [auto|]. intros tt E. discriminate.
  - split; [lia|]. intros tt E. discriminate.
Qed.

End Bounds.

(** ** Further properties: the timed game before and after the deadline *)

Lemma HumanPlayer_decide_loop_from (lines : list string) (out : list output) :
  HumanPlayer_decide_loop lines out
  = let '(r, rest, talk) := HumanPlayer_decide_loop lines [] in (r, rest, out ++ talk).
Proof.
  revert out. induction lines as [|l lines IH]; intros out; simpl; [reflexivity|].
  destruct (String.eqb (lower (strip l)) "r" || String.eqb (lower (strip l)) "h");
    [reflexivity|].
  rewrite (IH ((out ++ [Prompt "Enter 'r' to roll or 'h' to hold: "]) ++ [InvalidInput])).
  rewrite (IH [Prompt "Enter 'r' to roll or 'h' to hold: "; InvalidInput]).
  destruct (HumanPlayer_decide_loop lines []) as [[r rest] talk].
  rewrite <- !app_assoc. reflexivity.
Qed.

Section Deadline.

Context {R : RandomModule}.

Lemma world_alike_print (W1 W2 w1 w2 : world) (o : output) :
  world_alike W1 W2 w1 w2 -> world_alike W1 W2 (print o w1) (print o w2).
Proof.
  intros [H1 [H2 [H3 [H4 [out [H5 H6]]]]]]. unfold world_alike. simpl.
  do 4 (split; [assumption|]).
  exists (out ++ [o]). rewrite H5, H6, <- !app_assoc. auto.
Qed.

Lemma world_alike_decide (W1 W2 w1 w2 : world) (p : Player) (turn_total : Z) :
  world_alike W1 W2 w1 w2 ->
  fst (decide p turn_total w1) = fst (decide p turn_total w2)
  /\ world_alike W1 W2 (snd (decide p turn_total w1)) (snd (decide p turn_total w2)).
Proof.
  intros [H1 [H2 [H3 [H4 [out [H5 H6]]]]]]. unfold decide. destruct (cls p).
  - unfold HumanPlayer_decide.
    rewrite (HumanPlayer_decide_loop_from (stdin w1) (stdout w1)).
    rewrite (HumanPlayer_decide_loop_from (stdin w2) (stdout w2)).
    rewrite H1. destruct (HumanPlayer_decide_loop (stdin w2) []) as [[r rest] talk].
    simpl. split; [reflexivity|]. unfold world_alike. simpl.
    do 4 (split; [auto|]).
    exists (out ++ talk). rewrite H5, H6, <- !app_assoc. auto.
  - simpl. split; [reflexivity|]. unfold world_alike. eauto 10.
Qed.

Lemma world_alike_Die_roll (W1 W2 w1 w2 : world) :
  world_alike W1 W2 w1 w2 ->
  fst (Die_roll w1) = fst (Die_roll w2)
  /\ world_alike W1 W2 (snd (Die_roll w1)) (snd (Die_roll w2)).
Proof.
  intros [H1 [H2 [H3 [H4 Hout]]]]. unfold Die_roll. rewrite H2.
  destruct (random_randint_1_6 (random_state w2)) as [r s]. simpl.
  split; [reflexivity|]. unfold world_alike. simpl. auto.
Qed.

Lemma alike_roll_or_hold (W1 W2 w1 w2 : world) (g : PigGame) (turn_total : Z) :
  two_players g -> world_alike W1 W2 w1 w2 ->
  alike W1 W2 (roll_or_hold g w1 turn_total) (roll_or_hold g w2 turn_total).
Proof.
  intros Hg Hw.
  destruct (two_players_current g Hg) as [p [q [Hp _]]].
  destruct (world_alike_decide W1 W2 w1 w2 p turn_total Hw) as [Hr Hw'].
  destruct (decide_anatomy p turn_total w1) as [r [u1 [_ [Hd1 [_ [_ [_ [_ [_ [Hcase _]]]]]]]]]].
  destruct (decide p turn_total w2) as [r2 u2] eqn:Hd2.
  rewrite Hd1 in Hr, Hw'. simpl in Hr, Hw'. subst r2.
  destruct Hcase as [-> | [-> | [-> _]]].
  - destruct (world_alike_Die_roll W1 W2 u1 u2 Hw') as [Hface Hw''].
    destruct (Die_roll u1) as [face v1] eqn:E1. destruct (Die_roll u2) as [face' v2] eqn:E2.
    simpl in Hface, Hw''. subst face'.
    rewrite (roll_or_hold_roll g w1 u1 v1 p turn_total face Hp Hd1 E1).
    rewrite (roll_or_hold_roll g w2 u2 v2 p turn_total face Hp Hd2 E2).
    unfold alike. destruct (face =? 1); simpl;
      (split; [reflexivity|]; split; [reflexivity|]);
      repeat apply world_alike_print; exact Hw''.
  - rewrite (roll_or_hold_hold g w1 u1 p turn_total Hp Hd1).
    rewrite (roll_or_hold_hold g w2 u2 p turn_total Hp Hd2).
    unfold alike. simpl. split; [reflexivity|]. split; [reflexivity|].
    apply world_alike_print, Hw'.
  - rewrite (roll_or_hold_raise g w1 u1 p turn_total EOFError Hp Hd1).
    rewrite (roll_or_hold_raise g w2 u2 p turn_total EOFError Hp Hd2).
    unfold alike. simpl. auto.
Qed.

Lemma alike_PigGame_step (W1 W2 : world) (c1 c2 : config) :
  two_players (the_game c1) -> alike W1 W2 c1 c2 ->
  alike W1 W2 (PigGame_step c1) (PigGame_step c2).
Proof.
  intros Hg [Hpt [Hgame Hw]].
  destruct c1 as [pt g w1]. destruct c2 as [pt2 g2 w2]. simpl in *. subst pt2 g2.
  destruct (two_players_current g Hg) as [p [q [Hp _]]].
  unfold PigGame_step. simpl.
  destruct pt as [|turn_total|turn_total| |e].
  - rewrite !(turn_start_eq g _ p Hp). unfold alike. simpl.
    split; [reflexivity|]. split; [reflexivity|]. apply world_alike_print, Hw.
  - apply alike_roll_or_hold; assumption.
  - destruct (win_check_cases g w1 p Hp) as [[Hge E1] | [Hlt E1]];
      destruct (win_check_cases g w2 p Hp) as [[Hge2 E2] | [Hlt2 E2]]; try lia;
      rewrite E1, E2; unfold alike; simpl.
    + split; [reflexivity|]. split; [reflexivity|]. apply world_alike_print, Hw.
    + auto.
  - unfold alike. simpl. auto.
  - unfold alike. simpl. auto.
Qed.

(** X10. A timed game whose clock never shows 60 seconds or more past
    [start_time] is the untimed game: after any number of transitions
    [TimedGameProxy.play] and [PigGame.play] on the same game and world are
    at the same point with the same players and scores, the same input left,
    the same generator state, and, after their different first lines, the
    same lines printed. *)
Theorem timed_game_before_deadline (l1 l2 : string) (w w1 : world) (t : TimedGameProxy)
  (n : nat) :
  TimedGameProxy_init l1 l2 w = (Ok t, w1) ->
  (forall k, time_is_up (start_time t) (clock w1 k) = false) ->
  let ct := TimedGameProxy_play n t w1 in
  let cu := PigGame_play n (game t) w1 in
  at_point ct = at_point cu /\ the_game ct = the_game cu
  /\ stdin (the_world ct) = stdin (the_world cu)
  /\ random_state (the_world ct) = random_state (the_world cu)
  /\ exists out, stdout (the_world ct) = stdout w1 ++ TimedStart :: out
                 /\ stdout (the_world cu) = stdout w1 ++ Welcome :: out.
Proof.
  intros Hinit Hclock ct cu.
  destruct (TimedGameProxy_init_ok _ _ _ _ _ Hinit) as [w0 [Hg _]].
  destruct (PigGame_init_ok _ _ _ _ _ Hg) as [k1 [k2 [Eg _]]].
  set (W1 := print TimedStart w1). set (W2 := print Welcome w1).
  assert (Hrun : forall m c1 c2,
             two_players (the_game c1) -> alike W1 W2 c1 c2 ->
             alike W1 W2 (run (TimedGameProxy_step (start_time t)) m c1)
                         (run PigGame_step m c2)).
  { induction m as [|m IH]; intros c1 c2 Htwo Hal; [exact Hal|]. simpl.
    assert (Hup : time_is_up (start_time t) (fst (time_time (the_world c1))) = false).
    { destruct Hal as [_ [_ [_ [_ [Hc _]]]]]. simpl. rewrite Hc. apply Hclock. }
    apply IH.
    - apply two_players_TimedGameProxy_step, Htwo.
    - rewrite (TimedGameProxy_step_in_time _ c1 Hup).
      apply alike_PigGame_step; [exact Htwo|].
      destruct Hal as [Hpt [Hgame [H1 [H2 [H3 [H4 Hout]]]]]].
      unfold alike, world_alike. simpl.
      split; [exact Hpt|]. split; [exact Hgame|].
      destruct (at_point c1); simpl; auto 10. }
  assert (Hal : alike W1 W2 ct cu).
  { apply Hrun.
    - simpl. rewrite Eg. split; simpl; eauto.
    - unfold alike, world_alike. simpl. do 6 (split; [reflexivity|]).
      exists []. rewrite !app_nil_r. auto. }
  clearbody ct cu.
  destruct Hal as [Hpt [Hgame [H1 [H2 [_ [_ [out [Ho1 Ho2]]]]]]]].
  do 4 (split; [assumption|]).
  exists out. rewrite Ho1, Ho2. unfold W1, W2. simpl. rewrite <- !app_assoc. auto.
Qed.

End Deadline.

Section DeadlineReached.

Context {R : RandomModule}.

Lemma roll_or_hold_clock (g : PigGame) (w : world) (turn_total : Z) :
  clock (the_world (roll_or_hold g w turn_total)) = clock w
  /\ clock_reads (the_world (roll_or_hold g w turn_total)) = clock_reads w.
Proof.
  destruct (current g) as [p|] eqn:Hp.
  - destruct (decide_anatomy p turn_total w)
      as [r [w1 [_ [Hd [_ [_ [_ [Hc [Hr [Hcase _]]]]]]]]]].
    destruct Hcase as [-> | [-> | [-> _]]].
    + destruct (Die_roll w1) as [face w2] eqn:E.
      pose proof (Die_roll_spec w1) as Hdie. rewrite E in Hdie. simpl in Hdie.
      destruct Hdie as [_ [_ [_ [_ [Hc2 Hr2]]]]].
      rewrite (roll_or_hold_roll g w w1 w2 p turn_total face Hp Hd E).
      destruct (face =? 1); simpl; rewrite Hc2, Hr2; auto.
    + rewrite (roll_or_hold_hold g w w1 p turn_total Hp Hd). simpl. auto.
    + rewrite (roll_or_hold_raise g w w1 p turn_total EOFError Hp Hd). simpl. auto.
  - unfold roll_or_hold. rewrite Hp. simpl. auto.
Qed.

Lemma determine_winner_finished (g : PigGame) (w : world) :
  finished (at_point (determine_winner g w))
  /\ clock (the_world (determine_winner g w)) = clock w
  /\ clock_reads (the_world (determine_winner g w)) = clock_reads w.
Proof.
  unfold determine_winner, finished.
  destruct (players g) as [|p1 [|p2 [|p3 ps]]]; simpl.
  - split; [eauto | auto].
  - split; [eauto | auto].
  - split; [auto|].
    destruct (score p1 >? score p2); [simpl; auto|].
    destruct (score p2 >? score p1); simpl; auto.
  - split; [eauto | auto].
Qed.

Lemma deadline_progress (start : float) (c : config) :
  let c' := TimedGameProxy_step start c in
  clock (the_world c') = clock (the_world c)
  /\ match at_point c with
     | TurnStart | Rolling _ =>
         clock_reads (the_world c') = S (clock_reads (the_world c))
         /\ (time_is_up start (clock (the_world c) (clock_reads (the_world c))) = true ->
             finished (at_point c'))
     | WinCheck _ =>
         clock_reads (the_world c') = clock_reads (the_world c)
         /\ (finished (at_point c') \/ at_point c' = TurnStart)
     | Returned | Raised _ => c' = c
     end.
Proof.
  destruct c as [pt g w]. unfold TimedGameProxy_step. simpl.
  destruct pt as [|turn_total|turn_total| |e]; simpl.
  - destruct (time_is_up start (clock w (clock_reads w))).
    + destruct (determine_winner_finished g (print TimeUp (snd (time_time w))))
        as [Hf [Hc Hr]].
      simpl in Hf, Hc, Hr. rewrite Hc, Hr. auto.
    + unfold turn_start. destruct (current g); simpl;
        (split; [reflexivity|]); (split; [reflexivity|]); discriminate.
  - destruct (time_is_up start (clock w (clock_reads w))).
    + destruct (determine_winner_finished g (print TimeUpDuringTurn (snd (time_time w))))
        as [Hf [Hc Hr]].
      simpl in Hf, Hc, Hr. rewrite Hc, Hr. auto.
    + destruct (roll_or_hold_clock g (snd (time_time w)) turn_total) as [Hc Hr].
      simpl in Hc, Hr. rewrite Hc, Hr. split; [reflexivity|]. split; [reflexivity|].
      discriminate.
  - unfold win_check, finished. destruct (current g) as [p|]; simpl; [|eauto 6].
    destruct (score p >=? 100); simpl; auto.
  - auto.
  - auto.
Qed.

Lemma finished_stays (start : float) (n : nat) (c : config) :
  finished (at_point c) -> run (TimedGameProxy_step start) n c = c.
Proof.
  intros Hf. apply run_Returned. destruct c as [pt g w]. simpl in Hf.
  destruct Hf as [-> | [e ->]]; reflexivity.
Qed.

Lemma deadline_two_steps (start : float) (K : nat) (c : config) :
  (forall k, (K <= k)%nat -> time_is_up start (clock (the_world c) k) = true) ->
  let c2 := run (TimedGameProxy_step start) 2 c in
  clock (the_world c2) = clock (the_world c)
  /\ (finished (at_point c2)
      \/ (S (clock_reads (the_world c)) <= clock_reads (the_world c2))%nat)
  /\ ((K <= clock_reads (the_world c))%nat -> finished (at_point c2)).
Proof.
  intros Hup. simpl.
  set (c1 := TimedGameProxy_step start c).
  pose proof (deadline_progress start c) as H1. fold c1 in H1. cbv zeta in H1.
  pose proof (deadline_progress start c1) as H2. cbv zeta in H2.
  destruct H1 as [Hc1 H1]. destruct H2 as [Hc2 H2].
  split; [congruence|].
  assert (Hfin1 : finished (at_point c1) ->
                  finished (at_point (TimedGameProxy_step start c1))
                  /\ TimedGameProxy_step start c1 = c1).
  { intros Hf. assert (E : TimedGameProxy_step start c1 = c1).
    { destruct c1 as [pt g w]. simpl in Hf. destruct Hf as [-> | [e ->]]; reflexivity. }
    rewrite E. auto. }
  assert (Hmono : (clock_reads (the_world c1)
                   <= clock_reads (the_world (TimedGameProxy_step start c1)))%nat).
  { destruct (at_point c1);
      [destruct H2 as [H2 _]; lia | destruct H2 as [H2 _]; lia
      | destruct H2 as [H2 _]; lia | rewrite H2; lia | rewrite H2; lia]. }
  destruct (at_point c) eqn:Hpt.
  - destruct H1 as [Hr1 Hf1]. split; [right; lia|].
    intros HK. apply Hfin1, Hf1, Hup, HK.
  - destruct H1 as [Hr1 Hf1]. split; [right; lia|].
    intros HK. apply Hfin1, Hf1, Hup, HK.
  - destruct H1 as [Hr1 [Hf1 | Ht1]].
    + split; [left; apply Hfin1, Hf1 | intros _; apply Hfin1, Hf1].
    + rewrite Ht1 in H2. destruct H2 as [Hr2 Hf2]. split; [right; lia|].
      intros HK. apply Hf2. rewrite Hc1. apply Hup. lia.
  - rewrite H1 in *. assert (Hf : finished (at_point c)) by (left; exact Hpt).
    split; [left; apply Hfin1, Hf | intros _; apply Hfin1, Hf].
  - rewrite H1 in *. assert (Hf : finished (at_point c)) by (right; eauto).
    split; [left; apply Hfin1, Hf | intros _; apply Hfin1, Hf].
Qed.

Lemma deadline_run (start : float) (K d : nat) (c : config) :
  (forall k, (K <= k)%nat -> time_is_up start (clock (the_world c) k) = true) ->
  (K <= clock_reads (the_world c) + d)%nat ->
  finished (at_point (run (TimedGameProxy_step start) (2 * d + 2) c)).
Proof.
  revert c. induction d as [|d IH]; intros c Hup HK.
  - apply (deadline_two_steps start K c Hup). lia.
  - replace (2 * S d + 2)%nat with (2 + (2 * d + 2))%nat by lia. rewrite run_add.
    destruct (deadline_two_steps start K c Hup) as [Hc [[Hf | Hr] _]].
    + rewrite finished_stays; assumption.
    + apply IH; [rewrite Hc; exact Hup | lia].
Qed.

(** X11. A timed game cannot go on for ever once the clock has passed the
    deadline: if every reading from the [K]-th on is 60 seconds or more past
    [start_time], then after [2 K + 2] transitions [play] has returned, or
    has been left by the [EOFError] of a human, and stays as it is. *)
Theorem timed_game_ends (l1 l2 : string) (w w1 : world) (t : TimedGameProxy)
  (K m : nat) :
  TimedGameProxy_init l1 l2 w = (Ok t, w1) ->
  (forall k, (K <= k)%nat -> time_is_up (start_time t) (clock w1 k) = true) ->
  let c := TimedGameProxy_play (2 * K + 2) t w1 in
  (at_point c = Returned \/ at_point c = Raised EOFError)
  /\ TimedGameProxy_play (2 * K + 2 + m) t w1 = c.
Proof.
  intros Hinit Hup c.
  assert (Hf : finished (at_point c)).
  { apply (deadline_run (start_time t) K K); [exact Hup | simpl; lia]. }
  split.
  - destruct Hf as [Hf | [e Hf]]; [auto|]. right.
    destruct (ledger_built (Timed t) l1 l2 w w1 Hinit) as [k1 [k2 [_ [_ Hl]]]].
    specialize (Hl (2 * K + 2)%nat).
    change (ledger (stdout w1) (stdin w1) k1 k2 c) in Hl. clearbody c.
    destruct Hl as [out [k [j [a [b [_ [_ [_ [_ [_ [_ [_ [_ Hat]]]]]]]]]]]]].
    rewrite Hf in Hat. destruct Hat as [-> _]. exact Hf.
  - unfold TimedGameProxy_play. rewrite run_add. apply finished_stays, Hf.
Qed.

End DeadlineReached.

(** ** Further properties: one result, at the end *)

Lemma results_app (x y : list output) : results (x ++ y) = results x ++ results y.
Proof. apply filter_app. Qed.

Lemma dialogue_no_result (talk : list output) :
  forallb is_dialogue talk = true -> results talk = [].
Proof.
  induction talk as [|o talk IH]; simpl; [reflexivity|].
  rewrite andb_true_iff. intros [Ho H]. destruct o; try discriminate; simpl; auto.
Qed.

Section Result.

Context {R : RandomModule}.

Lemma roll_or_hold_no_result (g : PigGame) (w : world) (turn_total : Z) (p : Player) :
  current g = Some p ->
  at_point (roll_or_hold g w turn_total) <> Returned
  /\ exists extra, stdout (the_world (roll_or_hold g w turn_total)) = stdout w ++ extra
                   /\ results extra = [].
Proof.
  intros Hp.
  destruct (decide_anatomy p turn_total w)
    as [r [w1 [talk [Hd [Hout [Htalk [_ [_ [_ [Hcase _]]]]]]]]]].
  pose proof (dialogue_no_result talk Htalk) as Hres.
  destruct Hcase as [-> | [-> | [-> _]]].
  - destruct (Die_roll w1) as [face w2] eqn:E.
    pose proof (Die_roll_spec w1) as Hdie. rewrite E in Hdie. simpl in Hdie.
    destruct Hdie as [_ [Hso _]].
    rewrite (roll_or_hold_roll g w w1 w2 p turn_total face Hp Hd E).
    destruct (face =? 1); simpl; (split; [discriminate|]).
    + exists (talk ++ [Rolled (name p) face; Bust]).
      rewrite Hso, Hout, results_app, Hres, <- !app_assoc. auto.
    + exists (talk ++ [Rolled (name p) face;
                      TurnTotal (turn_total + face) (score p + (turn_total + face))]).
      rewrite Hso, Hout, results_app, Hres, <- !app_assoc. auto.
  - rewrite (roll_or_hold_hold g w w1 p turn_total Hp Hd). simpl.
    split; [discriminate|].
    exists (talk ++ [Holds (name p) turn_total (score p + turn_total)]).
    rewrite Hout, results_app, Hres, <- !app_assoc. auto.
  - rewrite (roll_or_hold_raise g w w1 p turn_total EOFError Hp Hd). simpl.
    split; [discriminate|]. exists talk. auto.
Qed.

Lemma reported_PigGame_step (base : list output) (c : config) :
  reported base c -> reported base (PigGame_step c).
Proof.
  intros [Hg [out [Hout Hat]]].
  destruct (two_players_current _ Hg) as [p [q [Hp _]]].
  destruct c as [pt g w]. simpl in *. unfold PigGame_step. simpl.
  destruct pt as [|turn_total|turn_total| |e].
  - rewrite (turn_start_eq g w p Hp). split; [exact Hg|]. simpl.
    exists (out ++ [TurnAnnounce (name p) (score p)]).
    split; [rewrite Hout, app_assoc; reflexivity|].
    rewrite results_app, Hat. reflexivity.
  - destruct (roll_or_hold_no_result g w turn_total p Hp) as [Hne [extra [Hex Hres]]].
    split; [apply (two_players_PigGame_step
                     {| at_point := Rolling turn_total; the_game := g; the_world := w |}),
              Hg|].
    exists (out ++ extra). split; [rewrite Hex, Hout, app_assoc; reflexivity|].
    destruct (at_point (roll_or_hold g w turn_total)); try congruence;
      rewrite results_app, Hat, Hres; reflexivity.
  - destruct (win_check_cases g w p Hp) as [[Hge ->] | [Hlt ->]].
    + split; [exact Hg|]. simpl. exists (out ++ [Wins (name p) (score p)]).
      split; [rewrite Hout, app_assoc; reflexivity|].
      exists out, (Wins (name p) (score p)). split; [reflexivity|]. split; [exact Hat|].
      left. exists p. auto.
    + split; [apply (two_players_switch g Hg)|]. simpl. exists out. auto.
  - split; [exact Hg|]. exists out. auto.
  - split; [exact Hg|]. exists out. auto.
Qed.

Lemma reported_TimedGameProxy_step (start : float) (base : list output) (c : config) :
  reported base c -> reported base (TimedGameProxy_step start c).
Proof.
  intros Hrep.
  destruct (time_is_up start (fst (time_time (the_world c)))) eqn:Hup.
  - destruct c as [pt g w].
    destruct pt as [|turn_total|turn_total| |e];
      try exact (reported_PigGame_step base _ Hrep).
    + destruct Hrep as [Hg [out [Hout Hat]]]. simpl in *.
      pose proof Hg as [[a [b Hps]] _].
      unfold TimedGameProxy_step. simpl. rewrite Hup, (determine_winner_eq g _ a b Hps).
      split; [exact Hg|]. simpl. exists (out ++ [TimeUp; verdict a b]).
      split; [rewrite Hout, <- !app_assoc; reflexivity|].
      exists (out ++ [TimeUp]), (verdict a b).
      split; [rewrite <- app_assoc; reflexivity|].
      split; [rewrite results_app, Hat; reflexivity|]. right. eauto.
    + destruct Hrep as [Hg [out [Hout Hat]]]. simpl in *.
      pose proof Hg as [[a [b Hps]] _].
      unfold TimedGameProxy_step. simpl. rewrite Hup, (determine_winner_eq g _ a b Hps).
      split; [exact Hg|]. simpl. exists (out ++ [TimeUpDuringTurn; verdict a b]).
      split; [rewrite Hout, <- !app_assoc; reflexivity|].
      exists (out ++ [TimeUpDuringTurn]), (verdict a b).
      split; [rewrite <- app_assoc; reflexivity|].
      split; [rewrite results_app, Hat; reflexivity|]. right. eauto.
  - rewrite (TimedGameProxy_step_in_time start c Hup).
    apply reported_PigGame_step.
    destruct Hrep as [Hg [out [Hout Hat]]]. split; [exact Hg|]. exists out.
    destruct c as [pt g w]. simpl in *. destruct pt; auto.
Qed.

(** X12. Every game, timed or not, reports its result exactly once and at
    the very end: while [play] has not returned, and after an exception, no
    result line has been printed since it was entered; once it has returned
    exactly one has been, as the last line, and it is either the winner line
    of the player to move, who has 100 points or more, or the verdict of
    [determine_winner] on the two scores as they stand. *)
Theorem one_result_at_the_end (obj : game_object) (l1 l2 : string) (w w1 : world)
  (n : nat) :
  built obj l1 l2 w w1 ->
  let c := game_after obj n w1 in
  exists out,
    stdout (the_world c) = stdout w1 ++ out
    /\ (at_point c <> Returned -> results out = [])
    /\ (at_point c = Returned ->
        exists out0 line,
          out = out0 ++ [line] /\ results out0 = [] /\ results out = [line]
          /\ ((exists p, current (the_game c) = Some p /\ 100 <= score p
                         /\ line = Wins (name p) (score p))
              \/ (exists a b, players (the_game c) = [a; b] /\ line = verdict a b))).
Proof.
  intros Hb c.
  assert (Hinv : reported (stdout w1) c).
  { subst c.
    assert (Hstart : forall (first : output) (g : PigGame) k1 k2,
               is_result first = false ->
               g = {| die := DieObject;
                      players := [Player_init k1 "Player 1"; Player_init k2 "Player 2"];
                      current_player := 0 |} ->
               reported (stdout w1)
                 {| at_point := TurnStart; the_game := g; the_world := print first w1 |}).
    { intros first g k1 k2 Hfirst ->. split; [split; simpl; eauto|]. simpl.
      exists [first]. split; [reflexivity|]. unfold results. simpl. rewrite Hfirst.
      reflexivity. }
    assert (Hrun : forall step,
               (forall c, reported (stdout w1) c -> reported (stdout w1) (step c)) ->
               forall m c, reported (stdout w1) c -> reported (stdout w1) (run step m c)).
    { intros step Hstep. induction m as [|m IH]; intros c Hc; [exact Hc|].
      simpl. apply IH, Hstep, Hc. }
    destruct obj as [g | t]; simpl in *.
    - destruct (PigGame_init_ok _ _ _ _ _ Hb) as [k1 [k2 [Eg _]]].
      apply (Hrun PigGame_step (reported_PigGame_step (stdout w1))),
        (Hstart Welcome g k1 k2 eq_refl Eg).
    - destruct (TimedGameProxy_init_ok _ _ _ _ _ Hb) as [w0 [Hg _]].
      destruct (PigGame_init_ok _ _ _ _ _ Hg) as [k1 [k2 [Eg _]]].
      apply (Hrun _ (reported_TimedGameProxy_step (start_time t) (stdout w1))),
        (Hstart TimedStart (game t) k1 k2 eq_refl Eg). }
  clearbody c. destruct Hinv as [_ [out [Hout Hat]]].
  exists out. split; [exact Hout|]. split.
  - intros Hne. destruct (at_point c); try exact Hat. congruence.
  - intros Hret. rewrite Hret in Hat. destruct Hat as [out0 [line [E [H0 Hline]]]].
    exists out0, line. split; [exact E|]. split; [exact H0|]. split; [|exact Hline].
    rewrite E, results_app, H0. unfold results. simpl.
    assert (Hr : is_result line = true).
    { destruct Hline as [[p [_ [_ ->]]] | [a [b [_ ->]]]]; [reflexivity|].
      unfold verdict. destruct (score a >? score b); [reflexivity|].
      destruct (score b >? score a); reflexivity. }
    rewrite Hr. reflexivity.
Qed.

End Result.

(** ** The further properties at work on concrete games *)

Lemma not_reads_as (p a : string) :
  small_letters p = true -> String.eqb (lower (strip a)) p = false -> ~ reads_as p a.
Proof.
  intros Hp E H. apply (strip_lower_test p a Hp) in H. congruence.
Qed.

Lemma HumanPlayer_decide_first_choice_witness :
  exists w', decide (Player_init HumanPlayer "Player 1") 0 typing_world = (Ok "r", w')
             /\ stdin w' = ["h"].
Proof.
  destruct (HumanPlayer_decide_first_choice
              (Player_init HumanPlayer "Player 1") 0 typing_world ["x"] " R " ["h"]
              eq_refl eq_refl)
    as [choice [w' [Hd [Hr [_ [Hin _]]]]]].
  - constructor; [|constructor].
    split; apply not_reads_as; reflexivity.
  - left. apply (strip_lower_test "r" " R " eq_refl). reflexivity.
  - exists w'. split; [|exact Hin]. rewrite Hd, Hr; [reflexivity|].
    apply (strip_lower_test "r" " R " eq_refl). reflexivity.
Defined.

Lemma HumanPlayer_decide_end_of_input_witness :
  at_point (PigGame_step {| at_point := Rolling 7; the_game := humans;
                            the_world := short_world |})
  = Raised EOFError.
Proof.
  destruct (HumanPlayer_decide_end_of_input humans
              (Player_init HumanPlayer "Player 1") 7 short_world eq_refl eq_refl)
    as [w' [_ [_ [_ H]]]].
  - constructor; [|constructor]. split; apply not_reads_as; reflexivity.
  - rewrite H. reflexivity.
Defined.

Lemma main_setup_player_types_witness :
  exists obj w', main_setup yes_world = (Ok obj, w') /\ game_of obj = computers.
Proof.
  destruct (main_setup_player_types yes_world "computer" "Computer " "  YeS " [] eq_refl)
    as [_ H].
  apply (H ComputerPlayer ComputerPlayer);
    apply (strip_lower_test "computer" _ eq_refl); reflexivity.
Defined.

Lemma main_end_of_input_witness :
  exists w', main 5 one_line_world = SetupRaised EOFError w'
             /\ stdout w' = [Prompt "Enter Player 1 type (human/computer): ";
                             Prompt "Enter Player 2 type (human/computer): "].
Proof.
  destruct (main_end_of_input one_line_world 5) as [w' [H1 [_ [H2 _]]]].
  - simpl. lia.
  - exists w'. split; [exact H1 | exact H2].
Defined.

Lemma computers_built :
  built (Untimed computers) "computer" "computer" demo_world demo_start.
Proof. reflexivity. Defined.

Lemma turns_alternate_witness :
  exists out k,
    stdout (the_world (game_after (Untimed computers) 400 demo_start))
    = stdout demo_start ++ out
    /\ announced out = turn_names k.
Proof.
  destruct (turns_alternate (Untimed computers) "computer" "computer" demo_world
              demo_start 400 computers_built) as [out [k [H1 [H2 _]]]].
  exists out, k. split; [exact H1 | exact H2].
Defined.

Lemma scores_are_banked_points_witness :
  exists out a b,
    players (the_game (game_after (Untimed computers) 400 demo_start)) = [a; b]
    /\ score a = banked "Player 1" out /\ score b = banked "Player 2" out.
Proof.
  destruct (scores_are_banked_points (Untimed computers) "computer" "computer" demo_world
              demo_start 400 computers_built) as [out [a [b [_ [H1 [_ [_ [H2 [H3 _]]]]]]]]].
  exists out, a, b. split; [exact H1|]. split; [exact H2 | exact H3].
Defined.

Lemma rolls_follow_generator_witness :
  exists out,
    random_state (the_world (game_after (Untimed computers) 400 demo_start))
    = snd (draws (random_seed 0) (List.length (rolls out))).
Proof.
  destruct (rolls_follow_generator (Untimed computers) "computer" "computer" demo_world
              demo_start 400 computers_built) as [out [_ [_ H]]].
  exists out. exact H.
Defined.

Lemma play_raises_only_at_end_of_input_witness :
  stdin (the_world (game_after (Untimed computers) 400 demo_start)) = stdin demo_start
  /\ at_point (game_after (Untimed computers) 400 demo_start) <> Raised EOFError.
Proof.
  destruct (play_raises_only_at_end_of_input (Untimed computers) "computer" "computer"
              demo_world demo_start 400 computers_built) as [_ H].
  destruct (H eq_refl eq_refl) as [H1 H2].
  split; [exact H1 | exact (H2 EOFError)].
Defined.

Lemma computer_never_overshoots_witness :
  exists p q,
    current (the_game (game_after (Untimed computers) 400 demo_start)) = Some p
    /\ opponent (the_game (game_after (Untimed computers) 400 demo_start)) = Some q
    /\ score q < 100.
Proof.
  destruct (computer_never_overshoots (RR := lcg_in_range) (Untimed computers)
              "computer" "computer" demo_world demo_start 400 computers_built)
    as [p [q [Hp [Hq [Hq100 _]]]]].
  exists p, q. split; [exact Hp|]. split; [exact Hq | exact Hq100].
Defined.

Lemma calm_clock (k : nat) : time_is_up 1000 (jump_clock 1000 1000 0 k) = false.
Proof. unfold jump_clock. destruct (Nat.ltb k 0); reflexivity. Defined.

Lemma timed_game_before_deadline_witness :
  let t := {| game := computers; start_time := 1000%float |} in
  let w1 := snd (TimedGameProxy_init "computer" "computer" calm_world) in
  the_game (TimedGameProxy_play 400 t w1) = the_game (PigGame_play 400 (game t) w1).
Proof.
  intros t w1.
  exact (proj1 (proj2 (timed_game_before_deadline "computer" "computer" calm_world w1 t 400
                         eq_refl calm_clock))).
Defined.

Lemma late_clock (k : nat) :
  (1 <= k)%nat -> time_is_up 1000 (jump_clock 1000 1070 1 k) = true.
Proof.
  intros Hk. unfold jump_clock. destruct (Nat.ltb_spec k 1); [lia | reflexivity].
Defined.

Lemma timed_game_ends_witness :
  let t := {| game := computers; start_time := 1000%float |} in
  let w1 := snd (TimedGameProxy_init "computer" "computer" demo_world) in
  at_point (TimedGameProxy_play (2 * 1 + 2) t w1) = Returned
  \/ at_point (TimedGameProxy_play (2 * 1 + 2) t w1) = Raised EOFError.
Proof.
  intros t w1.
  exact (proj1 (timed_game_ends "computer" "computer" demo_world w1 t 1 0
                  eq_refl late_clock)).
Defined.

Lemma computers_returned :
  at_point (game_after (Untimed computers) 400 demo_start) = Returned.
Proof. vm_compute. reflexivity. Defined.

Lemma one_result_at_the_end_witness :
  exists out out0 line,
    stdout (the_world (game_after (Untimed computers) 400 demo_start))
    = stdout demo_start ++ out
    /\ out = out0 ++ [line] /\ results out0 = [].
Proof.
  destruct (one_result_at_the_end (Untimed computers) "computer" "computer" demo_world
              demo_start 400 computers_built) as [out [H1 [_ H2]]].
  destruct (H2 computers_returned) as [out0 [line [E [H0 _]]]].
  exists out, out0, line. split; [exact H1|]. split; [exact E | exact H0].
Defined.
